(** * Multi-round QA load generator: session scheduling and pacing engine

    Shallow embedding of [synthetic-multi-round-qa/multi-round-qa-apps.py].

    Conventions of the embedding.
    - Python [int] is [Z].  A Python [float] is a rational [Q]: the value
      of a finite binary64 number.  A quotient, a product, and a sum or
      difference in which a computed float takes part, are rounded to the
      nearest binary64 number, ties to even ([fl], with the gradual
      underflow of the format; its range is taken unbounded above, so that
      no operation of a run overflows).  Comparisons are exact.  The
      difference of two times of a run, readings of the clock or the
      back-dated time of a last request, is exact as well: the times of one
      run lie in one binade, where the subtraction of the format does not
      round; a time less a duration is rounded.
    - A Python call that may raise returns a [result]; the raised exception
      is kept as a value of [exn].
    - Mutation of [self] is explicit state passing: a method takes the
      object and returns the updated object.
    - What a method sends out of the process (a request handed to the
      executor, a log line) is returned as a list of [effect]s. *)

From Stdlib Require Import ZArith QArith Qround Qpower List String Ascii Bool.
From Stdlib Require Import Lia Lqa.
From Stdlib Require Import DecimalString Sorted Permutation.
Import ListNotations.

Open Scope string_scope.
Open Scope list_scope.
Open Scope Z_scope.

(** ** Exceptions and fallible computations *)

Inductive exn : Type :=
| AssertionError (msg : string)
| ZeroDivisionError
| IndexError
| KeyError (key : string)
| UnboundLocalError (name : string)
| TypeError
| FileError
| APIError.

Inductive result (A : Type) : Type :=
| Ok (a : A)
| Raise (e : exn).

Arguments Ok {A} a.
Arguments Raise {A} e.

Definition bind {A B : Type} (m : result A) (k : A -> result B) : result B :=
  match m with
  | Ok a => k a
  | Raise e => Raise e
  end.

Notation "x <- m ;; k" := (bind m (fun x => k))
  (at level 61, m at next level, right associativity).
Notation "' p <- m ;; k" := (bind m (fun x => match x with p => k end))
  (at level 61, p pattern, m at next level, right associativity).

Definition py_assert (b : bool) (msg : string) : result unit :=
  if b then Ok tt else Raise (AssertionError msg).

(** ** Python numbers and sequences *)

(** Strict comparison on floats, [x > y]. *)
Definition Qgtb (x y : Q) : bool := negb (Qle_bool x y).

(** [int(x)] on a float: truncation towards zero. *)
Definition py_int (x : Q) : Z :=
  if Qle_bool 0 x then Qfloor x else Qceiling x.

(** *** Binary64

    The value of the float nearest to a rational: the rational is scaled by
    the power of two that brings it to 53 bits, or by [2 ^ emin] when it is
    below the normal range, and rounded to the nearest integer, ties to
    even. *)

Definition round_half_even (q : Q) : Z :=
  let f := Qfloor q in
  match (q - inject_Z f ?= 1 # 2)%Q with
  | Lt => f
  | Gt => f + 1
  | Eq => if Z.even f then f else f + 1
  end.

(** [floor (log2 q)], for [0 < q]. *)
Definition ilog2 (q : Q) : Z :=
  let l := Z.log2 (Qnum q) - Z.log2 (Zpos (Qden q)) in
  if Qle_bool (2 ^ l) q then l else l - 1.

(** The exponent of the least positive float. *)
Definition emin : Z := -1074.

(** The exponent of the last bit of the float nearest to [q], [0 < q]. *)
Definition fexp (q : Q) : Z := Z.max (ilog2 q - 52) emin.

Definition fl_pos (q : Q) : Q :=
  (inject_Z (round_half_even (q / 2 ^ fexp q)) * 2 ^ fexp q)%Q.

Definition fl (q : Q) : Q :=
  match (q ?= 0)%Q with
  | Eq => 0%Q
  | Gt => Qred (fl_pos q)
  | Lt => Qred (- fl_pos (- q))
  end.

(** [float(n)], as in [n * x] and [n / x] with [n] an [int]. *)
Definition of_int (n : Z) : Q := fl (inject_Z n).

Definition fadd (x y : Q) : Q := fl (x + y).
Definition fsub (x y : Q) : Q := fl (x - y).
Definition fmul (x y : Q) : Q := fl (x * y).
Definition fdiv (x y : Q) : Q := fl (x / y).

(** [x / y] on floats raises on a zero divisor. *)
Definition py_truediv (x y : Q) : result Q :=
  if Qeq_bool y 0 then Raise ZeroDivisionError else Ok (fdiv x y).

(** [l[i]] with Python's negative indices. *)
Definition py_index {A : Type} (l : list A) (i : Z) : result A :=
  let n := Z.of_nat (List.length l) in
  let j := if i <? 0 then i + n else i in
  if (j <? 0) || (n <=? j) then Raise IndexError
  else match nth_error l (Z.to_nat j) with
       | Some a => Ok a
       | None => Raise IndexError
       end.

(** [str(n)] for an integer. *)
Definition py_str (n : Z) : string := NilZero.string_of_int (Z.to_int n).

(** [sep.join(l)]. *)
Definition py_join (sep : string) (l : list string) : string :=
  String.concat sep l.

(** ** ChatHistory *)

Record message : Type := mkMessage { role : string; content : string }.

(** [self.history], the only field of [ChatHistory]. *)
Definition ChatHistory : Type := list message.

Definition ChatHistory_init : ChatHistory := [].

(** [self.history[-1]["role"] == r] on a non-empty history. *)
Definition last_role_is (h : ChatHistory) (r : string) : bool :=
  match py_index h (-1) with
  | Ok m => String.eqb (role m) r
  | Raise _ => false
  end.

Definition on_user_query (h : ChatHistory) (query : string) : result ChatHistory :=
  if (Z.of_nat (List.length h) =? 0) then
    Ok (h ++ [mkMessage "user" query])
  else
    _ <- py_assert (last_role_is h "assistant") "Expect system response" ;;
    Ok (h ++ [mkMessage "user" query]).

Definition on_system_response (h : ChatHistory) (response : string)
  : result ChatHistory :=
  _ <- py_assert (0 <? Z.of_nat (List.length h)) "Expect user query" ;;
  _ <- py_assert (last_role_is h "user") "Expect user query" ;;
  Ok (h ++ [mkMessage "assistant" response]).

Definition get_messages_for_openai (h : ChatHistory) : list message := h.

Definition ChatHistory_len (h : ChatHistory) : Z := Z.of_nat (List.length h).

(** The two appends of [ChatHistory], as the callers see them. *)
Inductive chat_op : Type :=
| UserQuery (query : string)
| SystemResponse (response : string).

Definition apply_chat_op (h : ChatHistory) (o : chat_op) : result ChatHistory :=
  match o with
  | UserQuery q => on_user_query h q
  | SystemResponse r => on_system_response h r
  end.

(** A sequence of appends on one history; the first failing append raises
    and ends the sequence. *)
Fixpoint apply_chat_ops (h : ChatHistory) (ops : list chat_op)
  : result ChatHistory :=
  match ops with
  | [] => Ok h
  | o :: ops' => h' <- apply_chat_op h o ;; apply_chat_ops h' ops'
  end.

(** The alternation invariant of the specification, in its words. *)
Definition no_two_consecutive_same_role (h : ChatHistory) : Prop :=
  forall h1 m1 m2 h2, h = h1 ++ m1 :: m2 :: h2 -> role m1 <> role m2.

Definition never_starts_with_assistant (h : ChatHistory) : Prop :=
  forall m t, h = m :: t -> role m <> "assistant".

(** Histories built turn by turn, a user turn first and then in strict
    alternation. *)
Inductive alternates : ChatHistory -> Prop :=
| alt_empty : alternates []
| alt_first q : alternates [mkMessage "user" q]
| alt_user h r q :
    alternates (h ++ [mkMessage "assistant" r]) ->
    alternates ((h ++ [mkMessage "assistant" r]) ++ [mkMessage "user" q])
| alt_assistant h q r :
    alternates (h ++ [mkMessage "user" q]) ->
    alternates ((h ++ [mkMessage "user" q]) ++ [mkMessage "assistant" r]).

(** ** App profiles and AppsManager *)

Record App : Type := mkApp {
  systemPrompt : string;
  tools : string;
  ragDocs : list string
}.

(** One entry of the parsed apps file: a JSON object in which each of the
    three keys may be missing. *)
Record app_data : Type := mkAppData {
  ad_systemPrompt : option string;
  ad_tools : option string;
  ad_ragDocs : option (list string)
}.

(** What [open] followed by [json.load] gives for a path: either of them
    raising, or the parsed list of entries. *)
Inductive apps_file : Type :=
| Unreadable
| Parsed (entries : list app_data).

(** [d[key]] on a parsed entry. *)
Definition get_key {A : Type} (key : string) (v : option A) : result A :=
  match v with
  | Some a => Ok a
  | None => Raise (KeyError key)
  end.

Record AppsManager : Type := mkAppsManager {
  apps : list App;
  (** [Dict[int, App]], in insertion order. *)
  user_app_map : list (Z * App);
  users_per_app : Z
}.

Definition dict_get {V : Type} (d : list (Z * V)) (k : Z) : option V :=
  match find (fun kv => fst kv =? k) d with
  | Some kv => Some (snd kv)
  | None => None
  end.

Fixpoint dict_set {V : Type} (d : list (Z * V)) (k : Z) (v : V) : list (Z * V) :=
  match d with
  | [] => [(k, v)]
  | (k', v') :: d' =>
      if k' =? k then (k, v) :: d' else (k', v') :: dict_set d' k v
  end.

(** The body of the [for] loop of [_load_apps]: one [App] appended per
    entry, the first missing key raising. *)
Fixpoint load_entries (acc : list App) (entries : list app_data)
  : result (list App) :=
  match entries with
  | [] => Ok acc
  | d :: rest =>
      sp <- get_key "systemPrompt" (ad_systemPrompt d) ;;
      tl <- get_key "tools" (ad_tools d) ;;
      rd <- get_key "ragDocs" (ad_ragDocs d) ;;
      load_entries (acc ++ [mkApp sp tl rd]) rest
  end.

(** [_load_apps]: any exception is logged and raised again. *)
Definition _load_apps (self : AppsManager) (file : apps_file) : result AppsManager :=
  match file with
  | Unreadable => Raise FileError
  | Parsed apps_data =>
      l <- load_entries (apps self) apps_data ;;
      Ok (mkAppsManager l (user_app_map self) (users_per_app self))
  end.

(** [AppsManager.__init__]; [file] is what the path [apps_file_path]
    holds. *)
Definition AppsManager_init (file : apps_file) (users_per_app : Z)
  : result AppsManager :=
  _load_apps (mkAppsManager [] [] users_per_app) file.

(** Integer [//] and [%], raising on a zero divisor. *)
Definition py_floordiv (a b : Z) : result Z :=
  if b =? 0 then Raise ZeroDivisionError else Ok (a / b).

Definition py_mod (a b : Z) : result Z :=
  if b =? 0 then Raise ZeroDivisionError else Ok (a mod b).

Definition assign_app_to_user (self : AppsManager) (user_id : Z)
  : result (AppsManager * App) :=
  q <- py_floordiv user_id (users_per_app self) ;;
  app_index <- py_mod q (Z.of_nat (List.length (apps self))) ;;
  a <- py_index (apps self) app_index ;;
  Ok (mkAppsManager (apps self) (dict_set (user_app_map self) user_id a)
        (users_per_app self), a).

Definition get_app_for_user (self : AppsManager) (user_id : Z)
  : result (AppsManager * App) :=
  match dict_get (user_app_map self) user_id with
  | None => assign_app_to_user self user_id
  | Some a => Ok (self, a)
  end.

(** ** Configurations *)

Record WorkloadConfig : Type := mkWorkloadConfig {
  num_users : Z;
  system_prompt_len : Z;
  user_info_len : Z;
  answer_len : Z;
  num_rounds : Z;
  qps : Q;
  model : string;
  enable_user_id : bool;
  apps_file_path : string;
  wc_users_per_app : Z
}.

Record UserConfig : Type := mkUserConfig {
  user_id : Z;
  uc_system_prompt_len : Z;
  uc_user_info_len : Z;
  uc_answer_len : Z;
  gap_between_requests : Q;
  uc_num_rounds : Z;
  uc_enable_user_id : bool
}.

Definition new_user_config (user_id : Z) (workload_config : WorkloadConfig)
  : result UserConfig :=
  gap <- py_truediv (of_int (num_users workload_config)) (qps workload_config) ;;
  Ok (mkUserConfig user_id
        (system_prompt_len workload_config)
        (user_info_len workload_config)
        (answer_len workload_config)
        gap
        (num_rounds workload_config)
        (enable_user_id workload_config)).

(** ** Responses and the RequestExecutor *)

Record Response : Type := mkResponse {
  body : string;
  ttft : Q;
  generation_time : Q;
  prompt_tokens : Z;
  generation_tokens : Z;
  launch_time : Q;
  finish_time : Q
}.

(** The completions endpoint, as the executor uses it. *)
Record usage_block : Type := mkUsage {
  completion_tokens : Z;
  usage_prompt_tokens : Z
}.

Record choice : Type := mkChoice { text : option string }.

Record chunk : Type := mkChunk {
  choices : list choice;
  usage : option usage_block
}.

Record completion : Type := mkCompletion { final_usage : option usage_block }.

(** Keyword arguments of one [client.completions.create] call; an argument
    that the call does not pass is [None]. *)
Record completion_request : Type := mkRequest {
  req_model : string;
  req_prompt : string;
  req_stream : bool;
  req_max_tokens : Z;
  req_temperature : option Q;
  req_extra_headers : option (list (string * string));
  req_stream_options : option (list (string * bool))
}.

(** The server's side of the two kinds of call.  A streaming call that
    raises, at [create] or while the stream is read, is [Raise]: the chunks
    read before the exception only feed local variables. *)
Record endpoint : Type := mkEndpoint {
  ep_stream : completion_request -> result (list chunk);
  ep_final : completion_request -> result completion
}.

(** The readings of [time.time()] in [_async_launch_request], by the place
    of the call. *)
Record clock : Type := mkClock {
  at_start : Q;
  at_first_token : Q;
  at_generation_end : Q;
  at_finish : Q
}.

Record RequestExecutor : Type := mkRequestExecutor { executor_model : string }.

Definition nl : string := String (ascii_of_nat 10) EmptyString.

(** The prompt: one line [role: content] per message. *)
Fixpoint flatten_messages (prompt : string) (messages : list message) : string :=
  match messages with
  | [] => prompt
  | msg :: rest =>
      flatten_messages
        (prompt ++ (role msg ++ ": " ++ content msg ++ nl))%string rest
  end.

(** One iteration of [async for chunk in response], on the pair
    [(words, first_token_time)]. *)
Definition process_chunk (now : Q) (st : string * option Q) (c : chunk)
  : string * option Q :=
  match choices c with
  | [] => st
  | ch :: _ =>
      match text ch with
      | Some t =>
          let first_token_time :=
            match snd st with
            | None => if String.eqb t "" then None else Some now
            | Some ft => Some ft
            end in
          ((fst st ++ t)%string, first_token_time)
      | None => st
      end
  end.

(** Truth value of an optional float: [None] and [0.0] are false. *)
Definition truthy (x : option Q) : bool :=
  match x with
  | None => false
  | Some q => negb (Qeq_bool q 0)
  end.

(** [e if first_token_time else 0], where [e] reads [first_token_time]. *)
Definition elapsed_if_set (first_token_time : option Q) (e : Q -> Q) : Q :=
  match first_token_time with
  | Some ft => if truthy first_token_time then e ft else 0%Q
  | None => 0%Q
  end.

Definition streaming_request (self : RequestExecutor) (prompt : string)
    (max_tokens : Z) (extra_headers : option (list (string * string)))
  : completion_request :=
  mkRequest (executor_model self) prompt true max_tokens (Some 0%Q)
    extra_headers (Some [("include_usage", true)]).

Definition final_request (self : RequestExecutor) (prompt : string)
    (max_tokens : Z) : completion_request :=
  mkRequest (executor_model self) prompt false max_tokens None None None.

(** [_async_launch_request].  The result is the list of calls sent to the
    endpoint, in order, and what the coroutine returns or raises. *)
Definition _async_launch_request (self : RequestExecutor) (api : endpoint)
    (clk : clock) (messages : list message) (max_tokens : Z)
    (tools : option string) (extra_headers : option (list (string * string)))
  : list completion_request * result Response :=
  let start_time := at_start clk in
  let prompt := flatten_messages "" messages in
  let sreq := streaming_request self prompt max_tokens extra_headers in
  match ep_stream api sreq with
  | Raise e => ([sreq], Raise e)
  | Ok chunks =>
      let '(words, first_token_time) :=
        fold_left (process_chunk (at_first_token clk)) chunks ("", None) in
      (* after the loop [chunk] is the last chunk read, if any *)
      match last (map Some chunks) None with
      | None => ([sreq], Raise (UnboundLocalError "chunk"))
      | Some chunk =>
          let '(tokens_out, tokens_prefill) :=
            match usage chunk with
            | Some u => (completion_tokens u, usage_prompt_tokens u)
            | None => (0, 0)
            end in
          let '(calls, (tokens_out, tokens_prefill)) :=
            if (tokens_out =? 0) || (tokens_prefill =? 0) then
              let freq := final_request self prompt max_tokens in
              ([sreq; freq],
               match ep_final api freq with
               | Ok final_response =>
                   match final_usage final_response with
                   | Some u => (completion_tokens u, usage_prompt_tokens u)
                   | None => (tokens_out, tokens_prefill)
                   end
               | Raise _ => (tokens_out, tokens_prefill)
               end)
            else ([sreq], (tokens_out, tokens_prefill)) in
          let ttft := elapsed_if_set first_token_time
                        (fun ft => ft - start_time)%Q in
          let generation_time := elapsed_if_set first_token_time
                                   (fun ft => at_generation_end clk - ft)%Q in
          (calls,
           Ok (mkResponse words ttft generation_time tokens_prefill tokens_out
                 start_time (at_finish clk)))
      end
  end.

(** What [launch_request] hands to the event loop: the arguments of the
    coroutine.  [messages] is the history as it stands at the launch. *)
Record pending_request : Type := mkPending {
  pr_messages : list message;
  pr_max_tokens : Z;
  pr_tools : option string;
  pr_extra_headers : option (list (string * string))
}.

Definition launch_request (chat_history : ChatHistory) (max_tokens : Z)
    (tools : option string) (extra_headers : option (list (string * string)))
  : pending_request :=
  mkPending (get_messages_for_openai chat_history) max_tokens tools extra_headers.

(** The coroutine of a pending request, run against an endpoint. *)
Definition run_request (self : RequestExecutor) (api : endpoint) (clk : clock)
    (p : pending_request) : list completion_request * result Response :=
  _async_launch_request self api clk (pr_messages p) (pr_max_tokens p)
    (pr_tools p) (pr_extra_headers p).

(** [real_callback = lambda x: finish_callback(x.result())], on the state
    [S] that [finish_callback] updates; [x.result()] raises what the
    coroutine raised. *)
Definition real_callback {S : Type} (finish_callback : S -> Response -> result S)
    (s : S) (x : result Response) : result S :=
  r <- x ;; finish_callback s r.

(** The future runs its done-callbacks and drops what they raise. *)
Definition run_done_callback {S : Type} (cb : S -> result Response -> result S)
    (s : S) (x : result Response) : S :=
  match cb s x with
  | Ok s' => s'
  | Raise _ => s
  end.

(** ** UserSession *)

(** One conversation of the replay data set. *)
Record sharegpt_turn : Type := mkTurn { value : string; num_tokens : Z }.

Record sharegpt_entry : Type := mkShareGPT {
  num_round : Z;
  conversations : list sharegpt_turn
}.

Record UserSession : Type := mkUserSession {
  user_config : UserConfig;
  app : option App;
  last_request_time : option Q;
  chat_history : ChatHistory;
  question_id : Z;
  (** [use_sharegpt] with [sharegpt_data]: [Some d] when the flag is set. *)
  sharegpt : option sharegpt_entry;
  start_with_gpt : bool;
  has_unfinished_request : bool;
  last_unfinished_log : Q;
  prompt_lengths : list Z;
  generation_lengths : list Z;
  ttfts : list Q;
  generation_times : list Q;
  launch_times : list Q;
  finish_times : list Q;
  finished : bool
}.

Definition UserSession_init (user_config : UserConfig) (app : option App)
    (sharegpt : option sharegpt_entry) : UserSession :=
  let start_with_gpt :=
    match sharegpt with
    | Some d => negb (num_round d mod 2 =? 0)
    | None => false
    end in
  mkUserSession user_config app None ChatHistory_init 0 sharegpt start_with_gpt
    false 0 [] [] [] [] [] [] false.

(** Field updates. *)
Definition set_question_id (s : UserSession) (q : Z) : UserSession :=
  mkUserSession (user_config s) (app s) (last_request_time s) (chat_history s)
    q (sharegpt s) (start_with_gpt s) (has_unfinished_request s)
    (last_unfinished_log s) (prompt_lengths s) (generation_lengths s) (ttfts s)
    (generation_times s) (launch_times s) (finish_times s) (finished s).

Definition set_chat_history (s : UserSession) (h : ChatHistory) : UserSession :=
  mkUserSession (user_config s) (app s) (last_request_time s) h
    (question_id s) (sharegpt s) (start_with_gpt s) (has_unfinished_request s)
    (last_unfinished_log s) (prompt_lengths s) (generation_lengths s) (ttfts s)
    (generation_times s) (launch_times s) (finish_times s) (finished s).

Definition set_last_request_time (s : UserSession) (t : option Q) : UserSession :=
  mkUserSession (user_config s) (app s) t (chat_history s)
    (question_id s) (sharegpt s) (start_with_gpt s) (has_unfinished_request s)
    (last_unfinished_log s) (prompt_lengths s) (generation_lengths s) (ttfts s)
    (generation_times s) (launch_times s) (finish_times s) (finished s).

Definition set_has_unfinished_request (s : UserSession) (b : bool) : UserSession :=
  mkUserSession (user_config s) (app s) (last_request_time s) (chat_history s)
    (question_id s) (sharegpt s) (start_with_gpt s) b
    (last_unfinished_log s) (prompt_lengths s) (generation_lengths s) (ttfts s)
    (generation_times s) (launch_times s) (finish_times s) (finished s).

Definition set_last_unfinished_log (s : UserSession) (t : Q) : UserSession :=
  mkUserSession (user_config s) (app s) (last_request_time s) (chat_history s)
    (question_id s) (sharegpt s) (start_with_gpt s) (has_unfinished_request s)
    t (prompt_lengths s) (generation_lengths s) (ttfts s)
    (generation_times s) (launch_times s) (finish_times s) (finished s).

Definition set_finished (s : UserSession) (b : bool) : UserSession :=
  mkUserSession (user_config s) (app s) (last_request_time s) (chat_history s)
    (question_id s) (sharegpt s) (start_with_gpt s) (has_unfinished_request s)
    (last_unfinished_log s) (prompt_lengths s) (generation_lengths s) (ttfts s)
    (generation_times s) (launch_times s) (finish_times s) b.

Definition _update_result (s : UserSession) (response : Response) : UserSession :=
  mkUserSession (user_config s) (app s) (last_request_time s) (chat_history s)
    (question_id s) (sharegpt s) (start_with_gpt s) (has_unfinished_request s)
    (last_unfinished_log s)
    (prompt_lengths s ++ [prompt_tokens response])
    (generation_lengths s ++ [generation_tokens response])
    (ttfts s ++ [ttft response])
    (generation_times s ++ [generation_time response])
    (launch_times s ++ [launch_time response])
    (finish_times s ++ [finish_time response])
    (finished s).

(** [" ".join(["hi"] * length)]. *)
Definition gen_dummy_text (length : Z) : string :=
  py_join " " (repeat "hi" (Z.to_nat length)).

Definition _build_system_prompt (s : UserSession) : string :=
  match app s with
  | Some a => systemPrompt a
  | None =>
      let dummy_text_sys := gen_dummy_text (uc_system_prompt_len (user_config s)) in
      let dummy_text_user := gen_dummy_text (uc_user_info_len (user_config s)) in
      (("Hi, here's some system prompt: " ++ dummy_text_sys ++ ".")
       ++ ("For user " ++ py_str (user_id (user_config s)) ++ ", ")
       ++ ("here are some other context: " ++ dummy_text_user ++ "."))%string
  end.

(** [random_string] is the draw of [random.choices]. *)
Definition _build_new_question (s : UserSession) (random_string : string)
  : UserSession * string :=
  let s := set_question_id s (question_id s + 1) in
  (s,
   (("Here's question #" ++ py_str (question_id s) ++ ": can you tell me ")
    ++ "a new long story with a happy ending? "
    ++ ("Here's a random string: " ++ random_string))%string).

Definition _get_all_rag_docs (s : UserSession) : string :=
  match app s with
  | None => ""
  | Some a =>
      match ragDocs a with
      | [] => ""
      | docs => py_join nl docs
      end
  end.

(** What a scheduler tick sends out of a session. *)
Inductive effect : Type :=
| Launch (p : pending_request)
| Warning (msg : string).

Definition unfinished_warning (s : UserSession) : string :=
  ("User " ++ py_str (user_id (user_config s)) ++ " has an unfinished "
   ++ "request and unable to fit the QPS requirement.")%string.

(** The first lines of [_launch_new_request]: the question counter moves
    and the text of the question is chosen. *)
Definition next_prompt (s : UserSession) (random_string : string)
  : result (UserSession * string) :=
  match sharegpt s with
  | Some d =>
      turn <- (if start_with_gpt s
               then py_index (conversations d) (2 * question_id s + 1)
               else py_index (conversations d) (2 * question_id s)) ;;
      Ok (set_question_id s (question_id s + 1), value turn)
  | None =>
      let rag_docs := _get_all_rag_docs s in
      let '(s, prompt) := _build_new_question s random_string in
      Ok (s, (rag_docs ++ prompt)%string)
  end.

(** The system prompt goes before the first question. *)
Definition with_system_prompt (s : UserSession) (prompt : string) : string :=
  if ChatHistory_len (chat_history s) =? 0
  then (_build_system_prompt s ++ prompt)%string else prompt.

(** [max_tokens] of the round, once the question counter has moved. *)
Definition round_max_tokens (s : UserSession) : result Z :=
  match sharegpt s with
  | Some d =>
      turn <- (if start_with_gpt s
               then py_index (conversations d) (2 * question_id s)
               else py_index (conversations d) (2 * question_id s - 1)) ;;
      Ok (Z.min (num_tokens turn) (uc_answer_len (user_config s)))
  | None => Ok (uc_answer_len (user_config s))
  end.

(** The request of the round, as [launch_request] receives it. *)
Definition round_request (s : UserSession) (max_tokens : Z) : pending_request :=
  let tools := option_map tools (app s) in
  launch_request (chat_history s) max_tokens tools
    (Some [("x-user-id", py_str (user_id (user_config s)))]).

Definition _launch_new_request (s : UserSession) (timestamp : Q)
    (random_string : string) : result (UserSession * pending_request) :=
  '(s, prompt) <- next_prompt s random_string ;;
  let prompt := with_system_prompt s prompt in
  h <- on_user_query (chat_history s) prompt ;;
  let s := set_chat_history s h in
  max_tokens <- round_max_tokens s ;;
  let p := round_request s max_tokens in
  let s := set_has_unfinished_request s true in
  let s := set_last_request_time s (Some timestamp) in
  Ok (s, p).

Definition _on_request_finished (s : UserSession) (response : Response)
  : result UserSession :=
  h <- on_system_response (chat_history s) (body response) ;;
  let s := set_chat_history s h in
  let s := set_has_unfinished_request s false in
  Ok (_update_result s response).

Definition set_internal_state (s : UserSession) (offset timestamp : Q)
  : result UserSession :=
  _ <- py_assert (ChatHistory_len (chat_history s) =? 0)
         "Internal state should be set before the first request" ;;
  q <- py_truediv offset (gap_between_requests (user_config s)) ;;
  let num_passed_questions := py_int q + 1 in
  let passed_time :=
    fmul (of_int (num_passed_questions - 1)) (gap_between_requests (user_config s)) in
  let s := set_last_request_time s
             (Some (fadd (fsub timestamp offset) passed_time)) in
  Ok (set_question_id s num_passed_questions).

Definition step (s : UserSession) (timestamp : Q) (random_string : string)
  : result (UserSession * list effect) :=
  if (uc_num_rounds (user_config s) <=? question_id s)
     && negb (has_unfinished_request s)
  then Ok (set_finished s true, [])
  else
    match last_request_time s with
    | None =>
        '(s, p) <- _launch_new_request s timestamp random_string ;;
        Ok (s, [Launch p])
    | Some last =>
        if Qgtb (timestamp - last) (gap_between_requests (user_config s)) then
          if has_unfinished_request s then
            if Qgtb (timestamp - last_unfinished_log s) 10 then
              Ok (set_last_unfinished_log s timestamp,
                  [Warning (unfinished_warning s)])
            else Ok (s, [])
          else
            '(s, p) <- _launch_new_request s timestamp random_string ;;
            Ok (s, [Launch p])
        else Ok (s, [])
    end.

(** The done-callback a session registers on each of its requests. *)
Definition on_future_done (s : UserSession) (x : result Response) : UserSession :=
  run_done_callback (real_callback _on_request_finished) s x.

(** One row of the result table. *)
Record row : Type := mkRow {
  r_prompt_tokens : Z;
  r_generation_tokens : Z;
  r_ttft : Q;
  r_generation_time : Q;
  r_user_id : Z;
  r_question_id : Z;
  r_launch_time : Q;
  r_finish_time : Q
}.

Definition DataFrame : Type := list row.

(** The columns of [summary], row by row; [i] is the question number of
    the first row. *)
Fixpoint summary_rows (uid i : Z) (pl gl : list Z) (tf gt lt ft : list Q)
  : DataFrame :=
  match pl, gl, tf, gt, lt, ft with
  | p :: pl, g :: gl, a :: tf, b :: gt, c :: lt, d :: ft =>
      mkRow p g a b uid i c d :: summary_rows uid (i + 1) pl gl tf gt lt ft
  | _, _, _, _, _, _ => []
  end.

Definition UserSession_summary (s : UserSession) : DataFrame :=
  summary_rows (user_id (user_config s)) 1
    (prompt_lengths s) (generation_lengths s) (ttfts s)
    (generation_times s) (launch_times s) (finish_times s).

(** ** UserSessionManager *)

Record UserSessionManager : Type := mkManager {
  workload_config : WorkloadConfig;
  sessions : list UserSession;
  apps_manager : AppsManager;
  gap_between_users : Q;
  ramp_up_time : Q;
  mgr_user_id : Z;
  last_user_join : Q;
  session_summaries : list DataFrame;
  start_time : option Q;
  need_ramp_up : bool;
  use_sharegpt : bool;
  sharegpt_data : list sharegpt_entry
}.

(** [_load_sharegpt_data]; [file] is what [ShareGPT.json] holds. *)
Definition _load_sharegpt_data (workload_config : WorkloadConfig)
    (file : result (list sharegpt_entry)) : result (list sharegpt_entry) :=
  l <- file ;;
  Ok (filter (fun d => 2 * num_rounds workload_config <? num_round d) l).

Definition UserSessionManager_init (file : apps_file)
    (sharegpt_file : result (list sharegpt_entry))
    (workload_config : WorkloadConfig) (init_user_id : Z) (use_sharegpt : bool)
  : result UserSessionManager :=
  am <- AppsManager_init file (wc_users_per_app workload_config) ;;
  gap_between_requests_per_user <-
    py_truediv (of_int (num_users workload_config)) (qps workload_config) ;;
  let session_alive_time :=
    fmul gap_between_requests_per_user (of_int (num_rounds workload_config - 1)) in
  gap_between_users <-
    py_truediv session_alive_time (of_int (num_users workload_config + 0)) ;;
  let ramp_up_time := fmul (of_int (num_users workload_config)) gap_between_users in
  data <- (if use_sharegpt then _load_sharegpt_data workload_config sharegpt_file
           else Ok []) ;;
  Ok (mkManager workload_config [] am gap_between_users ramp_up_time
        init_user_id 0 [] None true use_sharegpt data).

Definition _create_user_session (m : UserSessionManager)
  : result (UserSessionManager * UserSession) :=
  let uid := mgr_user_id m + 1 in
  (* from here on [self.user_id] is [uid], also when a later line raises *)
  user_config <- new_user_config uid (workload_config m) ;;
  '(am, a) <- get_app_for_user (apps_manager m) uid ;;
  user_session <-
    (if use_sharegpt m then
       d <- py_index (sharegpt_data m) uid ;;
       Ok (UserSession_init user_config (Some a) (Some d))
     else Ok (UserSession_init user_config (Some a) None)) ;;
  Ok (mkManager (workload_config m) (sessions m ++ [user_session]) am
        (gap_between_users m) (ramp_up_time m) uid (last_user_join m)
        (session_summaries m) (start_time m) (need_ramp_up m)
        (use_sharegpt m) (sharegpt_data m),
      user_session).

Definition set_last_user_join (m : UserSessionManager) (t : Q) : UserSessionManager :=
  mkManager (workload_config m) (sessions m) (apps_manager m)
    (gap_between_users m) (ramp_up_time m) (mgr_user_id m) t
    (session_summaries m) (start_time m) (need_ramp_up m)
    (use_sharegpt m) (sharegpt_data m).

Definition set_sessions (m : UserSessionManager) (l : list UserSession)
  : UserSessionManager :=
  mkManager (workload_config m) l (apps_manager m)
    (gap_between_users m) (ramp_up_time m) (mgr_user_id m) (last_user_join m)
    (session_summaries m) (start_time m) (need_ramp_up m)
    (use_sharegpt m) (sharegpt_data m).

Definition set_need_ramp_up (m : UserSessionManager) (b : bool) : UserSessionManager :=
  mkManager (workload_config m) (sessions m) (apps_manager m)
    (gap_between_users m) (ramp_up_time m) (mgr_user_id m) (last_user_join m)
    (session_summaries m) (start_time m) b
    (use_sharegpt m) (sharegpt_data m).

Definition set_start_time (m : UserSessionManager) (t : option Q)
  : UserSessionManager :=
  mkManager (workload_config m) (sessions m) (apps_manager m)
    (gap_between_users m) (ramp_up_time m) (mgr_user_id m) (last_user_join m)
    (session_summaries m) t (need_ramp_up m)
    (use_sharegpt m) (sharegpt_data m).

(** The session just created is the last of [self.sessions];
    [set_internal_state] updates it in place. *)
Definition replace_last (l : list UserSession) (s : UserSession) : list UserSession :=
  removelast l ++ [s].

(** The [for i in range(num_users)] loop of [_ramp_up], over the values of
    [i] still to come; [break] leaves the loop with the state so far. *)
Fixpoint ramp_up_loop (m : UserSessionManager) (timestamp ramp_up_time : Q)
    (indices : list nat) : result UserSessionManager :=
  match indices with
  | [] => Ok m
  | i :: rest =>
      '(m, new_session) <- _create_user_session m ;;
      let m := set_last_user_join m timestamp in
      let offset :=
        fsub ramp_up_time (fmul (of_int (Z.of_nat i)) (gap_between_users m)) in
      if Qgtb 0 offset then Ok m
      else
        new_session <- set_internal_state new_session offset timestamp ;;
        ramp_up_loop (set_sessions m (replace_last (sessions m) new_session))
          timestamp ramp_up_time rest
  end.

Definition _ramp_up (m : UserSessionManager) (timestamp ramp_up_time : Q)
  : result UserSessionManager :=
  m <- ramp_up_loop m timestamp ramp_up_time
         (seq 0 (Z.to_nat (num_users (workload_config m)))) ;;
  Ok (set_need_ramp_up m false).

Definition _remove_finished_sessions (m : UserSessionManager) : UserSessionManager :=
  let sessions_to_remove := filter finished (sessions m) in
  mkManager (workload_config m)
    (filter (fun s => negb (finished s)) (sessions m))
    (apps_manager m) (gap_between_users m) (ramp_up_time m) (mgr_user_id m)
    (last_user_join m)
    (session_summaries m ++ map UserSession_summary sessions_to_remove)
    (start_time m) (need_ramp_up m) (use_sharegpt m) (sharegpt_data m).

(** [for session in self.sessions: session.step(timestamp, executor)];
    [rng uid q] is the random string drawn by user [uid] when its question
    counter is [q]. *)
Fixpoint step_sessions (l : list UserSession) (timestamp : Q)
    (rng : Z -> Z -> string) : result (list UserSession * list (Z * effect)) :=
  match l with
  | [] => Ok ([], [])
  | s :: rest =>
      let uid := user_id (user_config s) in
      '(s', effs) <- step s timestamp (rng uid (question_id s)) ;;
      '(rest', effs') <- step_sessions rest timestamp rng ;;
      Ok (s' :: rest', map (pair uid) effs ++ effs')
  end.

Definition UserSessionManager_step (m : UserSessionManager) (timestamp : Q)
    (rng : Z -> Z -> string)
  : result (UserSessionManager * list (Z * effect)) :=
  m <- (if need_ramp_up m then _ramp_up m timestamp (ramp_up_time m) else Ok m) ;;
  let m := match start_time m with
           | None => set_start_time m (Some timestamp)
           | Some _ => m
           end in
  m <- (if (Z.of_nat (List.length (sessions m)) <? num_users (workload_config m))
           && Qgtb (timestamp - last_user_join m) (gap_between_users m)
        then
          '(m, _) <- _create_user_session m ;;
          Ok (set_last_user_join m timestamp)
        else Ok m) ;;
  '(l, effs) <- step_sessions (sessions m) timestamp rng ;;
  Ok (_remove_finished_sessions (set_sessions m l), effs).

(** ** Windowed aggregation *)

(** [df.query(f"{lo} <= col <= {hi}")]. *)
Definition query_between (lo hi : Q) (col : row -> Q) (df : DataFrame) : DataFrame :=
  filter (fun r => Qle_bool lo (col r) && Qle_bool (col r) hi) df.

(** [min()] and [max()] of a column; [None] is the not-a-number that pandas
    gives on an empty column. *)
Definition Qminimum (l : list Q) : option Q :=
  match l with
  | [] => None
  | x :: l' => Some (fold_left (fun a b => if Qle_bool a b then a else b) l' x)
  end.

Definition Qmaximum (l : list Q) : option Q :=
  match l with
  | [] => None
  | x :: l' => Some (fold_left (fun a b => if Qle_bool a b then b else a) l' x)
  end.

Definition Zsum (l : list Z) : Z := fold_left Z.add l 0.

(** A bound of the window, as the caller passes it: a Python number, or a
    numpy scalar, which is what pandas returns for the minimum or the maximum
    of a column. *)
Inductive number : Type :=
| PyNum (x : Q)
| NpNum (x : Q).

Definition number_value (n : number) : Q :=
  match n with
  | PyNum x => x
  | NpNum x => x
  end.

(** Truth value of a bound: [None] and zero are false. *)
Definition bound_truthy (x : option number) : bool :=
  match x with
  | None => false
  | Some n => negb (Qeq_bool (number_value n) 0)
  end.

(** A figure of the report: a float, an infinity or not-a-number. *)
Inductive xfloat : Type :=
| Fin (x : Q)
| PInf
| NInf
| NaN.

(** [n / total_time] where it does not raise, [n] an integer: a zero
    divisor, which is then a numpy scalar, gives an infinity or
    not-a-number; [total_time] is [None] when it is not a number. *)
Definition rate (n : Z) (total_time : option Q) : xfloat :=
  match total_time with
  | None => NaN
  | Some d =>
      if Qeq_bool d 0 then
        if n =? 0 then NaN else if 0 <? n then PInf else NInf
      else Fin (fdiv (of_int n) d)
  end.

(** What [ProcessSummary] computes: the count of launched queries, the time
    range and figures that it prints, and the frame it returns.  In the
    range [None] is not-a-number.  The two averages that it prints last,
    means over columns of floats, are left out: their last bits depend on the
    order in which pandas adds up a column. *)
Record Summary : Type := mkSummary {
  launched_queries : Z;
  sm_start_time : option Q;
  sm_end_time : option Q;
  total_time : option Q;
  sm_qps : xfloat;
  finished_qps : xfloat;
  average_prefill_speed : xfloat;
  average_generation_speed : xfloat;
  sm_df : DataFrame
}.

(** The first block of [ProcessSummary], [if start_time and end_time: ...
    else: ...]: the count of launched queries, and the frame that the rest
    of the function works on and returns. *)
Definition window_restriction (df : DataFrame)
    (start_time end_time : option number) : Z * DataFrame :=
  if bound_truthy start_time && bound_truthy end_time then
    match start_time, end_time with
    | Some st, Some et =>
        (Z.of_nat (List.length (query_between (number_value st) (number_value et)
                                  r_launch_time df)),
         query_between (number_value st) (number_value et) r_finish_time df)
    | _, _ => (Z.of_nat (List.length df), df)
    end
  else (Z.of_nat (List.length df), df).

(** [ProcessSummary].  [total_requests / total_time] raises when
    [total_time] is a Python number and zero, which it is when both bounds
    were passed as Python numbers; a bound taken from the data is a numpy
    scalar, and a division by it does not raise. *)
Definition ProcessSummary (df : DataFrame) (start_time end_time : option number)
    (pending_queries : Z) : result Summary :=
  let '(launched_queries, df) := window_restriction df start_time end_time in
  let start_time : option number :=
    match start_time with
    | None => option_map NpNum (Qminimum (map r_launch_time df))
    | Some st => Some st
    end in
  let end_time : option number :=
    match end_time with
    | None => option_map NpNum (Qmaximum (map r_finish_time df))
    | Some et => Some et
    end in
  let total_time :=
    match start_time, end_time with
    | Some st, Some et => Some (number_value et - number_value st)%Q
    | _, _ => None
    end in
  let total_requests := launched_queries + pending_queries in
  _ <- match start_time, end_time, total_time with
       | Some (PyNum _), Some (PyNum _), Some d =>
           if Qeq_bool d 0 then Raise ZeroDivisionError else Ok tt
       | _, _, _ => Ok tt
       end ;;
  let total_finished_requests := Z.of_nat (List.length df) in
  let total_prompt_tokens := Zsum (map r_prompt_tokens df) in
  let total_generation_tokens := Zsum (map r_generation_tokens df) in
  Ok (mkSummary launched_queries
        (option_map number_value start_time) (option_map number_value end_time)
        total_time
        (rate total_requests total_time)
        (rate total_finished_requests total_time)
        (rate total_prompt_tokens total_time)
        (rate total_generation_tokens total_time)
        df).





(** ** The transition rule of a session, in the words of the specification *)

Inductive decision : Type :=
| Finish
| Fire
| Backpressure
| NoOp.

(** "round >= numRounds and no request is in flight". *)
Definition rounds_done (s : UserSession) : Prop :=
  uc_num_rounds (user_config s) <= question_id s
  /\ has_unfinished_request s = false.

Inductive transition_rule (s : UserSession) (t : Q) : decision -> Prop :=
| rule_finished :
    rounds_done s ->
    transition_rule s t Finish
| rule_first_request :
    ~ rounds_done s ->
    last_request_time s = None ->
    transition_rule s t Fire
| rule_backpressure last :
    ~ rounds_done s ->
    last_request_time s = Some last ->
    (gap_between_requests (user_config s) < t - last)%Q ->
    has_unfinished_request s = true ->
    transition_rule s t Backpressure
| rule_next_round last :
    ~ rounds_done s ->
    last_request_time s = Some last ->
    (gap_between_requests (user_config s) < t - last)%Q ->
    has_unfinished_request s = false ->
    transition_rule s t Fire
| rule_pacing_window last :
    ~ rounds_done s ->
    last_request_time s = Some last ->
    (t - last <= gap_between_requests (user_config s))%Q ->
    transition_rule s t NoOp.

(** A session on which [_launch_new_request] does not raise: the history is
    ready for a user turn and, in replay mode, the conversation has the two
    turns of the round. *)
Definition fire_ready (s : UserSession) : Prop :=
  (chat_history s = [] \/ last_role_is (chat_history s) "assistant" = true)
  /\ match sharegpt s with
     | None => True
     | Some d =>
         0 <= question_id s
         /\ 2 * question_id s + 2 < Z.of_nat (List.length (conversations d))
     end.

(** What a successful launch leaves behind. *)
Definition launched (s : UserSession) (t : Q) (s' : UserSession)
    (p : pending_request) : Prop :=
  last_request_time s' = Some t
  /\ has_unfinished_request s' = true
  /\ question_id s' = question_id s + 1
  /\ finished s' = finished s
  /\ (exists prompt, chat_history s' = chat_history s ++ [mkMessage "user" prompt])
  /\ pr_messages p = chat_history s'.

(** ** The executor's calls, in the words of the specification *)

(** The stream carries usage counters when some chunk has a usage block. *)
Definition stream_has_usage (chunks : list chunk) : Prop :=
  exists c, In c chunks /\ usage c <> None.

(** Two calls with the same model, prompt, token limit, temperature and
    headers. *)
Definition same_parameters (a b : completion_request) : Prop :=
  req_model a = req_model b
  /\ req_prompt a = req_prompt b
  /\ req_max_tokens a = req_max_tokens b
  /\ req_temperature a = req_temperature b
  /\ req_extra_headers a = req_extra_headers b.

(** The fallback as the specification has it: issued exactly when the
    stream has no usage counters, with the parameters of the streaming call
    and [stream = false]. *)
Definition fallback_as_specified : Prop :=
  forall self api clk messages max_tokens tools extra_headers chunks,
    let sreq := streaming_request self (flatten_messages "" messages)
                  max_tokens extra_headers in
    ep_stream api sreq = Ok chunks ->
    let calls := fst (_async_launch_request self api clk messages max_tokens
                        tools extra_headers) in
    (~ stream_has_usage chunks <->
       exists freq, calls = [sreq; freq])
    /\ (forall freq, calls = [sreq; freq] ->
          same_parameters sreq freq /\ req_stream freq = false).

(** The last chunk asks for the fallback: no usage block, or a usage block
    with a zero count. *)
Definition needs_fallback (c : chunk) : bool :=
  match usage c with
  | None => true
  | Some u => (completion_tokens u =? 0) || (usage_prompt_tokens u =? 0)
  end.

(** A chunk that carries no non-empty text. *)
Definition silent (c : chunk) : Prop :=
  match choices c with
  | [] => True
  | ch :: _ => text ch = None \/ text ch = Some ""
  end.

(** Sample endpoints. *)
Definition empty_stream_endpoint : endpoint :=
  mkEndpoint (fun _ => Ok []) (fun _ => Ok (mkCompletion (Some (mkUsage 7 11)))).

Definition no_usage_endpoint : endpoint :=
  mkEndpoint (fun _ => Ok [mkChunk [mkChoice (Some "ok")] None])
    (fun _ => Ok (mkCompletion (Some (mkUsage 7 11)))).

Definition blank_stream_endpoint : endpoint :=
  mkEndpoint
    (fun _ => Ok [mkChunk [mkChoice (Some "")] None;
                  mkChunk [] (Some (mkUsage 0 11))])
    (fun _ => Raise APIError).

Definition sample_executor : RequestExecutor := mkRequestExecutor "m".

Definition sample_clock : clock := mkClock 100 101 103 104.

(** ** Start-up on an empty pool, in the words of the specification *)

(** Construction of the [AppsManager] aborts on an apps file that holds an
    empty list. *)
Definition empty_pool_aborts_construction : Prop :=
  forall users_per_app, exists e,
    AppsManager_init (Parsed []) users_per_app = Raise e.

(** Sample rows and configurations. *)
Definition sample_row (launch finish : Q) : row :=
  mkRow 11 7 (1 # 2) 2 1 1 launch finish.

Definition sample_frame : DataFrame :=
  [sample_row 1 3; sample_row 4 9; sample_row 6 7].

Definition sample_workload : WorkloadConfig :=
  mkWorkloadConfig 2 3 4 16 3 2 "m" false "Apps.json" 1.

Definition sample_apps_file : apps_file :=
  Parsed [mkAppData (Some "sys-a") (Some "tools-a") (Some ["doc-1"; "doc-2"]);
          mkAppData (Some "sys-b") (Some "tools-b") (Some [])].

(** ** Runs of one session *)

(** Successive scheduler ticks on one session, each with its time and its
    random draw; the effects are collected in order. *)
Fixpoint steps (s : UserSession) (ticks : list (Q * string))
  : result (UserSession * list effect) :=
  match ticks with
  | [] => Ok (s, [])
  | (t, rnd) :: rest =>
      '(s1, e1) <- step s t rnd ;;
      '(s2, e2) <- steps s1 rest ;;
      Ok (s2, e1 ++ e2)
  end.

Definition is_launch (e : effect) : bool :=
  match e with
  | Launch _ => true
  | Warning _ => false
  end.

(** ** Ramp-up *)

(** The session as it was created, before any back-dating. *)
Definition as_created (s : UserSession) : UserSession :=
  UserSession_init (user_config s) (app s) (sharegpt s).


(** A manager on which the creation of a session does not raise. *)
Definition create_ready (m : UserSessionManager) : Prop :=
  apps (apps_manager m) <> []
  /\ users_per_app (apps_manager m) <> 0
  /\ ~ (qps (workload_config m) == 0)%Q
  /\ use_sharegpt m = false.


(** A manager as [__init__] leaves it, outside replay mode, on which the
    creation of a session does not raise, with a gap between the requests of
    a user that is not zero and a gap between users that is not negative. *)
Definition ramp_ready (m : UserSessionManager) : Prop :=
  create_ready m
  /\ ~ (fdiv (of_int (num_users (workload_config m))) (qps (workload_config m))
        == 0)%Q
  /\ (0 <= gap_between_users m)%Q
  /\ ramp_up_time m
     = fmul (of_int (num_users (workload_config m))) (gap_between_users m).

(** The manager of the sample workload. *)
Definition sample_manager : result UserSessionManager :=
  UserSessionManager_init sample_apps_file (Ok []) sample_workload 0 false.

(** One user, 8 rounds, 3 requests per second: the gap between two requests
    of the user, [1 / 3.0], is not a binary fraction. *)
Definition thirds_workload : WorkloadConfig :=
  mkWorkloadConfig 1 3 4 16 8 3 "m" false "Apps.json" 1.


(** A session of that workload, as created. *)
Definition thirds_session : UserSession :=
  UserSession_init (mkUserConfig 1 3 4 16 (fdiv 1 3) 8 false) None None.

(** What the creation of a session leaves unchanged, and what it adds. *)
Definition created (m m1 : UserSessionManager) (s : UserSession) : Prop :=
  workload_config m1 = workload_config m
  /\ gap_between_users m1 = gap_between_users m
  /\ ramp_up_time m1 = ramp_up_time m
  /\ last_user_join m1 = last_user_join m
  /\ need_ramp_up m1 = need_ramp_up m
  /\ start_time m1 = start_time m
  /\ use_sharegpt m1 = use_sharegpt m
  /\ session_summaries m1 = session_summaries m
  /\ mgr_user_id m1 = mgr_user_id m + 1
  /\ sessions m1 = sessions m ++ [s]
  /\ as_created s = s
  /\ user_id (user_config s) = mgr_user_id m + 1
  /\ gap_between_requests (user_config s)
     = fdiv (of_int (num_users (workload_config m))) (qps (workload_config m)).


(** ** Runs of the manager *)

(** What happens to a manager between its creation and the end of a run: a
    tick of the poll loop, or the done-callback of a request of the user
    [uid], run by the event loop with the outcome [x] of the request. *)
Inductive manager_event : Type :=
| Tick (t : Q) (rng : Z -> Z -> string)
| Done (uid : Z) (x : result Response).

Definition deliver (m : UserSessionManager) (uid : Z) (x : result Response)
  : UserSessionManager :=
  set_sessions m
    (map (fun s => if user_id (user_config s) =? uid
                   then on_future_done s x else s)
       (sessions m)).

Fixpoint run (m : UserSessionManager) (events : list manager_event)
  : result UserSessionManager :=
  match events with
  | [] => Ok m
  | Tick t rng :: rest =>
      '(m, _) <- UserSessionManager_step m t rng ;; run m rest
  | Done uid x :: rest => run (deliver m uid x) rest
  end.

Fixpoint tick_times (events : list manager_event) : list Q :=
  match events with
  | [] => []
  | Tick t _ :: rest => t :: tick_times rest
  | Done _ _ :: rest => tick_times rest
  end.

(** The two things a tick after ramp-up does to the population: nothing, or
    the admission of one session, under the two conditions of the rule. *)
Definition admits_at_most_one (m : UserSessionManager) (t : Q)
    (m' : UserSessionManager) : Prop :=
  (mgr_user_id m' = mgr_user_id m /\ last_user_join m' = last_user_join m)
  \/ (mgr_user_id m' = mgr_user_id m + 1
      /\ Z.of_nat (List.length (sessions m)) < num_users (workload_config m)
      /\ (gap_between_users m < t - last_user_join m)%Q
      /\ last_user_join m' = t).

(** A tick keeps the configuration of the manager. *)
Definition same_settings (m m' : UserSessionManager) : Prop :=
  workload_config m' = workload_config m
  /\ gap_between_users m' = gap_between_users m.

(** The state of a run that started with a ramp-up at time [t0], when the
    user counter was [uid1] after it: every admission since is more than one
    gap [g] after the one before, the first of them more than one gap after
    [t0], and none is later than [t0 + T]. *)
Definition paced (uid1 : Z) (t0 T g : Q) (N : Z) (m : UserSessionManager) : Prop :=
  need_ramp_up m = false
  /\ gap_between_users m = g
  /\ num_users (workload_config m) = N
  /\ uid1 <= mgr_user_id m
  /\ ((N <= 0 /\ mgr_user_id m = uid1)
      \/ (t0 + inject_Z (mgr_user_id m - uid1) * g <= last_user_join m
          /\ last_user_join m <= t0 + T)%Q).

(** ** One session under the two threads

    The poll loop runs [step] on the controller thread; the event loop runs
    the coroutines and, when one ends, the done-callback of its future, on
    its own thread.  The two threads share the session: the flag
    [has_unfinished_request] and the history are read and written by both.
    Here [step] and the callback are cut at each access to a shared field,
    and the pieces of the two threads interleave freely. *)

(** Where the controller stands in [step]. *)
Inductive controller : Type :=
| Idle
    (* between two ticks *)
| AtCheck (t : Q) (rnd : string)
    (* past the pacing gap, before the second reading of the flag *)
| AtLaunch (t : Q) (rnd : string)
    (* entering [_launch_new_request] *)
| AtQuery (t : Q) (prompt : string)
    (* entering [on_user_query], before the test of the length *)
| AtAssert (t : Q) (prompt : string)
    (* before the assertion on the last role *)
| AtAppend (t : Q) (prompt : string)
    (* before the append of the user turn *)
| AtSubmit (t : Q)
    (* before [launch_request] *)
| AtSetFlag (t : Q)
    (* request handed over, before the flag is set *)
| Crashed (e : exn).
    (* [step] raised: the poll loop is over *)

(** Where the event loop stands in the done-callback of a future that
    returned [r]. *)
Inductive event_loop : Type :=
| LIdle
    (* no callback running *)
| LLen (r : Response)
    (* [on_system_response], before the assertion on the length *)
| LRole (r : Response)
    (* before the assertion on the last role *)
| LAppend (r : Response)
    (* before the append of the assistant turn *)
| LClear (r : Response)
    (* before the flag is cleared *)
| LRecord (r : Response).
    (* before [_update_result] *)

Record world : Type := mkWorld {
  session : UserSession;
  ctrl : controller;
  loop : event_loop;
  (** requests handed to the event loop whose coroutine has not ended *)
  in_flight : list pending_request
}.

Definition initial_world (s : UserSession) : world := mkWorld s Idle LIdle [].

(** A tick: the controller enters [step], reads the counter and the flag,
    then the time of the last request. *)
Definition tick (w : world) (t : Q) (rnd : string) : option world :=
  let s := session w in
  match ctrl w with
  | Idle =>
      if (uc_num_rounds (user_config s) <=? question_id s)
         && negb (has_unfinished_request s)
      then Some (mkWorld (set_finished s true) Idle (loop w) (in_flight w))
      else
        match last_request_time s with
        | None => Some (mkWorld s (AtLaunch t rnd) (loop w) (in_flight w))
        | Some last =>
            if Qgtb (t - last) (gap_between_requests (user_config s))
            then Some (mkWorld s (AtCheck t rnd) (loop w) (in_flight w))
            else Some w
        end
  | _ => None
  end.

(** The next piece of [step] on the controller thread. *)
Definition controller_step (w : world) : option world :=
  let s := session w in
  let continue s c := Some (mkWorld s c (loop w) (in_flight w)) in
  match ctrl w with
  | Idle => None
  | Crashed _ => None
  | AtCheck t rnd =>
      if has_unfinished_request s then
        if Qgtb (t - last_unfinished_log s) 10
        then continue (set_last_unfinished_log s t) Idle
        else continue s Idle
      else continue s (AtLaunch t rnd)
  | AtLaunch t rnd =>
      match next_prompt s rnd with
      | Raise e => continue s (Crashed e)
      | Ok (s, prompt) => continue s (AtQuery t (with_system_prompt s prompt))
      end
  | AtQuery t prompt =>
      if Z.of_nat (List.length (chat_history s)) =? 0
      then continue s (AtAppend t prompt)
      else continue s (AtAssert t prompt)
  | AtAssert t prompt =>
      if last_role_is (chat_history s) "assistant"
      then continue s (AtAppend t prompt)
      else continue s (Crashed (AssertionError "Expect system response"))
  | AtAppend t prompt =>
      continue (set_chat_history s (chat_history s ++ [mkMessage "user" prompt]))
        (AtSubmit t)
  | AtSubmit t =>
      match round_max_tokens s with
      | Raise e => continue s (Crashed e)
      | Ok max_tokens =>
          Some (mkWorld s (AtSetFlag t) (loop w)
                  (in_flight w ++ [round_request s max_tokens]))
      end
  | AtSetFlag t =>
      continue (set_last_request_time (set_has_unfinished_request s true)
                  (Some t)) Idle
  end.

Definition remove_nth {A : Type} (i : nat) (l : list A) : list A :=
  firstn i l ++ skipn (S i) l.

(** The coroutine of the [i]-th request in flight ends with [x]; the event
    loop, which runs one callback at a time, enters the done-callback:
    [x.result()] raises, and the callback is over, or gives the response. *)
Definition completes (w : world) (i : nat) (x : result Response) : option world :=
  match loop w, nth_error (in_flight w) i with
  | LIdle, Some _ =>
      Some (mkWorld (session w) (ctrl w)
              (match x with
               | Ok r => LLen r
               | Raise _ => LIdle
               end)
              (remove_nth i (in_flight w)))
  | _, _ => None
  end.

(** The next piece of the callback on the event loop; an assertion that
    fails ends the callback, and the future drops the exception. *)
Definition event_loop_step (w : world) : option world :=
  let s := session w in
  let continue s l := Some (mkWorld s (ctrl w) l (in_flight w)) in
  match loop w with
  | LIdle => None
  | LLen r =>
      if 0 <? Z.of_nat (List.length (chat_history s))
      then continue s (LRole r) else continue s LIdle
  | LRole r =>
      if last_role_is (chat_history s) "user"
      then continue s (LAppend r) else continue s LIdle
  | LAppend r =>
      continue
        (set_chat_history s (chat_history s ++ [mkMessage "assistant" (body r)]))
        (LClear r)
  | LClear r => continue (set_has_unfinished_request s false) (LRecord r)
  | LRecord r => continue (_update_result s r) LIdle
  end.

Inductive action : Type :=
| ATick (t : Q) (rnd : string)
| AController
| ACompletes (i : nat) (x : result Response)
| AEventLoop.

(** One action; [None] when the action cannot happen in this state. *)
Definition exec (w : world) (a : action) : option world :=
  match a with
  | ATick t rnd => tick w t rnd
  | AController => controller_step w
  | ACompletes i x => completes w i x
  | AEventLoop => event_loop_step w
  end.

Fixpoint exec_all (w : world) (actions : list action) : option world :=
  match actions with
  | [] => Some w
  | a :: rest =>
      match exec w a with
      | Some w' => exec_all w' rest
      | None => None
      end
  end.

(** Requests whose coroutine runs, and callbacks that will still clear the
    flag. *)
Definition owed (w : world) : nat :=
  (List.length (in_flight w)
   + match loop w with
     | LLen _ | LRole _ | LAppend _ | LClear _ => 1
     | LIdle | LRecord _ => 0
     end)%nat.

(** The invariant of the interleaving. *)
Definition exclusive (w : world) : Prop :=
  let s := session w in
  (owed w <= 1)%nat
  /\ (last_request_time s = None -> has_unfinished_request s = false)
  /\ match ctrl w with
     | Idle | AtCheck _ _ =>
         (has_unfinished_request s = false -> owed w = 0%nat)
         /\ (last_request_time s = None -> owed w = 0%nat)
     | AtLaunch _ _ | AtQuery _ _ | AtAssert _ _ | AtAppend _ _ | AtSubmit _ =>
         owed w = 0%nat /\ has_unfinished_request s = false
     | AtSetFlag _ | Crashed _ => True
     end.

(** The requests among the effects of a tick. *)
Definition launches (effs : list effect) : list pending_request :=
  flat_map (fun e => match e with
                     | Launch p => [p]
                     | Warning _ => []
                     end) effs.

(** The same session when [step] and the done-callback each run as a
    whole: a tick, or the end of the [i]-th request in flight with outcome
    [x].  A tick that raises ends the run. *)
Inductive session_event : Type :=
| STick (t : Q) (rnd : string)
| SDone (i : nat) (x : result Response).

Fixpoint play (s : UserSession) (flight : list pending_request)
    (events : list session_event) : option (UserSession * list pending_request) :=
  match events with
  | [] => Some (s, flight)
  | STick t rnd :: rest =>
      match step s t rnd with
      | Ok (s', effs) => play s' (flight ++ launches effs) rest
      | Raise _ => None
      end
  | SDone i x :: rest =>
      match nth_error flight i with
      | Some _ => play (on_future_done s x) (remove_nth i flight) rest
      | None => None
      end
  end.

(** A sample session, as the manager creates it. *)
Definition sample_user_config : UserConfig := mkUserConfig 1 3 4 16 1 3 false.

Definition sample_app : App := mkApp "sys-a" "tools-a" ["doc-1"; "doc-2"].

Definition sample_session : UserSession :=
  UserSession_init sample_user_config (Some sample_app) None.

Definition sample_rng (uid q : Z) : string := "r".

(** The loss of a round as the specification has it: when a call sent for
    the round raises, whichever of the two calls it is, the done-callback
    leaves the session as the launch left it. *)
Definition call_failed (api : endpoint) (calls : list completion_request) : Prop :=
  exists req,
    In req calls
    /\ ((req_stream req = true /\ exists e, ep_stream api req = Raise e)
        \/ (req_stream req = false /\ exists e, ep_final api req = Raise e)).

Definition failed_call_loses_round_as_specified : Prop :=
  forall s0 t0 rnd0 s p self api clk,
    _launch_new_request s0 t0 rnd0 = Ok (s, p) ->
    call_failed api (fst (run_request self api clk p)) ->
    let s' := on_future_done s (snd (run_request self api clk p)) in
    has_unfinished_request s' = true
    /\ prompt_lengths s' = prompt_lengths s
    /\ chat_history s' = chat_history s.

(** * Further parts of the program *)

(** ** AppsManager, over many users *)

(** The parsed form of an app, as [json.load] gives it back for an app
    written with its three keys. *)
Definition entry_of (a : App) : app_data :=
  mkAppData (Some (systemPrompt a)) (Some (tools a)) (Some (ragDocs a)).

(** The first of the three keys that an entry lacks, in the order in which
    [_load_apps] reads them. *)
Definition first_missing_key (d : app_data) : option string :=
  match ad_systemPrompt d, ad_tools d, ad_ragDocs d with
  | None, _, _ => Some "systemPrompt"
  | Some _, None, _ => Some "tools"
  | Some _, Some _, None => Some "ragDocs"
  | Some _, Some _, Some _ => None
  end.

(** Successive calls of [get_app_for_user] on one manager. *)
Fixpoint get_apps (self : AppsManager) (user_ids : list Z)
  : result (AppsManager * list App) :=
  match user_ids with
  | [] => Ok (self, [])
  | uid :: rest =>
      '(self, a) <- get_app_for_user self uid ;;
      '(self, l) <- get_apps self rest ;;
      Ok (self, a :: l)
  end.

(** The app that the formula of [assign_app_to_user] gives a user. *)
Definition app_of_user (am : AppsManager) (uid : Z) : result App :=
  py_index (apps am)
    ((uid / users_per_app am) mod Z.of_nat (List.length (apps am))).

(** Every cached assignment is the one of the formula. *)
Definition cache_consistent (am : AppsManager) : Prop :=
  forall uid a, dict_get (user_app_map am) uid = Some a ->
                app_of_user am uid = Ok a.

(** ** The books of a session *)

(** What holds of a session [s], with the requests [flight] in flight,
    along a run that started from [s0] with an empty history and no rows:
    the history has two turns per row and one more while a round is open,
    the six columns have one length, the question counter has moved by one
    per round fired and never beyond the number of rounds, and at most the
    open round is in flight. *)
Definition session_books (s0 s : UserSession) (flight : list pending_request)
  : Prop :=
  let rows := List.length (prompt_lengths s) in
  let open := if has_unfinished_request s then 1%nat else 0%nat in
  user_config s = user_config s0
  /\ (last_request_time s = None -> has_unfinished_request s = false)
  /\ (List.length flight <= open)%nat
  /\ List.length (chat_history s) = (2 * rows + open)%nat
  /\ alternates (chat_history s)
  /\ List.length (generation_lengths s) = rows
  /\ List.length (ttfts s) = rows
  /\ List.length (generation_times s) = rows
  /\ List.length (launch_times s) = rows
  /\ List.length (finish_times s) = rows
  /\ question_id s = question_id s0 + Z.of_nat (rows + open)
  /\ question_id s
     <= Z.max (question_id s0) (uc_num_rounds (user_config s0)).

(** A session before its first round: as created, or back-dated. *)
Definition before_first_round (s : UserSession) : Prop :=
  chat_history s = []
  /\ has_unfinished_request s = false
  /\ prompt_lengths s = [] /\ generation_lengths s = [] /\ ttfts s = []
  /\ generation_times s = [] /\ launch_times s = [] /\ finish_times s = [].

(** ** The history under the two threads *)

(** Each thread appends only after its own test of the last turn, and the
    test still holds when the append comes. *)
Definition appends_guarded (w : world) : Prop :=
  let h := chat_history (session w) in
  alternates h
  /\ match ctrl w with
     | AtAppend _ _ => h = [] \/ last_role_is h "assistant" = true
     | _ => True
     end
  /\ match loop w with
     | LAppend _ => last_role_is h "user" = true
     | _ => True
     end.

(** ** The population of the manager *)

(** All the rows the manager can report: the archive, then the rows of the
    active sessions, as [summary] concatenates them. *)
Definition all_rows (m : UserSessionManager) : DataFrame :=
  List.concat (session_summaries m ++ map UserSession_summary (sessions m)).

Definition session_user_id (s : UserSession) : Z := user_id (user_config s).

(** The active sessions have distinct user ids, in the order of creation,
    none beyond the counter of the manager; none of them is finished; none
    is there before ramp-up; and there are at most [num_users] of them. *)
Definition population_ok (m : UserSessionManager) : Prop :=
  StronglySorted Z.lt (map session_user_id (sessions m))
  /\ Forall (fun s => session_user_id s <= mgr_user_id m) (sessions m)
  /\ Forall (fun s => finished s = false) (sessions m)
  /\ (need_ramp_up m = true -> sessions m = [])
  /\ (List.length (sessions m) <= Z.to_nat (num_users (workload_config m)))%nat.

(** The part of [population_ok] that the creation of a session keeps. *)
Definition population_core (m : UserSessionManager) : Prop :=
  StronglySorted Z.lt (map session_user_id (sessions m))
  /\ Forall (fun s => session_user_id s <= mgr_user_id m) (sessions m)
  /\ Forall (fun s => finished s = false) (sessions m).

(** ** What the executor reads from a stream *)

(** The text a chunk adds to the body: that of its first choice, if it has
    one and the text is there. *)
Definition chunk_text (c : chunk) : string :=
  match choices c with
  | [] => ""
  | ch :: _ =>
      match text ch with
      | Some t => t
      | None => ""
      end
  end.

Definition join_texts (chunks : list chunk) : string :=
  fold_right String.append "" (map chunk_text chunks).

Definition has_text (c : chunk) : bool := negb (String.eqb (chunk_text c) "").

(** The token counts that the last chunk of a stream carries. *)
Definition streamed_counts (c : chunk) : Z * Z :=
  match usage c with
  | Some u => (usage_prompt_tokens u, completion_tokens u)
  | None => (0, 0)
  end.

(** ** The base URL of the executor *)

(** [s.endswith(suffix)]. *)
Fixpoint starts_with (pre l : list ascii) : bool :=
  match pre, l with
  | [], _ => true
  | _ :: _, [] => false
  | a :: pre', b :: l' => Ascii.eqb a b && starts_with pre' l'
  end.

Definition endswith (s suffix : string) : bool :=
  starts_with (rev (list_ascii_of_string suffix)) (rev (list_ascii_of_string s)).

(** [s.rstrip(c)] for a single character [c]. *)
Fixpoint drop_leading (c : ascii) (l : list ascii) : list ascii :=
  match l with
  | [] => []
  | a :: l' => if Ascii.eqb a c then drop_leading c l' else l
  end.

Definition rstrip (s : string) (c : ascii) : string :=
  string_of_list_ascii (rev (drop_leading c (rev (list_ascii_of_string s)))).

Definition slash : ascii := ascii_of_nat 47.

(** The first lines of [RequestExecutor.__init__]: the base URL handed to
    the client. *)
Definition normalize_base_url (base_url : string) : string :=
  if negb (endswith base_url "/v1")
  then (rstrip base_url slash ++ "/v1")%string
  else base_url.

(** [RequestExecutor.__init__]: the base URL of the client, and the
    executor. *)
Definition RequestExecutor_init (base_url model : string)
  : string * RequestExecutor :=
  (normalize_base_url base_url, mkRequestExecutor model).

(** A string of [k] slashes. *)
Definition slashes (k : nat) : string := string_of_list_ascii (repeat slash k).

(** ** generate_apps_json.py

    The generator of random numbers is a sequence of draws [g], read from a
    position that each draw moves by one; the draw at a position picks the
    character of that index, modulo the size of the alphabet. *)

(** [string.ascii_letters + string.digits]. *)
Definition alphabet : list ascii :=
  list_ascii_of_string
    "abcdefghijklmnopqrstuvwxyzABCDEFGHIJKLMNOPQRSTUVWXYZ0123456789".

(** [random.choices(alphabet, k=k)]. *)
Fixpoint choices_of (g : nat -> nat) (pos k : nat) : list ascii :=
  match k with
  | O => []
  | S k' =>
      nth (g pos mod List.length alphabet) alphabet "a"%char
      :: choices_of g (S pos) k'
  end.

(** [random_string(length)], with the position after it. *)
Definition random_string (g : nat -> nat) (pos : nat) (length : Z)
  : string * nat :=
  (string_of_list_ascii (choices_of g pos (Z.to_nat length)),
   (pos + Z.to_nat length)%nat).

(** [[random_string(length) for _ in range(count)]]. *)
Fixpoint random_strings (g : nat -> nat) (pos : nat) (length : Z) (count : nat)
  : list string * nat :=
  match count with
  | O => ([], pos)
  | S count' =>
      let '(s, pos) := random_string g pos length in
      let '(l, pos) := random_strings g pos length count' in
      (s :: l, pos)
  end.

Definition generate_random_app (g : nat -> nat) (pos : nat)
    (sys_prompt_len tools_len rag_doc_len rag_doc_count : Z) : App * nat :=
  let '(sp, pos) := random_string g pos sys_prompt_len in
  let '(tl, pos) := random_string g pos tools_len in
  let '(docs, pos) := random_strings g pos rag_doc_len (Z.to_nat rag_doc_count) in
  (mkApp sp tl docs, pos).

(** [[generate_random_app(...) for _ in range(num_apps)]]. *)
Fixpoint random_apps (g : nat -> nat) (pos : nat)
    (sys_prompt_len tools_len rag_doc_len rag_doc_count : Z) (num_apps : nat)
  : list App * nat :=
  match num_apps with
  | O => ([], pos)
  | S n =>
      let '(a, pos) := generate_random_app g pos sys_prompt_len tools_len
                         rag_doc_len rag_doc_count in
      let '(l, pos) := random_apps g pos sys_prompt_len tools_len rag_doc_len
                         rag_doc_count n in
      (a :: l, pos)
  end.

(** [generate_apps_json]: what the output file holds once written, as
    [json.load] reads it back, and the position of the generator. *)
Definition generate_apps_json (g : nat -> nat) (pos : nat)
    (num_apps sys_prompt_len tools_len rag_doc_len rag_doc_count : Z)
  : apps_file * nat :=
  let '(l, pos) := random_apps g pos sys_prompt_len tools_len rag_doc_len
                     rag_doc_count (Z.to_nat num_apps) in
  (Parsed (map entry_of l), pos).

(** An app of the sizes asked for, made of letters and digits. *)
Definition alphanumeric (s : string) : Prop :=
  Forall (fun c => In c alphabet) (list_ascii_of_string s).

Definition app_of_sizes (sys_prompt_len tools_len rag_doc_len rag_doc_count : Z)
    (a : App) : Prop :=
  String.length (systemPrompt a) = Z.to_nat sys_prompt_len
  /\ String.length (tools a) = Z.to_nat tools_len
  /\ List.length (ragDocs a) = Z.to_nat rag_doc_count
  /\ Forall (fun d => String.length d = Z.to_nat rag_doc_len) (ragDocs a)
  /\ alphanumeric (systemPrompt a) /\ alphanumeric (tools a)
  /\ Forall alphanumeric (ragDocs a).

(** ** The text of a round *)

(** The question of number [q], with its random string. *)
Definition question_text (q : Z) (random_string : string) : string :=
  (("Here's question #" ++ py_str q ++ ": can you tell me ")
   ++ "a new long story with a happy ending? "
   ++ ("Here's a random string: " ++ random_string))%string.

(** ** More samples *)

Definition sample_app_b : App := mkApp "sys-b" "tools-b" [].

Definition sample_pool : AppsManager :=
  mkAppsManager [sample_app; sample_app_b] [] 2.

Definition sample_response : Response := mkResponse "fine" 1 2 11 7 100 103.

Definition sample_conversation : sharegpt_entry :=
  mkShareGPT 8
    [mkTurn "q0" 5; mkTurn "a0" 40; mkTurn "q1" 6; mkTurn "a1" 9;
     mkTurn "q2" 7; mkTurn "a2" 12; mkTurn "q3" 4; mkTurn "a3" 3].

Definition sample_replay_session : UserSession :=
  UserSession_init sample_user_config (Some sample_app) (Some sample_conversation).

Definition sample_replay_manager (data : list sharegpt_entry) : UserSessionManager :=
  mkManager sample_workload [] sample_pool 1 2 0 0 [] None true true data.


(** A launch, its completion, and the next launch, on the sample session. *)
Definition sample_events : list session_event :=
  [STick 100 "r"; SDone 0 (Ok sample_response); STick 102 "r"].
(** * Binary64 rounding *)

Lemma pow2_pos e : (0 < 2 ^ e)%Q.
Proof. apply Qpower_0_lt. reflexivity. Qed.

Lemma pow2_add a b : (2 ^ (a + b) == 2 ^ a * 2 ^ b)%Q.
Proof. apply Qpower_plus. discriminate. Qed.

Lemma pow2_le a b : a <= b -> (2 ^ a <= 2 ^ b)%Q.
Proof. intros H. apply Qpower_le_compat_l; [exact H | discriminate]. Qed.

Lemma pow2_lt a b : a < b -> (2 ^ a < 2 ^ b)%Q.
Proof. intros H. apply Qpower_lt_compat_l; [exact H | reflexivity]. Qed.

Lemma pow2_Z e : 0 <= e -> (2 ^ e == inject_Z (2 ^ e))%Q.
Proof. intros H. symmetry. apply (Zpower_Qpower 2 e H). Qed.

Lemma pow2_le_inv a b : (2 ^ a < 2 ^ (b + 1))%Q -> a <= b.
Proof.
  intros H. destruct (Z_le_gt_dec a b) as [L|G]; [exact L|].
  exfalso. assert (H' : (2 ^ (b + 1) <= 2 ^ a)%Q) by (apply pow2_le; lia).
  apply (Qlt_not_le _ _ H H').
Qed.

(** ** Rounding to an integer *)

Lemma round_half_even_cases q :
  round_half_even q = Qfloor q \/ round_half_even q = Qfloor q + 1.
Proof.
  unfold round_half_even. destruct (_ ?= _)%Q; auto.
  destruct (Z.even _); auto.
Qed.

Lemma round_half_even_Z n : round_half_even (inject_Z n) = n.
Proof.
  unfold round_half_even. rewrite Qfloor_Z.
  destruct (Qcompare_spec (inject_Z n - inject_Z n) (1 # 2)) as [H|H|H];
    [exfalso; lra | reflexivity | exfalso; lra].
Qed.

Lemma round_half_even_comp x y : (x == y)%Q -> round_half_even x = round_half_even y.
Proof.
  intros H. unfold round_half_even. rewrite (Qfloor_comp _ _ H).
  assert (E : (x - inject_Z (Qfloor y) == y - inject_Z (Qfloor y))%Q)
    by (rewrite H; reflexivity).
  rewrite (Qcompare_comp _ _ E _ _ (Qeq_refl (1 # 2))). reflexivity.
Qed.

Lemma round_half_even_mono x y :
  (x <= y)%Q -> round_half_even x <= round_half_even y.
Proof.
  intros H. pose proof (Qfloor_resp_le _ _ H) as Hf.
  destruct (Z.eq_dec (Qfloor x) (Qfloor y)) as [E|N].
  - unfold round_half_even. rewrite E.
    destruct (Qcompare_spec (x - inject_Z (Qfloor y)) (1 # 2)) as [H1|H1|H1];
      destruct (Qcompare_spec (y - inject_Z (Qfloor y)) (1 # 2)) as [H2|H2|H2];
      try destruct (Z.even (Qfloor y)); try lia; exfalso; lra.
  - destruct (round_half_even_cases x) as [-> | ->];
      destruct (round_half_even_cases y) as [-> | ->]; lia.
Qed.

(** ** The binary logarithm *)

Lemma Qmake_as_div n d : (n # d == inject_Z n / inject_Z (Zpos d))%Q.
Proof. apply Qmake_Qdiv. Qed.

Lemma ilog2_spec q : (0 < q)%Q -> (2 ^ ilog2 q <= q)%Q /\ (q < 2 ^ (ilog2 q + 1))%Q.
Proof.
  intros Hq. destruct q as [n d]. unfold ilog2. cbn [Qnum Qden].
  assert (Hn : 0 < n) by (unfold Qlt in Hq; simpl in Hq; lia).
  set (a := Z.log2 n). set (b := Z.log2 (Zpos d)).
  destruct (Z.log2_spec n Hn) as [Ha1 Ha2]. fold a in Ha1, Ha2.
  destruct (Z.log2_spec (Zpos d) eq_refl) as [Hb1 Hb2]. fold b in Hb1, Hb2.
  assert (Ha0 : 0 <= a) by apply Z.log2_nonneg.
  assert (Hb0 : 0 <= b) by apply Z.log2_nonneg.
  assert (Pa : 0 < 2 ^ a) by (apply Z.pow_pos_nonneg; lia).
  assert (Pb : 0 < 2 ^ b) by (apply Z.pow_pos_nonneg; lia).
  (* 2 ^ (a - b - 1) < q < 2 ^ (a - b + 1) *)
  assert (Hup : (n # d < 2 ^ (a - b + 1))%Q).
  { apply (Qmult_lt_r _ _ (2 ^ b)%Q (pow2_pos b)).
    rewrite <- pow2_add. replace (a - b + 1 + b) with (a + 1) by lia.
    rewrite (pow2_Z b Hb0), (pow2_Z (a + 1)) by lia.
    unfold Qlt, Qmult. simpl. nia. }
  assert (Hlow : (2 ^ (a - b - 1) < n # d)%Q).
  { apply (Qmult_lt_r _ _ (2 ^ (b + 1))%Q (pow2_pos _)).
    rewrite <- pow2_add. replace (a - b - 1 + (b + 1)) with a by lia.
    rewrite (pow2_Z (b + 1)), (pow2_Z a) by lia.
    unfold Qlt, Qmult. simpl. nia. }
  destruct (Qle_bool (2 ^ (a - b)) (n # d)) eqn:E.
  - apply Qle_bool_iff in E. split; [exact E | exact Hup].
  - split; [apply Qlt_le_weak; exact Hlow|].
    replace (a - b - 1 + 1) with (a - b) by lia.
    apply Qnot_le_lt. intros H. apply Qle_bool_iff in H. congruence.
Qed.

Lemma ilog2_unique q a :
  (2 ^ a <= q)%Q -> (q < 2 ^ (a + 1))%Q -> ilog2 q = a.
Proof.
  intros H1 H2.
  assert (Hq : (0 < q)%Q) by (eapply Qlt_le_trans; [apply (pow2_pos a) | exact H1]).
  destruct (ilog2_spec q Hq) as [S1 S2].
  assert (L1 : ilog2 q <= a).
  { apply pow2_le_inv. eapply Qle_lt_trans; eauto. }
  assert (L2 : a <= ilog2 q).
  { apply pow2_le_inv. eapply Qle_lt_trans; eauto. }
  lia.
Qed.

Lemma ilog2_mono x y : (0 < x)%Q -> (x <= y)%Q -> ilog2 x <= ilog2 y.
Proof.
  intros Hx H.
  assert (Hy : (0 < y)%Q) by (eapply Qlt_le_trans; eauto).
  destruct (ilog2_spec x Hx) as [S1 _]. destruct (ilog2_spec y Hy) as [_ S2].
  apply pow2_le_inv. eapply Qle_lt_trans; [exact S1|].
  eapply Qle_lt_trans; eauto.
Qed.

Lemma ilog2_comp x y : (0 < x)%Q -> (x == y)%Q -> ilog2 x = ilog2 y.
Proof.
  intros Hx E. destruct (ilog2_spec x Hx) as [S1 S2].
  symmetry. apply ilog2_unique; rewrite <- E; assumption.
Qed.

(** ** Rounding of a positive number *)

Lemma fl_pos_eq q :
  fl_pos q = (inject_Z (round_half_even (q / 2 ^ fexp q)) * 2 ^ fexp q)%Q.
Proof. reflexivity. Qed.

Lemma Qdiv_pow2_le x y e : (x <= y)%Q -> (x / 2 ^ e <= y / 2 ^ e)%Q.
Proof.
  intros H. unfold Qdiv. apply Qmult_le_compat_r; [exact H|].
  apply Qlt_le_weak, Qinv_lt_0_compat, pow2_pos.
Qed.

Lemma Qdiv_pow2 k e : (inject_Z k * 2 ^ e / 2 ^ e == inject_Z k)%Q.
Proof. field. apply Qpower_not_0. discriminate. Qed.

Lemma pow2_div a b : (2 ^ a / 2 ^ b == 2 ^ (a - b))%Q.
Proof.
  replace a with ((a - b) + b) at 1 by lia. rewrite pow2_add.
  field. apply Qpower_not_0. discriminate.
Qed.

Lemma scaled_le_53 q : (0 < q)%Q -> round_half_even (q / 2 ^ fexp q) <= 2 ^ 53.
Proof.
  intros Hq. destruct (ilog2_spec q Hq) as [_ S2].
  rewrite <- (round_half_even_Z (2 ^ 53)). apply round_half_even_mono.
  rewrite <- (pow2_Z 53) by lia.
  setoid_replace (2 ^ 53)%Q with (2 ^ (fexp q + 53) / 2 ^ fexp q)%Q
    by (rewrite pow2_div; replace (fexp q + 53 - fexp q) with 53 by lia;
        reflexivity).
  apply Qdiv_pow2_le. apply Qlt_le_weak. eapply Qlt_le_trans; [exact S2|].
  apply pow2_le. unfold fexp. lia.
Qed.

Lemma scaled_ge_52 q :
  (0 < q)%Q -> emin < fexp q -> 2 ^ 52 <= round_half_even (q / 2 ^ fexp q).
Proof.
  intros Hq He. destruct (ilog2_spec q Hq) as [S1 _].
  rewrite <- (round_half_even_Z (2 ^ 52)). apply round_half_even_mono.
  rewrite <- (pow2_Z 52) by lia.
  setoid_replace (2 ^ 52)%Q with (2 ^ (fexp q + 52) / 2 ^ fexp q)%Q
    by (rewrite pow2_div; replace (fexp q + 52 - fexp q) with 52 by lia;
        reflexivity).
  apply Qdiv_pow2_le. eapply Qle_trans; [|exact S1].
  apply pow2_le. unfold fexp in *. lia.
Qed.

Lemma scaled_nonneg q : (0 < q)%Q -> 0 <= round_half_even (q / 2 ^ fexp q).
Proof.
  intros Hq. rewrite <- (round_half_even_Z 0). apply round_half_even_mono.
  apply Qlt_le_weak. apply Qlt_shift_div_l; [apply pow2_pos|].
  rewrite Qmult_0_l. exact Hq.
Qed.

Lemma fl_pos_nonneg q : (0 < q)%Q -> (0 <= fl_pos q)%Q.
Proof.
  intros Hq. rewrite fl_pos_eq. apply Qmult_le_0_compat.
  - change 0%Q with (inject_Z 0). rewrite <- Zle_Qle. apply scaled_nonneg, Hq.
  - apply Qlt_le_weak, pow2_pos.
Qed.

Lemma fexp_mono x y : (0 < x)%Q -> (x <= y)%Q -> fexp x <= fexp y.
Proof. intros Hx H. pose proof (ilog2_mono x y Hx H). unfold fexp. lia. Qed.

Lemma fl_pos_mono x y : (0 < x)%Q -> (x <= y)%Q -> (fl_pos x <= fl_pos y)%Q.
Proof.
  intros Hx H.
  assert (Hy : (0 < y)%Q) by (eapply Qlt_le_trans; eauto).
  pose proof (fexp_mono x y Hx H) as He.
  rewrite !fl_pos_eq.
  destruct (Z.eq_dec (fexp x) (fexp y)) as [E|N].
  - rewrite E. apply Qmult_le_compat_r; [|apply Qlt_le_weak, pow2_pos].
    rewrite <- Zle_Qle. apply round_half_even_mono. apply Qdiv_pow2_le, H.
  - assert (He' : fexp x + 1 <= fexp y) by lia.
    apply Qle_trans with (2 ^ (fexp x + 53))%Q.
    + rewrite Z.add_comm, pow2_add.
      apply Qmult_le_compat_r; [|apply Qlt_le_weak, pow2_pos].
      rewrite (pow2_Z 53) by lia. rewrite <- Zle_Qle. apply scaled_le_53, Hx.
    + apply Qle_trans with (2 ^ (fexp y + 52))%Q; [apply pow2_le; lia|].
      rewrite Z.add_comm, pow2_add.
      apply Qmult_le_compat_r; [|apply Qlt_le_weak, pow2_pos].
      rewrite (pow2_Z 52) by lia. rewrite <- Zle_Qle. apply scaled_ge_52; [exact Hy|].
      unfold fexp in *. lia.
Qed.

Lemma fl_pos_comp x y : (0 < x)%Q -> (x == y)%Q -> (fl_pos x == fl_pos y)%Q.
Proof.
  intros Hx E. rewrite !fl_pos_eq.
  assert (Ee : fexp x = fexp y) by (unfold fexp; now rewrite (ilog2_comp x y Hx E)).
  rewrite Ee. rewrite (round_half_even_comp (x / 2 ^ fexp y) (y / 2 ^ fexp y));
    [reflexivity|]. rewrite E. reflexivity.
Qed.

(** A number [k * 2 ^ j] with [k] of at most 53 bits, and [j] no less than
    the least exponent, is a float: rounding keeps it. *)
Lemma ilog2_scaled k j : 0 < k -> ilog2 (inject_Z k * 2 ^ j) = Z.log2 k + j.
Proof.
  intros Hk. destruct (Z.log2_spec k Hk) as [L1 L2].
  pose proof (Z.log2_nonneg k) as L0.
  apply ilog2_unique.
  - rewrite pow2_add. apply Qmult_le_compat_r; [|apply Qlt_le_weak, pow2_pos].
    rewrite pow2_Z by lia. rewrite <- Zle_Qle. exact L1.
  - replace (Z.log2 k + j + 1) with (Z.log2 k + 1 + j) by lia.
    rewrite pow2_add. apply Qmult_lt_compat_r; [apply pow2_pos|].
    rewrite pow2_Z by lia. rewrite <- Zlt_Qlt. lia.
Qed.

Lemma fl_pos_representable k j :
  0 < k <= 2 ^ 53 -> emin <= j ->
  (fl_pos (inject_Z k * 2 ^ j) == inject_Z k * 2 ^ j)%Q.
Proof.
  intros [Hk1 Hk2] Hj. rewrite fl_pos_eq. unfold fexp.
  rewrite (ilog2_scaled k j Hk1).
  pose proof (Z.log2_nonneg k) as L0.
  assert (L53 : Z.log2 k <= 53).
  { rewrite <- (Z.log2_pow2 53) by lia. apply Z.log2_le_mono. exact Hk2. }
  set (e := Z.max (Z.log2 k + j - 52) emin).
  destruct (Z_le_gt_dec e j) as [Le|Gt].
  - (* the scaled number is the integer [k * 2 ^ (j - e)] *)
    assert (E : (inject_Z k * 2 ^ j / 2 ^ e == inject_Z (k * 2 ^ (j - e)))%Q).
    { rewrite inject_Z_mult, <- (pow2_Z (j - e)) by lia.
      rewrite <- pow2_div. field. apply Qpower_not_0. discriminate. }
    rewrite (round_half_even_comp _ _ E), round_half_even_Z.
    rewrite inject_Z_mult, <- (pow2_Z (j - e)) by lia.
    rewrite <- Qmult_assoc, <- pow2_add. replace (j - e + e) with j by lia.
    reflexivity.
  - (* [k] is [2 ^ 53] *)
    assert (L : Z.log2 k = 53) by (unfold e in Gt; lia).
    assert (Ek : k = 2 ^ 53).
    { destruct (Z.log2_spec k Hk1) as [L1 _]. rewrite L in L1. lia. }
    assert (Ee : e = j + 1) by (unfold e in *; lia).
    rewrite Ee, Ek.
    assert (E : (inject_Z (2 ^ 53) * 2 ^ j / 2 ^ (j + 1) == inject_Z (2 ^ 52))%Q).
    { rewrite <- !pow2_Z by lia. rewrite <- pow2_add, pow2_div.
      replace (53 + j - (j + 1)) with 52 by lia. reflexivity. }
    rewrite (round_half_even_comp _ _ E), round_half_even_Z.
    rewrite <- !pow2_Z by lia. rewrite <- !pow2_add.
    replace (52 + (j + 1)) with (53 + j) by lia. reflexivity.
Qed.

(** ** Rounding *)

Lemma fl_of_pos q : (0 < q)%Q -> fl q = Qred (fl_pos q).
Proof.
  intros H. assert (E : (q ?= 0)%Q = Gt) by (apply Qgt_alt; exact H).
  unfold fl. now rewrite E.
Qed.

Lemma fl_of_neg q : (q < 0)%Q -> fl q = Qred (- fl_pos (- q)).
Proof.
  intros H. assert (E : (q ?= 0)%Q = Lt) by (apply Qlt_alt; exact H).
  unfold fl. now rewrite E.
Qed.

Lemma fl_of_zero q : (q == 0)%Q -> fl q = 0%Q.
Proof.
  intros H. assert (E : (q ?= 0)%Q = Eq) by (apply Qeq_alt; exact H).
  unfold fl. now rewrite E.
Qed.

Lemma fl_0 : fl 0 = 0%Q.
Proof. reflexivity. Qed.

Lemma fl_comp x y : (x == y)%Q -> fl x = fl y.
Proof.
  intros E. destruct (Qcompare_spec x 0) as [H|H|H].
  - rewrite (fl_of_zero x H), (fl_of_zero y); [reflexivity|]. now rewrite <- E.
  - rewrite (fl_of_neg x H), (fl_of_neg y) by (now rewrite <- E).
    apply Qred_complete. apply Qopp_comp. apply fl_pos_comp; [lra|].
    now rewrite E.
  - rewrite (fl_of_pos x H), (fl_of_pos y) by (now rewrite <- E).
    apply Qred_complete. apply fl_pos_comp; assumption.
Qed.

Lemma fl_opp x : fl (- x) = (- fl x)%Q.
Proof.
  destruct (Qcompare_spec x 0) as [H|H|H].
  - rewrite (fl_of_zero x H), (fl_of_zero (- x)); [reflexivity|]. lra.
  - rewrite (fl_of_neg x H), (fl_of_pos (- x)) by lra.
    rewrite Qred_opp. destruct (Qred (fl_pos (- x))) as [n d].
    unfold Qopp. cbn [Qnum Qden]. now rewrite Z.opp_involutive.
  - rewrite (fl_of_pos x H), (fl_of_neg (- x)) by lra.
    rewrite Qred_opp. f_equal. apply Qred_complete.
    apply fl_pos_comp; lra.
Qed.

Lemma fl_nonneg x : (0 <= x)%Q -> (0 <= fl x)%Q.
Proof.
  intros H. destruct (Qcompare_spec x 0) as [E|E|E].
  - rewrite (fl_of_zero x E). lra.
  - lra.
  - rewrite (fl_of_pos x E), Qred_correct. apply fl_pos_nonneg, E.
Qed.

Lemma fl_nonpos x : (x <= 0)%Q -> (fl x <= 0)%Q.
Proof.
  intros H. assert (H' : (0 <= fl (- x))%Q) by (apply fl_nonneg; lra).
  rewrite fl_opp in H'. lra.
Qed.

Lemma fl_mono x y : (x <= y)%Q -> (fl x <= fl y)%Q.
Proof.
  intros H. destruct (Qlt_le_dec 0 x) as [Hx|Hx].
  - rewrite (fl_of_pos x Hx), (fl_of_pos y) by lra.
    rewrite !Qred_correct. apply fl_pos_mono; assumption.
  - destruct (Qlt_le_dec y 0) as [Hy|Hy].
    + assert (Hx' : (x < 0)%Q) by lra.
      rewrite (fl_of_neg x Hx'), (fl_of_neg y Hy), !Qred_correct.
      apply Qopp_le_compat. apply fl_pos_mono; lra.
    + apply Qle_trans with 0%Q; [apply fl_nonpos, Hx | apply fl_nonneg, Hy].
Qed.

Lemma fl_representable k j :
  Z.abs k <= 2 ^ 53 -> emin <= j ->
  (fl (inject_Z k * 2 ^ j) == inject_Z k * 2 ^ j)%Q.
Proof.
  intros Hk Hj. pose proof (pow2_pos j) as Hp.
  destruct (Z.lt_trichotomy k 0) as [N | [-> | P]].
  - assert (Hn : (inject_Z k * 2 ^ j < 0)%Q).
    { setoid_replace (inject_Z k * 2 ^ j)%Q with (- (inject_Z (- k) * 2 ^ j))%Q
        by (rewrite inject_Z_opp; ring).
      assert (0 < inject_Z (- k) * 2 ^ j)%Q; [|lra].
      apply Qmult_lt_0_compat; [|exact Hp].
      change 0%Q with (inject_Z 0). rewrite <- Zlt_Qlt. lia. }
    rewrite (fl_of_neg _ Hn), Qred_correct.
    rewrite (fl_pos_comp (- (inject_Z k * 2 ^ j)) (inject_Z (- k) * 2 ^ j)).
    + rewrite fl_pos_representable by lia. rewrite inject_Z_opp. ring.
    + lra.
    + rewrite inject_Z_opp. ring.
  - rewrite (fl_of_zero (inject_Z 0 * 2 ^ j)); ring.
  - assert (Hpos : (0 < inject_Z k * 2 ^ j)%Q).
    { apply Qmult_lt_0_compat; [|exact Hp].
      change 0%Q with (inject_Z 0). rewrite <- Zlt_Qlt. lia. }
    rewrite (fl_of_pos _ Hpos), Qred_correct.
    apply fl_pos_representable; lia.
Qed.

(** Every float has this form. *)
Lemma fl_format q :
  exists k j, Z.abs k <= 2 ^ 53 /\ emin <= j /\ (fl q == inject_Z k * 2 ^ j)%Q.
Proof.
  assert (Hj : forall x, emin <= fexp x) by (intros x; unfold fexp; lia).
  destruct (Qcompare_spec q 0) as [H|H|H].
  - exists 0, 0. rewrite (fl_of_zero q H).
    split; [vm_compute; discriminate|]. split; [unfold emin; lia|]. reflexivity.
  - assert (Hq : (0 < - q)%Q) by lra.
    exists (- round_half_even (- q / 2 ^ fexp (- q))), (fexp (- q)).
    pose proof (scaled_le_53 _ Hq). pose proof (scaled_nonneg _ Hq).
    split; [lia|]. split; [apply Hj|].
    rewrite (fl_of_neg q H), Qred_correct, fl_pos_eq, inject_Z_opp. ring.
  - exists (round_half_even (q / 2 ^ fexp q)), (fexp q).
    pose proof (scaled_le_53 _ H). pose proof (scaled_nonneg _ H).
    split; [lia|]. split; [apply Hj|].
    rewrite (fl_of_pos q H), Qred_correct, fl_pos_eq. reflexivity.
Qed.

(** Rounding twice is rounding once. *)
Lemma fl_idem q : fl (fl q) = fl q.
Proof.
  destruct (fl_format q) as (k & j & Hk & Hj & E).
  assert (H : (fl (fl q) == fl q)%Q).
  { rewrite (fl_comp _ _ E), E. apply fl_representable; assumption. }
  apply Qred_eq_iff in H.
  assert (R : forall x, Qred (fl x) = fl x).
  { intros x. unfold fl. destruct (x ?= 0)%Q; [reflexivity | |];
      apply Qred_complete, Qred_correct. }
  now rewrite !R in H.
Qed.

Lemma fl_Z n : Z.abs n <= 2 ^ 53 -> (fl (inject_Z n) == inject_Z n)%Q.
Proof.
  intros H. pose proof (fl_representable n 0 H) as E.
  assert (E0 : (inject_Z n * 2 ^ 0 == inject_Z n)%Q) by (simpl; ring).
  rewrite <- (fl_comp _ _ E0). rewrite E by (unfold emin; lia). exact E0.
Qed.

(** ** The operations *)

Lemma of_int_mono a b : a <= b -> (of_int a <= of_int b)%Q.
Proof. intros H. apply fl_mono. now rewrite <- Zle_Qle. Qed.

Lemma of_int_small n : Z.abs n <= 2 ^ 53 -> (of_int n == inject_Z n)%Q.
Proof. apply fl_Z. Qed.

Lemma of_int_nonneg n : 0 <= n -> (0 <= of_int n)%Q.
Proof.
  intros H. apply fl_nonneg. change 0%Q with (inject_Z 0). now rewrite <- Zle_Qle.
Qed.

Lemma of_int_0_iff n : (of_int n == 0)%Q <-> n = 0.
Proof.
  split; [|intros ->; reflexivity].
  intros H. destruct (Z.lt_trichotomy n 0) as [N | [E | P]]; [|exact E|]; exfalso.
  - pose proof (of_int_mono n (-1) ltac:(lia)) as L.
    rewrite (of_int_small (-1)) in L by (vm_compute; discriminate).
    rewrite H in L. revert L. apply Qlt_not_le. reflexivity.
  - pose proof (of_int_mono 1 n ltac:(lia)) as L.
    rewrite (of_int_small 1) in L by (vm_compute; discriminate).
    rewrite H in L. revert L. apply Qlt_not_le. reflexivity.
Qed.


(** * Properties *)

(** ** Basic facts *)

Lemma bind_Ok_inv {A B} (m : result A) (k : A -> result B) (b : B) :
  bind m k = Ok b -> exists a, m = Ok a /\ k a = Ok b.
Proof. destruct m as [a|e]; simpl; intros H; [eauto | discriminate]. Qed.

Lemma Qgtb_true x y : Qgtb x y = true <-> (y < x)%Q.
Proof.
  unfold Qgtb. rewrite negb_true_iff. split.
  - intros H. apply Qnot_le_lt. intros Hle.
    apply Qle_bool_iff in Hle. congruence.
  - intros H. destruct (Qle_bool x y) eqn:E; [|reflexivity].
    apply Qle_bool_iff in E. exfalso. apply (Qlt_not_le _ _ H E).
Qed.

Lemma Qgtb_false x y : Qgtb x y = false <-> (x <= y)%Q.
Proof.
  unfold Qgtb. rewrite negb_false_iff. apply Qle_bool_iff.
Qed.


Lemma py_index_last {A} (l : list A) (a : A) : py_index (l ++ [a]) (-1) = Ok a.
Proof.
  unfold py_index. rewrite length_app. simpl List.length.
  replace (-1 <? 0) with true by reflexivity.
  replace (-1 + Z.of_nat (List.length l + 1)) with (Z.of_nat (List.length l)) by lia.
  destruct (Z.of_nat (List.length l) <? 0) eqn:E1; [apply Z.ltb_lt in E1; lia|].
  destruct (Z.of_nat (List.length l + 1) <=? Z.of_nat (List.length l)) eqn:E2;
    [apply Z.leb_le in E2; lia|].
  simpl. rewrite Nat2Z.id, nth_error_app2, Nat.sub_diag by lia. reflexivity.
Qed.

(** The Python primitives at a few values. *)
Example py_str_values : py_str 12 = "12" /\ py_str 0 = "0" /\ py_str (-3) = "-3".
Proof. repeat split; reflexivity. Qed.

Example py_index_values :
  py_index [10; 20; 30] 0 = Ok 10 /\ py_index [10; 20; 30] (-1) = Ok 30
  /\ py_index [10; 20; 30] 3 = Raise IndexError
  /\ py_index [10; 20; 30] (-4) = Raise IndexError.
Proof. repeat split; reflexivity. Qed.

Example py_int_values :
  py_int (7 # 2) = 3 /\ py_int (- (7 # 2)) = -3 /\ py_int 0 = 0.
Proof. repeat split; reflexivity. Qed.

Example flatten_messages_value :
  flatten_messages "" [mkMessage "user" "hi"; mkMessage "assistant" "yo"]
  = ("user: hi" ++ nl ++ "assistant: yo" ++ nl)%string.
Proof. reflexivity. Qed.

(** ** ChatHistory *)

Lemma last_role_is_snoc h m r :
  last_role_is (h ++ [m]) r = String.eqb (role m) r.
Proof. unfold last_role_is. rewrite py_index_last. reflexivity. Qed.

Lemma snoc_cases {A} (l : list A) : l = [] \/ exists l' a, l = l' ++ [a].
Proof.
  destruct l as [|x l] using rev_ind; [left; reflexivity | right; eauto].
Qed.

Lemma on_user_query_alternates h q h' :
  alternates h -> on_user_query h q = Ok h' -> alternates h'.
Proof.
  intros Halt. unfold on_user_query.
  destruct (snoc_cases h) as [-> | (l & m & ->)].
  - simpl. intros [= <-]. constructor.
  - rewrite length_app. simpl List.length.
    destruct (Z.of_nat (List.length l + 1) =? 0) eqn:E; [apply Z.eqb_eq in E; lia|].
    rewrite last_role_is_snoc.
    destruct (String.eqb (role m) "assistant") eqn:Er; simpl; [|discriminate].
    intros [= <-]. apply String.eqb_eq in Er.
    destruct m as [ro co]. simpl in Er. subst ro. constructor. exact Halt.
Qed.

Lemma on_system_response_alternates h r h' :
  alternates h -> on_system_response h r = Ok h' -> alternates h'.
Proof.
  intros Halt. unfold on_system_response.
  destruct (snoc_cases h) as [-> | (l & m & ->)].
  - simpl. discriminate.
  - rewrite length_app. simpl List.length.
    destruct (0 <? Z.of_nat (List.length l + 1)) eqn:E; [|apply Z.ltb_ge in E; lia].
    simpl. rewrite last_role_is_snoc.
    destruct (String.eqb (role m) "user") eqn:Er; simpl; [|discriminate].
    intros [= <-]. apply String.eqb_eq in Er.
    destruct m as [ro co]. simpl in Er. subst ro. constructor. exact Halt.
Qed.

Lemma apply_chat_ops_alternates ops : forall h h',
  alternates h -> apply_chat_ops h ops = Ok h' -> alternates h'.
Proof.
  induction ops as [|o ops IH]; simpl; intros h h' Halt Hrun.
  - injection Hrun as <-. exact Halt.
  - apply bind_Ok_inv in Hrun as (h1 & H1 & H2).
    apply (IH h1); [|exact H2].
    destruct o; simpl in H1;
      eauto using on_user_query_alternates, on_system_response_alternates.
Qed.

Lemma split_in_snoc {A} (l h1 h2 : list A) (x m1 m2 : A) :
  l ++ [x] = h1 ++ m1 :: m2 :: h2 ->
  (h2 = [] /\ m2 = x /\ l = h1 ++ [m1]) \/
  (exists h2', h2 = h2' ++ [x] /\ l = h1 ++ m1 :: m2 :: h2').
Proof.
  intros H. destruct (snoc_cases h2) as [-> | (h2' & a & ->)].
  - left. change (h1 ++ [m1; m2]) with (h1 ++ [m1] ++ [m2]) in H.
    rewrite app_assoc in H. apply app_inj_tail in H as [-> ->]. auto.
  - right. exists h2'.
    change (h1 ++ m1 :: m2 :: h2' ++ [a]) with (h1 ++ (m1 :: m2 :: h2') ++ [a]) in H.
    rewrite app_assoc in H. apply app_inj_tail in H as [-> ->]. auto.
Qed.

Lemma alternates_no_two_consecutive h :
  alternates h -> no_two_consecutive_same_role h.
Proof.
  induction 1 as [|q|h r q _ IH|h q r _ IH]; intros h1 m1 m2 h2 E.
  - destruct h1; discriminate.
  - destruct h1 as [|? [|? ?]]; discriminate.
  - apply split_in_snoc in E as [(_ & -> & E) | (h2' & _ & E)].
    + apply app_inj_tail in E as [_ <-]. simpl. discriminate.
    + exact (IH _ _ _ _ E).
  - apply split_in_snoc in E as [(_ & -> & E) | (h2' & _ & E)].
    + apply app_inj_tail in E as [_ <-]. simpl. discriminate.
    + exact (IH _ _ _ _ E).
Qed.

Lemma alternates_head h : alternates h -> never_starts_with_assistant h.
Proof.
  induction 1 as [|q|h r q _ IH|h q r _ IH]; intros m t E.
  - discriminate.
  - injection E as <- _. simpl. discriminate.
  - destruct h as [|x h]; simpl in E; injection E as <- _.
    + simpl in IH. apply (IH _ _ eq_refl).
    + apply (IH x (h ++ [mkMessage "assistant" r]) eq_refl).
  - destruct h as [|x h]; simpl in E; injection E as <- _.
    + simpl. discriminate.
    + apply (IH x (h ++ [mkMessage "user" q]) eq_refl).
Qed.

(** C8. ChatHistory keeps strict alternation.  Appending a user turn to a
    non-empty history whose last turn is not an assistant turn raises;
    appending an assistant turn raises on the empty history and on a history
    whose last turn is not a user turn; hence every history built from the
    empty one by successful appends has no two consecutive turns of the same
    role and does not start with an assistant turn. *)
Theorem chat_history_strict_alternation :
  (forall h m q, role m <> "assistant" ->
     on_user_query (h ++ [m]) q = Raise (AssertionError "Expect system response"))
  /\ (forall r, on_system_response [] r = Raise (AssertionError "Expect user query"))
  /\ (forall h m r, role m <> "user" ->
     on_system_response (h ++ [m]) r = Raise (AssertionError "Expect user query"))
  /\ (forall ops h, apply_chat_ops ChatHistory_init ops = Ok h ->
     no_two_consecutive_same_role h /\ never_starts_with_assistant h).
Proof.
  repeat split.
  - intros h m q Hr. unfold on_user_query. rewrite length_app. simpl List.length.
    destruct (Z.of_nat (List.length h + 1) =? 0) eqn:E; [apply Z.eqb_eq in E; lia|].
    rewrite last_role_is_snoc.
    destruct (String.eqb (role m) "assistant") eqn:Er; [|reflexivity].
    apply String.eqb_eq in Er. contradiction.
  - intros h m r Hr. unfold on_system_response. rewrite length_app.
    simpl List.length.
    destruct (0 <? Z.of_nat (List.length h + 1)) eqn:E; [|apply Z.ltb_ge in E; lia].
    simpl. rewrite last_role_is_snoc.
    destruct (String.eqb (role m) "user") eqn:Er; [|reflexivity].
    apply String.eqb_eq in Er. contradiction.
  - apply alternates_no_two_consecutive.
    eapply apply_chat_ops_alternates; [constructor | eassumption].
  - apply alternates_head.
    eapply apply_chat_ops_alternates; [constructor | eassumption].
Qed.

(** ** UserSession *)

Lemma py_index_in_range {A} (l : list A) (i : Z) :
  0 <= i < Z.of_nat (List.length l) -> exists a, py_index l i = Ok a.
Proof.
  intros [H0 H1]. unfold py_index.
  destruct (i <? 0) eqn:E; [apply Z.ltb_lt in E; lia|]. rewrite E. simpl.
  destruct (Z.of_nat (List.length l) <=? i) eqn:E2; [apply Z.leb_le in E2; lia|].
  destruct (nth_error l (Z.to_nat i)) eqn:E3; [eauto|].
  apply nth_error_None in E3. lia.
Qed.

Lemma on_user_query_ready h q :
  h = [] \/ last_role_is h "assistant" = true ->
  on_user_query h q = Ok (h ++ [mkMessage "user" q]).
Proof.
  unfold on_user_query. intros [-> | H]; [reflexivity|].
  destruct (Z.of_nat (List.length h) =? 0); [reflexivity|].
  rewrite H. reflexivity.
Qed.

Lemma next_prompt_fields s rnd s1 prompt :
  next_prompt s rnd = Ok (s1, prompt) ->
  s1 = set_question_id s (question_id s + 1).
Proof.
  unfold next_prompt. destruct (sharegpt s) as [d|]; intros H.
  - apply bind_Ok_inv in H as (turn & _ & H). now injection H as <- _.
  - simpl in H. now injection H as <- _.
Qed.

Lemma _launch_new_request_launched s t rnd s' p :
  _launch_new_request s t rnd = Ok (s', p) -> launched s t s' p.
Proof.
  unfold _launch_new_request. intros H.
  apply bind_Ok_inv in H as ([s1 prompt] & H1 & H).
  apply bind_Ok_inv in H as (h & Hh & H).
  apply bind_Ok_inv in H as (mt & Hmt & H).
  injection H as <- <-.
  apply next_prompt_fields in H1. subst s1.
  unfold launched. simpl. repeat split; auto.
  unfold on_user_query in Hh. simpl in Hh.
  destruct (Z.of_nat (List.length (chat_history s)) =? 0).
  - injection Hh as <-. eauto.
  - apply bind_Ok_inv in Hh as (_ & _ & Hh). injection Hh as <-. eauto.
Qed.

Lemma next_prompt_ready s rnd :
  fire_ready s -> exists prompt,
    next_prompt s rnd = Ok (set_question_id s (question_id s + 1), prompt).
Proof.
  intros [_ Hd]. unfold next_prompt.
  destruct (sharegpt s) as [d|].
  - destruct Hd as [Hq Hlen].
    destruct (py_index_in_range (conversations d) (2 * question_id s + 1))
      as [t1 Ht1]; [lia|].
    destruct (py_index_in_range (conversations d) (2 * question_id s))
      as [t0 Ht0]; [lia|].
    destruct (start_with_gpt s); [rewrite Ht1 | rewrite Ht0]; simpl; eauto.
  - simpl. eauto.
Qed.

Lemma round_max_tokens_ready s h :
  fire_ready s -> exists mt,
    round_max_tokens (set_chat_history (set_question_id s (question_id s + 1)) h)
    = Ok mt.
Proof.
  intros [_ Hd]. unfold round_max_tokens.
  cbn [sharegpt start_with_gpt question_id set_chat_history set_question_id].
  destruct (sharegpt s) as [d|]; [|eauto].
  destruct Hd as [Hq Hlen].
  destruct (py_index_in_range (conversations d) (2 * (question_id s + 1)))
    as [t2 Ht2]; [lia|].
  destruct (py_index_in_range (conversations d) (2 * (question_id s + 1) - 1))
    as [t3 Ht3]; [lia|].
  destruct (start_with_gpt s); [rewrite Ht2 | rewrite Ht3]; cbn [bind]; eauto.
Qed.

Lemma _launch_new_request_ready s t rnd :
  fire_ready s -> exists s' p, _launch_new_request s t rnd = Ok (s', p).
Proof.
  intros Hr. unfold _launch_new_request.
  destruct (next_prompt_ready s rnd Hr) as (prompt & E). rewrite E.
  cbn [bind]. rewrite on_user_query_ready by apply Hr. cbn [bind].
  edestruct (round_max_tokens_ready s) as (mt & Emt); [exact Hr|].
  rewrite Emt. cbn [bind]. eauto.
Qed.

Lemma rounds_done_test s :
  (uc_num_rounds (user_config s) <=? question_id s)
  && negb (has_unfinished_request s) = true <-> rounds_done s.
Proof.
  unfold rounds_done. rewrite andb_true_iff, Z.leb_le, negb_true_iff. tauto.
Qed.


(** Every state has a decision, and only one. *)
Lemma transition_rule_total s t : exists d, transition_rule s t d.
Proof.
  destruct ((uc_num_rounds (user_config s) <=? question_id s)
            && negb (has_unfinished_request s)) eqn:E.
  - exists Finish. constructor. apply rounds_done_test. exact E.
  - assert (Hn : ~ rounds_done s).
    { intros H. apply rounds_done_test in H. congruence. }
    destruct (last_request_time s) as [last|] eqn:El.
    + destruct (Qlt_le_dec (gap_between_requests (user_config s)) (t - last)) as [Hg|Hg].
      * destruct (has_unfinished_request s) eqn:Eu.
        -- exists Backpressure. eapply rule_backpressure; eauto.
        -- exists Fire. eapply rule_next_round; eauto.
      * exists NoOp. eapply rule_pacing_window; eauto.
    + exists Fire. apply rule_first_request; auto.
Qed.


(** ** RequestExecutor *)

Lemma last_map_Some {A} (l : list A) (a : A) :
  last (map Some (l ++ [a])) None = Some a.
Proof. rewrite map_app. simpl. apply last_last. Qed.

(** The coroutine on a stream of at least one chunk, in closed form. *)
Lemma _async_launch_request_nonempty self api clk messages max_tokens tools
    extra_headers chunks c :
  let prompt := flatten_messages "" messages in
  let sreq := streaming_request self prompt max_tokens extra_headers in
  let freq := final_request self prompt max_tokens in
  let st := fold_left (process_chunk (at_first_token clk)) (chunks ++ [c])
              ("", None) in
  ep_stream api sreq = Ok (chunks ++ [c]) ->
  exists tokens_prefill tokens_out,
    _async_launch_request self api clk messages max_tokens tools extra_headers
    = (if needs_fallback c then [sreq; freq] else [sreq],
       Ok (mkResponse (fst st)
             (elapsed_if_set (snd st) (fun ft => ft - at_start clk)%Q)
             (elapsed_if_set (snd st) (fun ft => at_generation_end clk - ft)%Q)
             tokens_prefill tokens_out (at_start clk) (at_finish clk))).
Proof.
  intros prompt sreq freq st Hs. unfold _async_launch_request.
  fold prompt. fold sreq. fold freq. rewrite Hs, last_map_Some. fold st.
  destruct st as [words ftt].
  unfold needs_fallback.
  destruct (usage c) as [u|]; simpl.
  - destruct ((completion_tokens u =? 0) || (usage_prompt_tokens u =? 0)).
    + destruct (ep_final api freq) as [fr|e]; [destruct (final_usage fr)|];
        eexists; eexists; reflexivity.
    + eexists; eexists; reflexivity.
  - destruct (ep_final api freq) as [fr|e]; [destruct (final_usage fr)|];
      eexists; eexists; reflexivity.
Qed.

Lemma append_empty_r (s : string) : (s ++ "")%string = s.
Proof. induction s as [|a s IH]; simpl; [reflexivity | now rewrite IH]. Qed.

Lemma fold_silent now chunks : forall words,
  Forall silent chunks ->
  fold_left (process_chunk now) chunks (words, None) = (words, None).
Proof.
  induction chunks as [|c chunks IH]; intros words H; [reflexivity|].
  inversion H as [|? ? Hc Hrest]; subst. simpl.
  replace (process_chunk now (words, None) c) with (words, @None Q);
    [apply IH; exact Hrest|].
  unfold process_chunk, silent in *. destruct (choices c) as [|ch ?]; [reflexivity|].
  destruct Hc as [-> | ->]; [reflexivity|]. simpl.
  now rewrite append_empty_r.
Qed.

(** C4, as stated, fails: on a stream without usage counters the fallback
    call is sent without the temperature of the streaming call. *)
Lemma fallback_as_specified_fails : ~ fallback_as_specified.
Proof.
  intros H.
  specialize (H sample_executor no_usage_endpoint sample_clock [] 10 None None
                [mkChunk [mkChoice (Some "ok")] None] eq_refl).
  destruct H as [_ H].
  specialize (H (final_request sample_executor "" 10) eq_refl).
  destruct H as [(_ & _ & _ & Ht & _) _]. discriminate Ht.
Qed.

(** C4, amended.  On a stream of at least one chunk, the fallback call is
    sent exactly when the last chunk has no usage block or a usage block with
    a zero count; it has the model, prompt and token limit of the streaming
    call and [stream = false], and passes neither a temperature nor headers;
    what it returns changes nothing of the response but the two token
    counts. *)
Theorem fallback_call_recovers_token_counts self api clk messages max_tokens
    tools extra_headers chunks c :
  let prompt := flatten_messages "" messages in
  let sreq := streaming_request self prompt max_tokens extra_headers in
  let freq := final_request self prompt max_tokens in
  let run api := _async_launch_request self api clk messages max_tokens tools
                   extra_headers in
  ep_stream api sreq = Ok (chunks ++ [c]) ->
  (needs_fallback c = true -> fst (run api) = [sreq; freq])
  /\ (needs_fallback c = false -> fst (run api) = [sreq])
  /\ (req_model freq = req_model sreq
      /\ req_prompt freq = req_prompt sreq
      /\ req_max_tokens freq = req_max_tokens sreq
      /\ req_stream sreq = true /\ req_stream freq = false
      /\ req_temperature sreq = Some 0%Q /\ req_temperature freq = None
      /\ req_extra_headers sreq = extra_headers
      /\ req_extra_headers freq = None)
  /\ (forall api', ep_stream api' sreq = ep_stream api sreq ->
      exists r r', snd (run api) = Ok r /\ snd (run api') = Ok r'
        /\ body r = body r' /\ ttft r = ttft r'
        /\ generation_time r = generation_time r'
        /\ launch_time r = launch_time r' /\ finish_time r = finish_time r').
Proof.
  intros prompt sreq freq run Hs.
  destruct (_async_launch_request_nonempty self api clk messages max_tokens
              tools extra_headers chunks c Hs) as (tp & to & E).
  fold prompt sreq freq in E.
  repeat split.
  - intros Hn. unfold run. rewrite E, Hn. reflexivity.
  - intros Hn. unfold run. rewrite E, Hn. reflexivity.
  - intros api' Hs'. rewrite Hs in Hs'.
    destruct (_async_launch_request_nonempty self api' clk messages max_tokens
                tools extra_headers chunks c Hs') as (tp' & to' & E').
    fold prompt sreq freq in E'.
    unfold run. rewrite E, E'. do 2 eexists.
    split; [reflexivity|]. split; [reflexivity|]. simpl. auto.
Qed.

(** C9.  A stream of at least one chunk, none with a non-empty text, gives a
    response with an empty body and zero [ttft] and [generation_time]; a
    stream of no chunk at all makes the coroutine raise, at the reading of
    [chunk] after the loop, with the streaming call the only call sent. *)
Theorem silent_stream_response self api clk messages max_tokens tools
    extra_headers chunks :
  let sreq := streaming_request self (flatten_messages "" messages) max_tokens
                extra_headers in
  let run := _async_launch_request self api clk messages max_tokens tools
               extra_headers in
  ep_stream api sreq = Ok chunks ->
  Forall silent chunks ->
  (chunks <> [] ->
     exists r, snd run = Ok r /\ body r = ""
               /\ ttft r = 0%Q /\ generation_time r = 0%Q)
  /\ (chunks = [] -> run = ([sreq], Raise (UnboundLocalError "chunk"))).
Proof.
  intros sreq run Hs Hsil. split.
  - intros Hne. destruct (snoc_cases chunks) as [-> | (l & c & ->)];
      [contradiction|].
    destruct (_async_launch_request_nonempty self api clk messages max_tokens
                tools extra_headers l c Hs) as (tp & to & E).
    unfold run. rewrite E. rewrite (fold_silent _ _ "" Hsil).
    eexists. split; [reflexivity|]. simpl. auto.
  - intros ->. unfold run, _async_launch_request. fold sreq. rewrite Hs.
    reflexivity.
Qed.

(** ** AppsManager *)

Lemma assign_on_empty_pool upa umap user_id :
  assign_app_to_user (mkAppsManager [] umap upa) user_id = Raise ZeroDivisionError.
Proof.
  unfold assign_app_to_user, py_floordiv. simpl.
  destruct (upa =? 0); reflexivity.
Qed.

(** C5, as stated, fails: construction on an empty list succeeds. *)
Lemma empty_pool_construction_succeeds : ~ empty_pool_aborts_construction.
Proof.
  intros H. destruct (H 2) as [e He]. discriminate He.
Qed.

(** C5, amended.  On an apps file that holds an empty list the construction
    of the [AppsManager] succeeds, with an empty pool; every later assignment
    of an app to a user raises a division by zero, so that a manager built on
    such a file raises at its first tick, when ramp-up creates the first
    session. *)
Theorem empty_pool_fails_at_first_assignment :
  (forall upa, AppsManager_init (Parsed []) upa = Ok (mkAppsManager [] [] upa))
  /\ (forall upa user_id,
        get_app_for_user (mkAppsManager [] [] upa) user_id
        = Raise ZeroDivisionError)
  /\ (forall sharegpt_file wc init_user_id replay m t rng,
        UserSessionManager_init (Parsed []) sharegpt_file wc init_user_id replay
        = Ok m ->
        0 < num_users wc ->
        UserSessionManager_step m t rng = Raise ZeroDivisionError).
Proof.
  split; [reflexivity|]. split.
  - intros upa user_id. unfold get_app_for_user. simpl.
    apply assign_on_empty_pool.
  - intros sf wc uid replay m t rng Hinit Hn.
    unfold UserSessionManager_init in Hinit. simpl in Hinit.
    apply bind_Ok_inv in Hinit as (gap & Hgap & Hinit).
    apply bind_Ok_inv in Hinit as (gu & Hgu & Hinit).
    apply bind_Ok_inv in Hinit as (data & Hdata & Hinit).
    injection Hinit as <-.
    unfold UserSessionManager_step, _ramp_up. simpl.
    destruct (Z.to_nat (num_users wc)) as [|n] eqn:En; [lia|].
    simpl. unfold _create_user_session. simpl.
    unfold new_user_config. rewrite Hgap. simpl.
    unfold get_app_for_user. simpl. rewrite assign_on_empty_pool. reflexivity.
Qed.

(** ** Windowed aggregation *)

Lemma fold_min_spec l : forall x,
  let m := fold_left (fun a b => if Qle_bool a b then a else b) l x in
  (m <= x)%Q /\ Forall (fun y => m <= y)%Q l /\ In m (x :: l).
Proof.
  induction l as [|y l IH]; intros x; simpl.
  - split; [apply Qle_refl|]. split; [constructor | auto].
  - destruct (Qle_bool x y) eqn:E.
    + destruct (IH x) as (H1 & H2 & H3). apply Qle_bool_iff in E.
      split; [exact H1|]. split.
      * constructor; [eapply Qle_trans; eauto | exact H2].
      * destruct H3 as [H3|H3]; auto.
    + destruct (IH y) as (H1 & H2 & H3).
      assert (Hyx : (y <= x)%Q).
      { apply Qlt_le_weak, Qnot_le_lt. intros H. apply Qle_bool_iff in H.
        congruence. }
      split; [eapply Qle_trans; eauto|]. split.
      * constructor; assumption.
      * destruct H3 as [H3|H3]; auto.
Qed.

Lemma fold_max_spec l : forall x,
  let m := fold_left (fun a b => if Qle_bool a b then b else a) l x in
  (x <= m)%Q /\ Forall (fun y => y <= m)%Q l /\ In m (x :: l).
Proof.
  induction l as [|y l IH]; intros x; simpl.
  - split; [apply Qle_refl|]. split; [constructor | auto].
  - destruct (Qle_bool x y) eqn:E.
    + destruct (IH y) as (H1 & H2 & H3). apply Qle_bool_iff in E.
      split; [eapply Qle_trans; eauto|]. split.
      * constructor; assumption.
      * destruct H3 as [H3|H3]; auto.
    + destruct (IH x) as (H1 & H2 & H3).
      assert (Hyx : (y <= x)%Q).
      { apply Qlt_le_weak, Qnot_le_lt. intros H. apply Qle_bool_iff in H.
        congruence. }
      split; [exact H1|]. split.
      * constructor; [eapply Qle_trans; eauto | exact H2].
      * destruct H3 as [H3|H3]; auto.
Qed.

Lemma Qminimum_spec l m :
  Qminimum l = Some m -> In m l /\ Forall (fun y => m <= y)%Q l.
Proof.
  destruct l as [|x l]; [discriminate|]. simpl. intros [= <-].
  destruct (fold_min_spec l x) as (H1 & H2 & H3). split; [exact H3|].
  constructor; assumption.
Qed.

Lemma Qmaximum_spec l m :
  Qmaximum l = Some m -> In m l /\ Forall (fun y => y <= m)%Q l.
Proof.
  destruct l as [|x l]; [discriminate|]. simpl. intros [= <-].
  destruct (fold_max_spec l x) as (H1 & H2 & H3). split; [exact H3|].
  constructor; assumption.
Qed.

Lemma query_between_idempotent lo hi col df :
  query_between lo hi col (query_between lo hi col df) = query_between lo hi col df.
Proof.
  unfold query_between. induction df as [|r df IH]; simpl; [reflexivity|].
  destruct (Qle_bool lo (col r) && Qle_bool (col r) hi) eqn:E; simpl.
  - rewrite E, IH. reflexivity.
  - exact IH.
Qed.

Lemma query_between_in_window lo hi col df :
  Forall (fun r => lo <= col r /\ col r <= hi)%Q (query_between lo hi col df).
Proof.
  unfold query_between. rewrite Forall_forall. intros r Hr.
  apply filter_In in Hr as [_ Hr]. apply andb_true_iff in Hr as [H1 H2].
  split; apply Qle_bool_iff; assumption.
Qed.

(** The two cases of [ProcessSummary]: it raises on a window of length zero
    between two Python numbers, and returns otherwise. *)
Lemma ProcessSummary_raises df a b pending :
  (a == b)%Q ->
  ProcessSummary df (Some (PyNum a)) (Some (PyNum b)) pending
  = Raise ZeroDivisionError.
Proof.
  intros E. unfold ProcessSummary, window_restriction.
  destruct (bound_truthy (Some (PyNum a)) && bound_truthy (Some (PyNum b)));
    cbn [number_value bind];
    (assert (Z0 : Qeq_bool (b - a) 0 = true)
       by (apply Qeq_bool_iff; rewrite E; ring));
    rewrite Z0; reflexivity.
Qed.

Lemma ProcessSummary_returns df st et pending :
  (forall a b, st = Some (PyNum a) -> et = Some (PyNum b) -> ~ (a == b)%Q) ->
  let window := bound_truthy st && bound_truthy et in
  let rows :=
    match st, et with
    | Some lo, Some hi =>
        if window
        then query_between (number_value lo) (number_value hi) r_finish_time df
        else df
    | _, _ => df
    end in
  let launched :=
    match st, et with
    | Some lo, Some hi =>
        if window
        then Z.of_nat (List.length
                         (query_between (number_value lo) (number_value hi)
                            r_launch_time df))
        else Z.of_nat (List.length df)
    | _, _ => Z.of_nat (List.length df)
    end in
  let start :=
    match st with
    | None => Qminimum (map r_launch_time rows)
    | Some x => Some (number_value x)
    end in
  let finish :=
    match et with
    | None => Qmaximum (map r_finish_time rows)
    | Some x => Some (number_value x)
    end in
  let total :=
    match start, finish with
    | Some s, Some e => Some (e - s)%Q
    | _, _ => None
    end in
  ProcessSummary df st et pending
  = Ok (mkSummary launched start finish total
          (rate (launched + pending) total)
          (rate (Z.of_nat (List.length rows)) total)
          (rate (Zsum (map r_prompt_tokens rows)) total)
          (rate (Zsum (map r_generation_tokens rows)) total)
          rows).
Proof.
  intros Hne. unfold ProcessSummary, window_restriction.
  destruct st as [[a|a]|], et as [[b|b]|];
    cbn [bound_truthy number_value andb];
    repeat match goal with
           | |- context [if ?c then _ else _] =>
               lazymatch c with
               | Qeq_bool (_ - _) 0 => fail
               | _ => destruct c
               end
           end;
    cbn [bind option_map number_value];
    try (destruct (Qminimum _)); try (destruct (Qmaximum _));
    cbn [bind option_map number_value];
    try reflexivity;
    (assert (Z0 : Qeq_bool (b - a) 0 = false);
     [destruct (Qeq_bool (b - a) 0) eqn:Z0; [|reflexivity];
      apply Qeq_bool_iff in Z0; exfalso; apply (Hne a b eq_refl eq_refl); lra
     |rewrite Z0; reflexivity]).
Qed.

Lemma filter_window_eq lo hi col df :
  query_between lo hi col df
  = filter (fun x : row => Qle_bool lo (col x) && Qle_bool (col x) hi) df.
Proof. reflexivity. Qed.

(** C10.  [ProcessSummary] restricts to the window only when both bounds are
    truthy: its first block leaves the frame as it is, and counts every row
    as launched, when a bound is [None] or zero, whatever happens next, and
    keeps the rows finished, and counts the rows launched, within the window
    when both bounds are truthy.  The function then raises a division by zero
    when both bounds are Python numbers and equal, and returns otherwise.  When it returns and one of the bounds
    is [None] or zero, no row is filtered out, the count of launched queries
    is the number of rows, a bound that was passed is kept, and a bound that
    is [None] is taken from the data: the least launch time, the greatest
    finish time, not-a-number on an empty frame.  When both are truthy, the
    rows returned are those that finished within the window and the launches
    counted are those within it. *)
Theorem ProcessSummary_window_needs_both_bounds df st et pending :
  (st = None \/ et = None
   \/ (exists x, st = Some x /\ (number_value x == 0)%Q)
   \/ (exists x, et = Some x /\ (number_value x == 0)%Q) ->
   window_restriction df st et = (Z.of_nat (List.length df), df))
  /\ (forall lo hi,
        st = Some lo -> et = Some hi ->
        ~ (number_value lo == 0)%Q -> ~ (number_value hi == 0)%Q ->
        window_restriction df st et
        = (Z.of_nat
             (List.length
                (filter (fun x => Qle_bool (number_value lo) (r_launch_time x)
                                  && Qle_bool (r_launch_time x) (number_value hi))
                   df)),
           filter (fun x => Qle_bool (number_value lo) (r_finish_time x)
                            && Qle_bool (r_finish_time x) (number_value hi))
             df))
  /\ (forall a b, st = Some (PyNum a) -> et = Some (PyNum b) -> (a == b)%Q ->
     ProcessSummary df st et pending = Raise ZeroDivisionError)
  /\ ((forall a b, st = Some (PyNum a) -> et = Some (PyNum b) -> ~ (a == b)%Q) ->
      exists r,
        ProcessSummary df st et pending = Ok r
        /\ (st = None \/ et = None
            \/ (exists x, st = Some x /\ (number_value x == 0)%Q)
            \/ (exists x, et = Some x /\ (number_value x == 0)%Q) ->
            launched_queries r = Z.of_nat (List.length df)
            /\ sm_df r = df
            /\ (forall x, st = Some x -> sm_start_time r = Some (number_value x))
            /\ (forall x, et = Some x -> sm_end_time r = Some (number_value x))
            /\ (st = None ->
                match sm_start_time r with
                | Some lo =>
                    In lo (map r_launch_time df)
                    /\ Forall (fun x => lo <= r_launch_time x)%Q df
                | None => df = []
                end)
            /\ (et = None ->
                match sm_end_time r with
                | Some hi =>
                    In hi (map r_finish_time df)
                    /\ Forall (fun x => r_finish_time x <= hi)%Q df
                | None => df = []
                end))
        /\ (forall lo hi,
              st = Some lo -> et = Some hi ->
              ~ (number_value lo == 0)%Q -> ~ (number_value hi == 0)%Q ->
              let inside (col : row -> Q) (x : row) :=
                Qle_bool (number_value lo) (col x)
                && Qle_bool (col x) (number_value hi) in
              launched_queries r
              = Z.of_nat (List.length (filter (inside r_launch_time) df))
              /\ sm_df r = filter (inside r_finish_time) df
              /\ sm_start_time r = Some (number_value lo)
              /\ sm_end_time r = Some (number_value hi))).
Proof.
  assert (Wf : st = None \/ et = None
               \/ (exists x, st = Some x /\ (number_value x == 0)%Q)
               \/ (exists x, et = Some x /\ (number_value x == 0)%Q) ->
               bound_truthy st && bound_truthy et = false).
  { intros [-> | [-> | [(x & -> & E) | (x & -> & E)]]];
      cbn [bound_truthy]; try reflexivity.
    - apply andb_false_r.
    - apply Qeq_bool_iff in E. rewrite E. reflexivity.
    - apply Qeq_bool_iff in E. rewrite E. apply andb_false_r. }
  assert (Wt : forall lo hi,
             ~ (number_value lo == 0)%Q -> ~ (number_value hi == 0)%Q ->
             bound_truthy (Some lo) && bound_truthy (Some hi) = true).
  { intros lo hi Hlo Hhi. cbn [bound_truthy].
    destruct (Qeq_bool (number_value lo) 0) eqn:E1;
      [apply Qeq_bool_iff in E1; contradiction|].
    destruct (Qeq_bool (number_value hi) 0) eqn:E2;
      [apply Qeq_bool_iff in E2; contradiction|]. reflexivity. }
  split; [|split; [|split]].
  - intros Hf. unfold window_restriction. rewrite (Wf Hf). reflexivity.
  - intros lo hi -> -> Hlo Hhi. unfold window_restriction.
    rewrite (Wt lo hi Hlo Hhi). reflexivity.
  - intros a b -> -> E. apply ProcessSummary_raises, E.
  - intros Hne. eexists. split; [apply (ProcessSummary_returns _ _ _ _ Hne)|].
    cbn [launched_queries sm_df sm_start_time sm_end_time]. split.
    + intros Hf.
      pose proof (Wf Hf) as W.
      rewrite W.
      assert (R : match st, et with
                  | Some _, Some _ => df
                  | _, _ => df
                  end = df) by (destruct st, et; reflexivity).
      split; [destruct st, et; reflexivity|].
      split; [destruct st, et; reflexivity|].
      split; [intros x ->; reflexivity|]. split; [intros x ->; reflexivity|].
      split.
      * intros ->. cbn [map].
        destruct (Qminimum (map r_launch_time df)) as [lo|] eqn:E.
        -- apply Qminimum_spec in E as [Hin Hall]. rewrite Forall_map in Hall.
           split; assumption.
        -- destruct df; [reflexivity | discriminate].
      * intros ->.
        assert (R' : match st with
                     | Some _ => df
                     | None => df
                     end = df) by (destruct st; reflexivity).
        rewrite R'.
        destruct (Qmaximum (map r_finish_time df)) as [hi|] eqn:E.
        -- apply Qmaximum_spec in E as [Hin Hall]. rewrite Forall_map in Hall.
           split; assumption.
        -- destruct df; [reflexivity | discriminate].
    + intros lo hi -> -> Hlo Hhi.
      rewrite (Wt lo hi Hlo Hhi). repeat split.
Qed.

(** ** A round that fails *)

Lemma set_last_unfinished_log_same s :
  set_last_unfinished_log s (last_unfinished_log s) = s.
Proof. destruct s; reflexivity. Qed.

(** A session with a request marked in flight fires nothing, whatever the
    time of the tick; at most the time of the last warning moves. *)
Lemma step_while_unfinished s last t rnd :
  has_unfinished_request s = true ->
  last_request_time s = Some last ->
  exists log effs,
    step s t rnd = Ok (set_last_unfinished_log s log, effs)
    /\ forallb (fun e => negb (is_launch e)) effs = true.
Proof.
  intros Hu Hl. unfold step. rewrite Hu, Hl, andb_false_r.
  destruct (Qgtb (t - last) (gap_between_requests (user_config s))).
  - destruct (Qgtb (t - last_unfinished_log s) 10).
    + exists t. eexists. split; reflexivity.
    + exists (last_unfinished_log s). exists [].
      rewrite set_last_unfinished_log_same. split; reflexivity.
  - exists (last_unfinished_log s). exists [].
    rewrite set_last_unfinished_log_same. split; reflexivity.
Qed.

Lemma steps_while_unfinished ticks : forall s last,
  has_unfinished_request s = true ->
  last_request_time s = Some last ->
  exists log effs,
    steps s ticks = Ok (set_last_unfinished_log s log, effs)
    /\ forallb (fun e => negb (is_launch e)) effs = true.
Proof.
  induction ticks as [|[t rnd] ticks IH]; intros s last Hu Hl.
  - exists (last_unfinished_log s), [].
    rewrite set_last_unfinished_log_same. split; reflexivity.
  - destruct (step_while_unfinished s last t rnd Hu Hl) as (log1 & e1 & E1 & F1).
    destruct (IH (set_last_unfinished_log s log1) last Hu Hl)
      as (log2 & e2 & E2 & F2).
    exists log2, (e1 ++ e2). simpl. rewrite E1. simpl. rewrite E2. simpl.
    split; [reflexivity|]. rewrite forallb_app, F1, F2. reflexivity.
Qed.

(** C6, as stated, fails: when the call that raises is the second one, sent
    to recover the token counts, the coroutine returns its response all the
    same, the callback runs and the round is completed. *)
Lemma failed_fallback_round_completes : ~ failed_call_loses_round_as_specified.
Proof.
  intros H.
  destruct (_launch_new_request sample_session 100 "r") as [[s p]|e] eqn:E;
    [|vm_compute in E; discriminate].
  specialize (H sample_session 100%Q "r" s p sample_executor
                blank_stream_endpoint sample_clock E).
  vm_compute in E. injection E as <- <-.
  destruct H as [Hf _].
  - unfold call_failed.
    match goal with
    | |- exists req, In req (fst ?run) /\ _ =>
        let c := eval vm_compute in (fst run) in
        match c with
        | [_; ?freq] => exists freq
        end
    end.
    split; [vm_compute; right; left; reflexivity|].
    right. split; [reflexivity|]. exists APIError. reflexivity.
  - vm_compute in Hf. discriminate Hf.
Qed.

(** C6, amended.  A streaming call that fails is not retried and its round
    is lost.  When the streaming call raises, at its creation or while the
    stream is read, the coroutine has sent that one call and raises in turn;
    the done-callback raises at [x.result()] whatever the completion callback
    is, so [_on_request_finished] does not run and the session is left as the
    launch left it: flag set, a user turn last in the history, no row added.
    From there no tick fires a request: after any ticks the session is the
    same but for the time of its last warning.  When it is the second call,
    sent for the token counts, that raises, the coroutine returns its
    response, the callback runs and the round is completed. *)
Theorem failed_round_is_lost s0 t0 rnd0 s p :
  _launch_new_request s0 t0 rnd0 = Ok (s, p) ->
  (forall self api clk e,
     let sreq := streaming_request self (flatten_messages "" (pr_messages p))
                   (pr_max_tokens p) (pr_extra_headers p) in
     ep_stream api sreq = Raise e ->
     run_request self api clk p = ([sreq], Raise e))
  /\ (forall (finish_callback : UserSession -> Response -> result UserSession) e,
        real_callback finish_callback s (Raise e) = Raise e)
  /\ (forall e, on_future_done s (Raise e) = s)
  /\ has_unfinished_request s = true
  /\ (exists prompt, chat_history s = chat_history s0 ++ [mkMessage "user" prompt])
  /\ (forall e ticks, exists log effs,
        steps (on_future_done s (Raise e)) ticks
        = Ok (set_last_unfinished_log s log, effs)
        /\ forallb (fun e => negb (is_launch e)) effs = true)
  /\ (forall self api clk chunks c e,
        let prompt := flatten_messages "" (pr_messages p) in
        let sreq := streaming_request self prompt (pr_max_tokens p)
                      (pr_extra_headers p) in
        let freq := final_request self prompt (pr_max_tokens p) in
        ep_stream api sreq = Ok (chunks ++ [c]) ->
        needs_fallback c = true ->
        ep_final api freq = Raise e ->
        exists r,
          run_request self api clk p = ([sreq; freq], Ok r)
          /\ has_unfinished_request (on_future_done s (Ok r)) = false
          /\ prompt_lengths (on_future_done s (Ok r))
             = prompt_lengths s ++ [prompt_tokens r]
          /\ chat_history (on_future_done s (Ok r))
             = chat_history s ++ [mkMessage "assistant" (body r)]).
Proof.
  intros Hl. apply _launch_new_request_launched in Hl.
  destruct Hl as (Ht & Hu & _ & _ & Hh & _).
  split; [|split; [|split; [|split; [|split; [|split]]]]];
    [| | | | | |
     intros self api clk chunks c e prompt sreq freq Hs Hn Hf;
     destruct (_async_launch_request_nonempty self api clk (pr_messages p)
                 (pr_max_tokens p) (pr_tools p) (pr_extra_headers p) chunks c Hs)
       as (tp & tk & E);
     rewrite Hn in E;
     eexists; split; [exact E|];
     destruct Hh as [q Hq];
     match goal with
     | |- context [on_future_done s (Ok ?r)] => set (resp := r)
     end;
     assert (Hr : on_system_response (chat_history s) (body resp)
                  = Ok (chat_history s ++ [mkMessage "assistant" (body resp)]));
     [rewrite Hq; unfold on_system_response;
      rewrite last_role_is_snoc, length_app; cbn [List.length role String.eqb];
      destruct (0 <? _) eqn:Z; [reflexivity | apply Z.ltb_ge in Z; lia]
     |unfold on_future_done, run_done_callback, real_callback,
        _on_request_finished; cbn [bind]; rewrite Hr; cbn [bind];
      repeat split]].
  - intros self api clk e sreq He. unfold run_request, _async_launch_request.
    fold sreq. rewrite He. reflexivity.
  - reflexivity.
  - reflexivity.
  - exact Hu.
  - exact Hh.
  - intros e ticks. apply (steps_while_unfinished ticks s t0 Hu Ht).
Qed.

(** ** Ramp-up *)

Lemma Qdiv_nonzero (x y : Q) : ~ (x == 0)%Q -> ~ (y == 0)%Q -> ~ (x / y == 0)%Q.
Proof.
  intros Hx Hy H. apply Hx.
  setoid_replace x with (x / y * y)%Q by (field; exact Hy).
  rewrite H. ring.
Qed.

Lemma py_truediv_ok x y : ~ (y == 0)%Q -> py_truediv x y = Ok (fdiv x y).
Proof.
  intros H. unfold py_truediv.
  destruct (Qeq_bool y 0) eqn:E; [|reflexivity].
  apply Qeq_bool_iff in E. contradiction.
Qed.

Lemma assign_app_to_user_ok am uid :
  apps am <> [] -> users_per_app am <> 0 ->
  exists a, assign_app_to_user am uid
            = Ok (mkAppsManager (apps am) (dict_set (user_app_map am) uid a)
                    (users_per_app am), a).
Proof.
  intros Ha Hu. unfold assign_app_to_user, py_floordiv, py_mod.
  destruct (users_per_app am =? 0) eqn:E; [apply Z.eqb_eq in E; contradiction|].
  simpl.
  assert (Hlen : 0 < Z.of_nat (List.length (apps am))).
  { destruct (apps am); [contradiction | simpl; lia]. }
  destruct (Z.of_nat (List.length (apps am)) =? 0) eqn:E2;
    [apply Z.eqb_eq in E2; lia|].
  simpl.
  destruct (py_index_in_range (apps am)
              ((uid / users_per_app am) mod Z.of_nat (List.length (apps am))))
    as [a Hi]; [apply Z.mod_pos_bound; exact Hlen|].
  rewrite Hi. simpl. eauto.
Qed.

Lemma get_app_for_user_ok am uid :
  apps am <> [] -> users_per_app am <> 0 ->
  exists am' a, get_app_for_user am uid = Ok (am', a)
                /\ apps am' = apps am /\ users_per_app am' = users_per_app am.
Proof.
  intros Ha Hu. unfold get_app_for_user.
  destruct (dict_get (user_app_map am) uid) as [a|].
  - exists am, a. auto.
  - destruct (assign_app_to_user_ok am uid Ha Hu) as [a E].
    rewrite E. do 2 eexists. split; [reflexivity|]. simpl. auto.
Qed.

Lemma _create_user_session_created m m1 s :
  _create_user_session m = Ok (m1, s) -> created m m1 s.
Proof.
  unfold _create_user_session. intros H.
  apply bind_Ok_inv in H as (uc & Huc & H).
  apply bind_Ok_inv in H as ([am a] & Ham & H).
  apply bind_Ok_inv in H as (us & Hus & H).
  injection H as <- <-.
  unfold new_user_config in Huc.
  apply bind_Ok_inv in Huc as (gap & Hgap & Huc). injection Huc as <-.
  unfold py_truediv in Hgap.
  destruct (Qeq_bool (qps (workload_config m)) 0); [discriminate|].
  injection Hgap as <-.
  assert (Hs : as_created us = us
               /\ user_config us
                  = mkUserConfig (mgr_user_id m + 1)
                      (system_prompt_len (workload_config m))
                      (user_info_len (workload_config m))
                      (answer_len (workload_config m))
                      (fdiv (of_int (num_users (workload_config m)))
                         (qps (workload_config m)))
                      (num_rounds (workload_config m))
                      (enable_user_id (workload_config m))).
  { destruct (use_sharegpt m).
    - apply bind_Ok_inv in Hus as (d & _ & Hus). injection Hus as <-.
      split; reflexivity.
    - injection Hus as <-. split; reflexivity. }
  destruct Hs as [Hc Hcfg].
  unfold created. simpl. rewrite Hcfg. simpl. repeat split; auto.
Qed.



Lemma replace_last_snoc l s s' : replace_last (l ++ [s]) s' = l ++ [s'].
Proof. unfold replace_last. now rewrite removelast_last. Qed.








(** ** Admission *)

Lemma step_after_ramp_up m t rng m' effs :
  need_ramp_up m = false ->
  UserSessionManager_step m t rng = Ok (m', effs) ->
  same_settings m m' /\ need_ramp_up m' = false /\ admits_at_most_one m t m'.
Proof.
  intros Hn H. unfold UserSessionManager_step in H. rewrite Hn in H.
  cbn [bind] in H.
  set (m0 := match start_time m with
             | None => set_start_time m (Some t)
             | Some _ => m
             end) in H.
  assert (E0 : workload_config m0 = workload_config m
               /\ gap_between_users m0 = gap_between_users m
               /\ need_ramp_up m0 = false
               /\ mgr_user_id m0 = mgr_user_id m
               /\ last_user_join m0 = last_user_join m
               /\ sessions m0 = sessions m).
  { unfold m0. destruct (start_time m); simpl; auto 10. }
  destruct E0 as (Ew & Eg & En & Eu & El & Es).
  apply bind_Ok_inv in H as (m1 & H1 & H).
  apply bind_Ok_inv in H as ([l effs'] & _ & H). injection H as <- _.
  unfold same_settings, admits_at_most_one. simpl.
  destruct ((Z.of_nat (List.length (sessions m0)) <? num_users (workload_config m0))
            && Qgtb (t - last_user_join m0) (gap_between_users m0)) eqn:Ec.
  - apply bind_Ok_inv in H1 as ([m2 s] & Hc & H1). injection H1 as <-.
    apply _create_user_session_created in Hc
      as (Hw & Hgu & _ & _ & Hnr & _ & _ & _ & Hid & _).
    apply andb_true_iff in Ec as [Ec1 Ec2].
    apply Z.ltb_lt in Ec1. apply Qgtb_true in Ec2.
    rewrite Es, Ew in Ec1. rewrite El, Eg in Ec2. simpl.
    repeat split; try congruence. right. repeat split; auto. congruence.
  - injection H1 as <-. repeat split; try congruence. left. split; congruence.
Qed.

Lemma ramp_up_loop_settings t R : forall indices m m',
  ramp_up_loop m t R indices = Ok m' ->
  same_settings m m'
  /\ need_ramp_up m' = need_ramp_up m
  /\ last_user_join m' = match indices with
                         | [] => last_user_join m
                         | _ :: _ => t
                         end.
Proof.
  induction indices as [|i rest IH]; intros m m' H; simpl in H.
  - injection H as <-. unfold same_settings. repeat split; auto.
  - apply bind_Ok_inv in H as ([m1 s] & Hc & H).
    apply _create_user_session_created in Hc
      as (Hw & Hgu & _ & _ & Hnr & _ & _ & _ & _ & _).
    cbn [gap_between_users set_last_user_join] in H.
    destruct (Qgtb 0 _) in H.
    + injection H as <-. unfold same_settings. simpl. repeat split; auto.
    + apply bind_Ok_inv in H as (s' & _ & H).
      apply IH in H as ((Hw' & Hgu') & Hnr' & Hl). simpl in *.
      unfold same_settings. repeat split; try congruence.
      destruct rest; exact Hl.
Qed.

Lemma step_with_ramp_up m t rng m' effs :
  need_ramp_up m = true ->
  (0 < gap_between_users m)%Q ->
  UserSessionManager_step m t rng = Ok (m', effs) ->
  same_settings m m'
  /\ need_ramp_up m' = false
  /\ (num_users (workload_config m) <= 0 \/ last_user_join m' = t).
Proof.
  intros Hn Hg H. unfold UserSessionManager_step in H. rewrite Hn in H.
  apply bind_Ok_inv in H as (mr & Hr & H).
  unfold _ramp_up in Hr. apply bind_Ok_inv in Hr as (ml & Hl & Hr).
  injection Hr as <-.
  apply ramp_up_loop_settings in Hl as ((Hw & Hgu) & _ & Hlj).
  set (m0 := match start_time (set_need_ramp_up ml false) with
             | None => set_start_time (set_need_ramp_up ml false) (Some t)
             | Some _ => set_need_ramp_up ml false
             end) in H.
  assert (E0 : workload_config m0 = workload_config m
               /\ gap_between_users m0 = gap_between_users m
               /\ need_ramp_up m0 = false
               /\ last_user_join m0 = last_user_join ml
               /\ sessions m0 = sessions ml).
  { unfold m0. destruct (start_time _); simpl; auto 10. }
  destruct E0 as (Ew & Eg & En & El & Es).
  apply bind_Ok_inv in H as (m1 & H1 & H).
  apply bind_Ok_inv in H as ([l effs'] & _ & H). injection H as <- _.
  assert (Ec : (Z.of_nat (List.length (sessions m0))
                <? num_users (workload_config m0))
               && Qgtb (t - last_user_join m0) (gap_between_users m0) = false).
  { destruct (Z_le_gt_dec (num_users (workload_config m)) 0) as [Hle|Hgt].
    - apply andb_false_iff. left. apply Z.ltb_ge. rewrite Ew. lia.
    - apply andb_false_iff. right. apply Qgtb_false.
      rewrite El, Eg, Hlj.
      destruct (Z.to_nat (num_users (workload_config m))) eqn:E; [lia|].
      simpl. lra. }
  rewrite Ec in H1. injection H1 as <-.
  unfold same_settings. simpl. repeat split; try congruence.
  destruct (Z_le_gt_dec (num_users (workload_config m)) 0) as [Hle|Hgt];
    [left; exact Hle | right].
  rewrite El, Hlj.
  destruct (Z.to_nat (num_users (workload_config m))) eqn:E; [lia|]. reflexivity.
Qed.

Lemma run_paced uid1 t0 T g N : forall events m m',
  paced uid1 t0 T g N m ->
  Forall (fun t => t <= t0 + T)%Q (tick_times events) ->
  run m events = Ok m' ->
  paced uid1 t0 T g N m'.
Proof.
  induction events as [|[t rng|uid x] rest IH]; intros m m' Hp Ht H; simpl in H.
  - injection H as <-. exact Hp.
  - apply bind_Ok_inv in H as ([m1 effs] & Hs & H).
    simpl in Ht. inversion Ht as [|? ? Htt Hrest]; subst.
    apply (IH m1 m'); [|exact Hrest|exact H].
    destruct Hp as (Hn & Hg & HN & Hu & Hp).
    apply step_after_ramp_up in Hs as ((Hw & Hgu) & Hn1 & Ha); [|exact Hn].
    unfold paced. rewrite Hw, Hgu.
    destruct Ha as [(Hid & Hlj) | (Hid & Hlen & Hgap & Hlj)].
    + rewrite Hid, Hlj. auto.
    + repeat split; auto; [lia|]. right. rewrite Hlj, Hid. split; [|exact Htt].
      destruct Hp as [(HN0 & _) | (Hlo & _)]; [lia|].
      replace (mgr_user_id m + 1 - uid1) with ((mgr_user_id m - uid1) + 1) by lia.
      rewrite inject_Z_plus. rewrite Hg in Hgap.
      change (inject_Z 1) with 1%Q. lra.
  - apply (IH (deliver m uid x) m'); [|exact Ht|exact H].
    destruct Hp as (Hn & Hg & HN & Hu & Hp). unfold paced. simpl. auto.
Qed.

Lemma paced_bound uid1 t0 T g N m :
  (0 < g)%Q -> (0 <= T)%Q ->
  paced uid1 t0 T g N m ->
  mgr_user_id m - uid1 <= Qfloor (T / g).
Proof.
  intros Hg HT (_ & _ & _ & Hu & Hp).
  destruct Hp as [(_ & ->) | (Hlo & Hhi)].
  - rewrite Z.sub_diag. rewrite <- (Qfloor_Z 0). apply Qfloor_resp_le.
    apply Qle_shift_div_l; [exact Hg|]. change (inject_Z 0) with 0%Q. lra.
  - rewrite <- (Qfloor_Z (mgr_user_id m - uid1)). apply Qfloor_resp_le.
    apply Qle_shift_div_l; [exact Hg|].
    set (x := (inject_Z (mgr_user_id m - uid1) * g)%Q) in *. lra.
Qed.

(** C7.  After ramp-up a tick admits at most one session, and only when the
    active population is below [num_users] and more than [gap_between_users]
    has passed since the last admission.  Hence, in a run whose first tick,
    at [t0], is the ramp-up, with all later ticks no later than [t0 + T] and
    done-callbacks arriving in any order between them, the sessions admitted
    are at most [floor (T / gap_between_users)] more than those of the first
    tick. *)
Theorem admission_is_paced m0 t0 rng0 m1 effs0 :
  need_ramp_up m0 = true ->
  (0 < gap_between_users m0)%Q ->
  UserSessionManager_step m0 t0 rng0 = Ok (m1, effs0) ->
  (forall m t rng m' effs,
     need_ramp_up m = false ->
     UserSessionManager_step m t rng = Ok (m', effs) ->
     admits_at_most_one m t m')
  /\ (forall T events m2,
        (0 <= T)%Q ->
        Forall (fun t => t <= t0 + T)%Q (tick_times events) ->
        run m1 events = Ok m2 ->
        mgr_user_id m2 - mgr_user_id m0
        <= Qfloor (T / gap_between_users m0)
           + (mgr_user_id m1 - mgr_user_id m0)).
Proof.
  intros Hn Hg Hs. split.
  - intros m t rng m' effs Hn' Hs'.
    apply (step_after_ramp_up m t rng m' effs Hn' Hs').
  - intros T events m2 HT Hticks Hrun.
    apply step_with_ramp_up in Hs as ((Hw & Hgu) & Hn1 & Hl); auto.
    assert (Hp : paced (mgr_user_id m1) t0 T (gap_between_users m0)
                   (num_users (workload_config m0)) m1).
    { unfold paced. rewrite Hw, Hgu, Z.sub_diag.
      repeat split; auto; [lia|].
      destruct Hl as [Hl | Hl]; [left; auto | right].
      rewrite Hl. change (inject_Z 0) with 0%Q. split; lra. }
    pose proof (paced_bound _ _ _ _ _ _ Hg HT
                  (run_paced _ _ _ _ _ _ _ _ Hp Hticks Hrun)).
    lia.
Qed.

(** ** One request in flight per session *)

Lemma length_remove_nth {A} (l : list A) : forall i a,
  nth_error l i = Some a -> S (List.length (remove_nth i l)) = List.length l.
Proof.
  induction l as [|b l IH]; intros [|i] a H; simpl in H; try discriminate.
  - reflexivity.
  - unfold remove_nth in *. simpl. f_equal. exact (IH i a H).
Qed.

Ltac exclusive_case :=
  unfold exclusive, owed in *; simpl in *;
  repeat match goal with
         | H : _ /\ _ |- _ => destruct H
         end;
  repeat split; intros; try congruence; try lia;
  repeat match goal with
         | H : ?a = ?b -> _, H' : ?a = ?b |- _ => specialize (H H')
         end;
  try congruence; try lia.

Lemma tick_exclusive w t rnd w' :
  exclusive w -> tick w t rnd = Some w' -> exclusive w'.
Proof.
  intros Hx H. unfold tick in H. destruct w as [s c l fl]. simpl in H.
  destruct c; try discriminate.
  destruct ((uc_num_rounds (user_config s) <=? question_id s)
            && negb (has_unfinished_request s)).
  - injection H as <-. exclusive_case.
  - destruct (last_request_time s) as [last|] eqn:El.
    + destruct (Qgtb _ _); injection H as <-; exclusive_case.
    + injection H as <-. exclusive_case.
Qed.

Lemma controller_step_exclusive w w' :
  exclusive w -> controller_step w = Some w' -> exclusive w'.
Proof.
  intros Hx H. unfold controller_step in H. destruct w as [s c l fl].
  simpl in H. destruct c; try discriminate.
  - destruct (has_unfinished_request s) eqn:Eu.
    + destruct (Qgtb _ _); injection H as <-; exclusive_case.
    + injection H as <-. exclusive_case.
  - destruct (next_prompt s rnd) as [[s1 prompt]|e] eqn:En.
    + injection H as <-. apply next_prompt_fields in En. subst s1.
      exclusive_case.
    + injection H as <-. exclusive_case.
  - destruct (_ =? _); injection H as <-; exclusive_case.
  - destruct (last_role_is _ _); injection H as <-; exclusive_case.
  - injection H as <-. exclusive_case.
  - destruct (round_max_tokens s); injection H as <-; exclusive_case.
    rewrite length_app. simpl. lia.
  - injection H as <-. exclusive_case.
Qed.

Lemma completes_exclusive w i x w' :
  exclusive w -> completes w i x = Some w' -> exclusive w'.
Proof.
  intros Hx H. unfold completes in H. destruct w as [s c l fl]. simpl in H.
  destruct l; try discriminate.
  destruct (nth_error fl i) as [p|] eqn:En; [|discriminate].
  injection H as <-. apply length_remove_nth in En.
  destruct x, c; exclusive_case.
Qed.

Lemma event_loop_step_exclusive w w' :
  exclusive w -> event_loop_step w = Some w' -> exclusive w'.
Proof.
  intros Hx H. unfold event_loop_step in H. destruct w as [s c l fl].
  simpl in H. destruct l; try discriminate.
  - destruct (0 <? _); injection H as <-; destruct c; exclusive_case.
  - destruct (last_role_is _ _); injection H as <-; destruct c; exclusive_case.
  - injection H as <-. destruct c; exclusive_case.
  - injection H as <-. destruct c; exclusive_case.
  - injection H as <-. destruct c; exclusive_case.
Qed.

Lemma exec_all_exclusive actions : forall w w',
  exclusive w -> exec_all w actions = Some w' -> exclusive w'.
Proof.
  induction actions as [|a rest IH]; intros w w' Hx H; simpl in H.
  - injection H as <-. exact Hx.
  - destruct (exec w a) as [w1|] eqn:E; [|discriminate].
    apply (IH w1 w'); [|exact H].
    destruct a; simpl in E;
      eauto using tick_exclusive, controller_step_exclusive,
        completes_exclusive, event_loop_step_exclusive.
Qed.

(** The pieces, run without interruption, make up the functions. *)
Lemma _launch_new_request_is_a_run s t rnd s' p l fl :
  _launch_new_request s t rnd = Ok (s', p) ->
  exists n,
    exec_all (mkWorld s (AtLaunch t rnd) l fl) (repeat AController n)
    = Some (mkWorld s' Idle l (fl ++ [p])).
Proof.
  unfold _launch_new_request. intros H.
  apply bind_Ok_inv in H as ([s1 prompt] & H1 & H).
  apply bind_Ok_inv in H as (h & Hh & H).
  apply bind_Ok_inv in H as (mt & Hmt & H).
  injection H as <- <-.
  unfold on_user_query in Hh.
  destruct (Z.of_nat (List.length (chat_history s1)) =? 0) eqn:El.
  - injection Hh as <-. exists 5%nat.
    cbn [repeat exec_all exec]. unfold controller_step at 1.
    cbn [ctrl session loop in_flight]. rewrite H1.
    unfold controller_step at 1. cbn [ctrl session loop in_flight]. rewrite El.
    unfold controller_step at 1. cbn [ctrl session loop in_flight].
    unfold controller_step at 1. cbn [ctrl session loop in_flight]. rewrite Hmt.
    unfold controller_step at 1. cbn [ctrl session loop in_flight].
    reflexivity.
  - apply bind_Ok_inv in Hh as (u & Ha & Hh). injection Hh as <-.
    unfold py_assert in Ha.
    destruct (last_role_is (chat_history s1) "assistant") eqn:Er; [|discriminate].
    exists 6%nat.
    cbn [repeat exec_all exec]. unfold controller_step at 1.
    cbn [ctrl session loop in_flight]. rewrite H1.
    unfold controller_step at 1. cbn [ctrl session loop in_flight]. rewrite El.
    unfold controller_step at 1. cbn [ctrl session loop in_flight]. rewrite Er.
    unfold controller_step at 1. cbn [ctrl session loop in_flight].
    unfold controller_step at 1. cbn [ctrl session loop in_flight]. rewrite Hmt.
    unfold controller_step at 1. cbn [ctrl session loop in_flight].
    reflexivity.
Qed.

Lemma step_is_a_run s t rnd s' effs l fl :
  step s t rnd = Ok (s', effs) ->
  exists n,
    exec_all (mkWorld s Idle l fl) (ATick t rnd :: repeat AController n)
    = Some (mkWorld s' Idle l (fl ++ launches effs)).
Proof.
  unfold step. intros H. cbn [exec_all exec]. unfold tick.
  cbn [ctrl session loop in_flight].
  destruct ((uc_num_rounds (user_config s) <=? question_id s)
            && negb (has_unfinished_request s)).
  - injection H as <- <-. exists 0%nat. simpl. now rewrite app_nil_r.
  - destruct (last_request_time s) as [last|].
    + destruct (Qgtb (t - last) _).
      * destruct (has_unfinished_request s) eqn:Eu.
        -- exists 1%nat. cbn [repeat exec_all exec]. unfold controller_step.
           cbn [ctrl session loop in_flight]. rewrite Eu.
           destruct (Qgtb _ 10); injection H as <- <-; simpl;
             now rewrite app_nil_r.
        -- apply bind_Ok_inv in H as ([s1 p] & Hl & H). injection H as <- <-.
           destruct (_launch_new_request_is_a_run _ _ _ _ _ l fl Hl) as [n En].
           exists (S n). cbn [repeat exec_all exec]. unfold controller_step at 1.
           cbn [ctrl session loop in_flight]. rewrite Eu. exact En.
      * injection H as <- <-. exists 0%nat. simpl. now rewrite app_nil_r.
    + apply bind_Ok_inv in H as ([s1 p] & Hl & H). injection H as <- <-.
      destruct (_launch_new_request_is_a_run _ _ _ _ _ l fl Hl) as [n En].
      exists n. exact En.
Qed.

Lemma on_future_done_is_a_run s x c fl i p :
  nth_error fl i = Some p ->
  exists n,
    exec_all (mkWorld s c LIdle fl) (ACompletes i x :: repeat AEventLoop n)
    = Some (mkWorld (on_future_done s x) c LIdle (remove_nth i fl)).
Proof.
  intros Hn.
  cbn [exec_all exec]. unfold completes. cbn [ctrl session loop in_flight].
  rewrite Hn. unfold on_future_done, run_done_callback, real_callback.
  destruct x as [r|e]; [|exists 0%nat; reflexivity].
  cbn [bind]. unfold _on_request_finished, on_system_response, py_assert.
  destruct (0 <? Z.of_nat (List.length (chat_history s))) eqn:El.
  - destruct (last_role_is (chat_history s) "user") eqn:Er.
    + exists 5%nat. cbn [repeat exec_all exec bind].
      unfold event_loop_step at 1. cbn [ctrl session loop in_flight]. rewrite El.
      unfold event_loop_step at 1. cbn [ctrl session loop in_flight]. rewrite Er.
      reflexivity.
    + exists 2%nat. cbn [repeat exec_all exec bind].
      unfold event_loop_step at 1. cbn [ctrl session loop in_flight]. rewrite El.
      unfold event_loop_step at 1. cbn [ctrl session loop in_flight]. rewrite Er.
      reflexivity.
  - exists 1%nat. cbn [repeat exec_all exec bind].
    unfold event_loop_step at 1. cbn [ctrl session loop in_flight]. rewrite El.
    reflexivity.
Qed.

Lemma exec_all_app a : forall w b,
  exec_all w (a ++ b) = match exec_all w a with
                        | Some w' => exec_all w' b
                        | None => None
                        end.
Proof.
  induction a as [|x a IH]; intros w b; simpl; [reflexivity|].
  destruct (exec w x); [apply IH | reflexivity].
Qed.

Lemma play_is_a_run events : forall s fl s' fl',
  play s fl events = Some (s', fl') ->
  exists actions,
    exec_all (mkWorld s Idle LIdle fl) actions = Some (mkWorld s' Idle LIdle fl').
Proof.
  induction events as [|[t rnd|i x] rest IH]; intros s fl s' fl' H; simpl in H.
  - injection H as <- <-. exists []. reflexivity.
  - destruct (step s t rnd) as [[s1 effs]|e] eqn:Es; [|discriminate].
    destruct (step_is_a_run _ _ _ _ _ LIdle fl Es) as [n En].
    destruct (IH _ _ _ _ H) as [acts Ea].
    exists ((ATick t rnd :: repeat AController n) ++ acts).
    rewrite exec_all_app, En. exact Ea.
  - destruct (nth_error fl i) as [p|] eqn:En; [|discriminate].
    destruct (on_future_done_is_a_run s x Idle fl i p En) as [n Ed].
    destruct (IH _ _ _ _ H) as [acts Ea].
    exists ((ACompletes i x :: repeat AEventLoop n) ++ acts).
    rewrite exec_all_app, Ed. exact Ea.
Qed.

Lemma step_launches s t rnd s' effs :
  step s t rnd = Ok (s', effs) ->
  launches effs <> [] ->
  last_request_time s = None \/ has_unfinished_request s = false.
Proof.
  unfold step. intros H Hl.
  destruct (_ && _); [injection H as _ <-; contradiction|].
  destruct (last_request_time s) as [last|]; [|left; reflexivity].
  destruct (Qgtb (t - last) _); [|injection H as _ <-; contradiction].
  destruct (has_unfinished_request s); [|right; reflexivity].
  destruct (Qgtb _ 10); injection H as _ <-; contradiction.
Qed.

(** C2.  One session under any interleaving of the pieces of [step] and of
    the done-callbacks of its requests, from a session whose flag is not set:
    at every moment at most one request is in flight, and when the controller
    is about to hand a request to the event loop none is in flight and
    [has_unfinished_request] is false.  The same holds when each [step] and
    each callback runs as a whole: at most one request is in flight, and a
    tick that launches a request finds the flag false and no request in
    flight. *)
Theorem at_most_one_request_in_flight s0 :
  has_unfinished_request s0 = false ->
  (forall actions w,
     exec_all (initial_world s0) actions = Some w ->
     (List.length (in_flight w) <= 1)%nat
     /\ (forall t, ctrl w = AtSubmit t ->
           in_flight w = [] /\ has_unfinished_request (session w) = false))
  /\ (forall events s flight,
        play s0 [] events = Some (s, flight) ->
        (List.length flight <= 1)%nat
        /\ (forall t rnd s' effs,
              step s t rnd = Ok (s', effs) -> launches effs <> [] ->
              flight = [] /\ has_unfinished_request s = false)).
Proof.
  intros H0.
  assert (Hx : exclusive (initial_world s0)).
  { unfold exclusive, owed. simpl. auto. }
  split.
  - intros actions w Hrun.
    apply (exec_all_exclusive actions _ _ Hx) in Hrun.
    destruct Hrun as (Ho & _ & Hc). unfold owed in *. split; [lia|].
    intros t Et. rewrite Et in Hc. destruct Hc as [Hz Hu].
    split; [|exact Hu]. destruct (in_flight w); [reflexivity | simpl in Hz; lia].
  - intros events s flight Hp.
    apply play_is_a_run in Hp as [actions Hrun].
    apply (exec_all_exclusive actions _ _ Hx) in Hrun.
    destruct Hrun as (Ho & Hn & Hf & Hl). unfold owed in *. simpl in *.
    split; [lia|].
    intros t rnd s' effs Hs Hne.
    assert (Hz : List.length flight = 0%nat).
    { destruct (step_launches _ _ _ _ _ Hs Hne) as [E|E];
        [specialize (Hl E) | specialize (Hf E)]; lia. }
    split; [destruct flight; [reflexivity | discriminate]|].
    destruct (step_launches _ _ _ _ _ Hs Hne) as [E|E]; auto.
Qed.

(** * The theorems at sample inputs *)


Lemma at_most_one_request_in_flight_witness :
  has_unfinished_request sample_session = false
  /\ (forall actions w,
        exec_all (initial_world sample_session) actions = Some w ->
        (List.length (in_flight w) <= 1)%nat
        /\ (forall t, ctrl w = AtSubmit t ->
              in_flight w = [] /\ has_unfinished_request (session w) = false))
  /\ (forall events s flight,
        play sample_session [] events = Some (s, flight) ->
        (List.length flight <= 1)%nat
        /\ (forall t rnd s' effs,
              step s t rnd = Ok (s', effs) -> launches effs <> [] ->
              flight = [] /\ has_unfinished_request s = false)).
Proof.
  split; [reflexivity|].
  exact (at_most_one_request_in_flight sample_session eq_refl).
Defined.


Lemma fallback_call_recovers_token_counts_witness :
  ep_stream no_usage_endpoint
    (streaming_request sample_executor (flatten_messages "" []) 10 None)
  = Ok ([] ++ [mkChunk [mkChoice (Some "ok")] None])
  /\ fst (_async_launch_request sample_executor no_usage_endpoint sample_clock
            [] 10 None None)
     = [streaming_request sample_executor "" 10 None;
        final_request sample_executor "" 10].
Proof.
  split; [reflexivity|].
  destruct (fallback_call_recovers_token_counts sample_executor
              no_usage_endpoint sample_clock [] 10 None None []
              (mkChunk [mkChoice (Some "ok")] None) eq_refl) as [H _].
  apply H. reflexivity.
Defined.

Lemma empty_pool_fails_at_first_assignment_witness :
  exists m,
    UserSessionManager_init (Parsed []) (Ok []) sample_workload 0 false = Ok m
    /\ 0 < num_users sample_workload
    /\ UserSessionManager_step m 100 sample_rng = Raise ZeroDivisionError.
Proof.
  eexists. split; [vm_compute; reflexivity|]. split; [reflexivity|].
  destruct empty_pool_fails_at_first_assignment as (_ & _ & H).
  apply (H (Ok []) sample_workload 0 false); [vm_compute|]; reflexivity.
Defined.

Lemma failed_round_is_lost_witness :
  exists s p,
    _launch_new_request sample_session 100 "r" = Ok (s, p)
    /\ (forall e, on_future_done s (Raise e) = s)
    /\ has_unfinished_request s = true
    /\ (forall e ticks, exists log effs,
          steps (on_future_done s (Raise e)) ticks
          = Ok (set_last_unfinished_log s log, effs)
          /\ forallb (fun e => negb (is_launch e)) effs = true)
    /\ (exists r,
          snd (run_request sample_executor blank_stream_endpoint sample_clock p)
          = Ok r
          /\ has_unfinished_request (on_future_done s (Ok r)) = false).
Proof.
  destruct (_launch_new_request sample_session 100 "r") as [[s p]|e] eqn:E;
    [|vm_compute in E; discriminate].
  exists s, p. split; [reflexivity|].
  destruct (failed_round_is_lost _ _ _ _ _ E) as (_ & _ & H3 & H4 & _ & H6 & H7).
  split; [exact H3|]. split; [exact H4|]. split; [exact H6|].
  destruct (H7 sample_executor blank_stream_endpoint sample_clock
              [mkChunk [mkChoice (Some "")] None] (mkChunk [] (Some (mkUsage 0 11)))
              APIError eq_refl eq_refl eq_refl) as (r & Er & Hf & _).
  exists r. split; [|exact Hf].
  unfold run_request in *. rewrite Er. reflexivity.
Defined.

Lemma admission_is_paced_witness :
  exists m0 m1 effs0,
    sample_manager = Ok m0
    /\ need_ramp_up m0 = true
    /\ (0 < gap_between_users m0)%Q
    /\ UserSessionManager_step m0 100 sample_rng = Ok (m1, effs0)
    /\ (forall T events m2,
          (0 <= T)%Q ->
          Forall (fun t => t <= 100 + T)%Q (tick_times events) ->
          run m1 events = Ok m2 ->
          mgr_user_id m2 - mgr_user_id m0
          <= Qfloor (T / gap_between_users m0)
             + (mgr_user_id m1 - mgr_user_id m0)).
Proof.
  do 3 eexists. split; [vm_compute; reflexivity|].
  split; [reflexivity|]. split; [reflexivity|].
  split; [vm_compute; reflexivity|].
  refine (proj2 (admission_is_paced _ 100 sample_rng _ _ _ _ _));
    [reflexivity | reflexivity | vm_compute; reflexivity].
Defined.

Lemma chat_history_strict_alternation_witness :
  on_user_query ([] ++ [mkMessage "user" "a"]) "b"
  = Raise (AssertionError "Expect system response")
  /\ on_system_response ([mkMessage "user" "a"] ++ [mkMessage "assistant" "b"]) "c"
     = Raise (AssertionError "Expect user query")
  /\ no_two_consecutive_same_role
       [mkMessage "user" "a"; mkMessage "assistant" "b"; mkMessage "user" "c"]
  /\ never_starts_with_assistant
       [mkMessage "user" "a"; mkMessage "assistant" "b"; mkMessage "user" "c"].
Proof.
  destruct chat_history_strict_alternation as (H1 & _ & H3 & H4).
  split; [apply H1; discriminate|]. split; [apply H3; discriminate|].
  apply (H4 [UserQuery "a"; SystemResponse "b"; UserQuery "c"]). reflexivity.
Defined.

Lemma silent_stream_response_witness :
  (exists r,
     snd (_async_launch_request sample_executor blank_stream_endpoint
            sample_clock [] 10 None None) = Ok r
     /\ body r = "" /\ ttft r = 0%Q /\ generation_time r = 0%Q)
  /\ _async_launch_request sample_executor empty_stream_endpoint sample_clock
       [] 10 None None
     = ([streaming_request sample_executor "" 10 None],
        Raise (UnboundLocalError "chunk")).
Proof.
  split.
  - apply (silent_stream_response sample_executor blank_stream_endpoint
             sample_clock [] 10 None None
             [mkChunk [mkChoice (Some "")] None;
              mkChunk [] (Some (mkUsage 0 11))] eq_refl).
    + apply Forall_cons; [right; reflexivity|].
      apply Forall_cons; [exact I | apply Forall_nil].
    + discriminate.
  - apply (silent_stream_response sample_executor empty_stream_endpoint
             sample_clock [] 10 None None [] eq_refl); [constructor | reflexivity].
Defined.

Lemma ProcessSummary_window_needs_both_bounds_witness :
  window_restriction sample_frame (Some (PyNum 0)) (Some (PyNum 0))
  = (3, sample_frame)
  /\ ProcessSummary sample_frame (Some (PyNum 0)) (Some (PyNum 0)) 0
     = Raise ZeroDivisionError
  /\ (exists r,
        ProcessSummary sample_frame None (Some (PyNum 0)) 0 = Ok r
        /\ launched_queries r = 3 /\ sm_df r = sample_frame
        /\ sm_start_time r = Some 1%Q /\ sm_end_time r = Some 0%Q)
  /\ (exists r,
        ProcessSummary sample_frame (Some (NpNum 0)) None 0 = Ok r
        /\ launched_queries r = 3 /\ sm_df r = sample_frame
        /\ sm_start_time r = Some 0%Q /\ sm_end_time r = Some 9%Q)
  /\ (exists r,
        ProcessSummary sample_frame (Some (PyNum 2)) (Some (PyNum 8)) 0 = Ok r
        /\ launched_queries r = 2
        /\ sm_df r = [sample_row 1 3; sample_row 6 7]).
Proof.
  split; [|split; [|split; [|split]]].
  - apply (proj1 (ProcessSummary_window_needs_both_bounds
                    sample_frame (Some (PyNum 0)) (Some (PyNum 0)) 0)).
    right. right. left. exists (PyNum 0). split; reflexivity.
  - apply (proj1 (proj2 (proj2 (ProcessSummary_window_needs_both_bounds
                                  sample_frame (Some (PyNum 0)) (Some (PyNum 0)) 0)))
             0%Q 0%Q eq_refl eq_refl).
    reflexivity.
  - destruct (proj2 (proj2 (proj2 (ProcessSummary_window_needs_both_bounds
                                     sample_frame None (Some (PyNum 0)) 0))))
      as (r & E & H & _); [discriminate|].
    destruct (H (or_introl eq_refl)) as (H1 & H2 & _ & H4 & _).
    exists r. split; [exact E|]. split; [exact H1|]. split; [exact H2|].
    split; [|exact (H4 _ eq_refl)].
    vm_compute in E. injection E as <-. reflexivity.
  - destruct (proj2 (proj2 (proj2 (ProcessSummary_window_needs_both_bounds
                                     sample_frame (Some (NpNum 0)) None 0))))
      as (r & E & H & _); [discriminate|].
    destruct (H (or_intror (or_introl eq_refl))) as (H1 & H2 & H3 & _).
    exists r. split; [exact E|]. split; [exact H1|]. split; [exact H2|].
    split; [exact (H3 _ eq_refl)|].
    vm_compute in E. injection E as <-. reflexivity.
  - destruct (proj2 (proj2 (proj2 (ProcessSummary_window_needs_both_bounds
                                     sample_frame (Some (PyNum 2)) (Some (PyNum 8)) 0))))
      as (r & E & _ & H).
    { intros a b [= <-] [= <-] C. vm_compute in C. discriminate C. }
    destruct (H (PyNum 2) (PyNum 8) eq_refl eq_refl) as (H1 & H2 & _).
    { intros C. vm_compute in C. discriminate C. }
    { intros C. vm_compute in C. discriminate C. }
    exists r. split; [exact E|]. split; [exact H1 | exact H2].
Defined.

(** * Further properties *)

(** ** AppsManager *)

Lemma dict_get_set_same {V} (d : list (Z * V)) k v :
  dict_get (dict_set d k v) k = Some v.
Proof.
  unfold dict_get. induction d as [|[k' v'] d IH]; simpl.
  - rewrite Z.eqb_refl. reflexivity.
  - destruct (k' =? k) eqn:E; simpl.
    + rewrite Z.eqb_refl. reflexivity.
    + rewrite E. exact IH.
Qed.

Lemma dict_get_set_other {V} (d : list (Z * V)) k k' v :
  k' <> k -> dict_get (dict_set d k v) k' = dict_get d k'.
Proof.
  intros Hne. unfold dict_get. induction d as [|[k0 v0] d IH]; simpl.
  - destruct (k =? k') eqn:E; [apply Z.eqb_eq in E; congruence | reflexivity].
  - destruct (k0 =? k) eqn:E; simpl.
    + apply Z.eqb_eq in E. subst k0.
      destruct (k =? k') eqn:E2; [apply Z.eqb_eq in E2; congruence | reflexivity].
    + destruct (k0 =? k'); [reflexivity | exact IH].
Qed.

Lemma assign_app_to_user_inv am uid am1 a :
  assign_app_to_user am uid = Ok (am1, a) ->
  app_of_user am uid = Ok a
  /\ am1 = mkAppsManager (apps am) (dict_set (user_app_map am) uid a)
             (users_per_app am).
Proof.
  unfold assign_app_to_user, app_of_user, py_floordiv, py_mod. intros H.
  destruct (users_per_app am =? 0); [discriminate|]. cbn [bind] in H.
  destruct (Z.of_nat (List.length (apps am)) =? 0); [discriminate|].
  cbn [bind] in H.
  destruct (py_index (apps am) _) as [a0|e]; [|discriminate].
  cbn [bind] in H. injection H as <- <-. auto.
Qed.

Lemma get_app_for_user_consistent am uid am1 a :
  cache_consistent am ->
  get_app_for_user am uid = Ok (am1, a) ->
  app_of_user am uid = Ok a
  /\ apps am1 = apps am
  /\ users_per_app am1 = users_per_app am
  /\ cache_consistent am1
  /\ dict_get (user_app_map am1) uid = Some a
  /\ (forall uid' b, dict_get (user_app_map am) uid' = Some b ->
        dict_get (user_app_map am1) uid' = Some b).
Proof.
  intros Hc H. unfold get_app_for_user in H.
  destruct (dict_get (user_app_map am) uid) as [b|] eqn:Eg.
  - injection H as <- <-. repeat split; auto.
  - apply assign_app_to_user_inv in H as [Ha ->]. simpl.
    repeat split; auto.
    + intros uid' b. unfold app_of_user. simpl.
      destruct (Z.eq_dec uid' uid) as [->|Hne].
      * rewrite dict_get_set_same. intros [= <-]. exact Ha.
      * rewrite dict_get_set_other by exact Hne. apply Hc.
    + apply dict_get_set_same.
    + intros uid' b Hb. destruct (Z.eq_dec uid' uid) as [->|Hne];
        [congruence|]. rewrite dict_get_set_other by exact Hne. exact Hb.
Qed.

Lemma load_entries_round_trip l : forall acc,
  load_entries acc (map entry_of l) = Ok (acc ++ l).
Proof.
  induction l as [|a l IH]; intros acc; simpl.
  - now rewrite app_nil_r.
  - rewrite IH, <- app_assoc. destruct a; reflexivity.
Qed.

Lemma load_entries_missing_key d rest key : forall acc,
  first_missing_key d = Some key ->
  load_entries acc (d :: rest) = Raise (KeyError key).
Proof.
  intros acc H. unfold first_missing_key in H. simpl.
  destruct (ad_systemPrompt d); [|injection H as <-; reflexivity].
  destruct (ad_tools d); [|injection H as <-; reflexivity].
  destruct (ad_ragDocs d); [discriminate|injection H as <-; reflexivity].
Qed.

Lemma load_entries_app l1 l2 : forall acc,
  load_entries acc (map entry_of l1 ++ l2) = load_entries (acc ++ l1) l2.
Proof.
  induction l1 as [|a l1 IH]; intros acc; simpl.
  - now rewrite app_nil_r.
  - rewrite IH, <- app_assoc. destruct a; reflexivity.
Qed.

(** X1.  [_load_apps] reads the entries in order.  A file whose entries all
    have the three keys adds exactly these apps, in order, after the ones the
    manager holds; the first entry that lacks a key raises [KeyError] on the
    first key it lacks, whatever follows; a file that cannot be opened or
    parsed raises. *)
Theorem _load_apps_reads_entries_in_order self :
  (forall l, _load_apps self (Parsed (map entry_of l))
             = Ok (mkAppsManager (apps self ++ l) (user_app_map self)
                     (users_per_app self)))
  /\ (forall l d rest key,
        first_missing_key d = Some key ->
        _load_apps self (Parsed (map entry_of l ++ d :: rest))
        = Raise (KeyError key))
  /\ _load_apps self Unreadable = Raise FileError.
Proof.
  split; [|split].
  - intros l. unfold _load_apps. rewrite load_entries_round_trip. reflexivity.
  - intros l d rest key H. unfold _load_apps.
    rewrite load_entries_app, (load_entries_missing_key _ _ _ _ H). reflexivity.
  - reflexivity.
Qed.

Lemma AppsManager_init_consistent file upa am :
  AppsManager_init file upa = Ok am ->
  cache_consistent am /\ users_per_app am = upa.
Proof.
  unfold AppsManager_init, _load_apps. destruct file as [|entries]; [discriminate|].
  intros H. apply bind_Ok_inv in H as (l & _ & H). injection H as <-.
  split; [|reflexivity]. intros uid a H. discriminate H.
Qed.

Lemma get_apps_consistent uids : forall am am1 l,
  cache_consistent am ->
  get_apps am uids = Ok (am1, l) ->
  apps am1 = apps am
  /\ users_per_app am1 = users_per_app am
  /\ cache_consistent am1
  /\ Forall2 (fun uid a => app_of_user am uid = Ok a) uids l
  /\ (forall uid b, dict_get (user_app_map am) uid = Some b ->
        dict_get (user_app_map am1) uid = Some b)
  /\ Forall2 (fun uid a => dict_get (user_app_map am1) uid = Some a) uids l.
Proof.
  induction uids as [|uid rest IH]; intros am am1 l Hc H; simpl in H.
  - injection H as <- <-. repeat split; auto.
  - apply bind_Ok_inv in H as ([am2 a] & Hg & H).
    apply bind_Ok_inv in H as ([am3 l'] & Hr & H). injection H as <- <-.
    apply get_app_for_user_consistent in Hg
      as (Ha & Eapps & Eupa & Hc2 & Hin & Hkeep); [|exact Hc].
    destruct (IH _ _ _ Hc2 Hr) as (Eapps' & Eupa' & Hc3 & Hall & Hkeep' & Hcached).
    split; [congruence|]. split; [congruence|]. split; [exact Hc3|].
    split; [|split].
    + constructor; [exact Ha|].
      eapply Forall2_impl; [|exact Hall]. intros u b.
      unfold app_of_user. now rewrite Eapps, Eupa.
    + intros u b Hb. apply Hkeep', Hkeep, Hb.
    + constructor; [apply Hkeep', Hin | exact Hcached].
Qed.

Lemma Forall2_combine_In {A B} (P : A -> B -> Prop) l1 l2 a b :
  Forall2 P l1 l2 -> In (a, b) (combine l1 l2) -> P a b.
Proof.
  induction 1 as [|x y l1 l2 Hxy _ IH]; simpl; [contradiction|].
  intros [[= <- <-] | H]; auto.
Qed.

Lemma py_index_In {A} (l : list A) i a : py_index l i = Ok a -> In a l.
Proof.
  unfold py_index. destruct (_ || _); [discriminate|].
  destruct (nth_error l _) eqn:E; [|discriminate].
  intros [= <-]. eapply nth_error_In; eauto.
Qed.

(** X2.  Which app a user gets depends on the user id alone.  On a manager
    as its constructor leaves it, whatever the order and repetition of the
    calls of [get_app_for_user], each user gets the app of index
    [(user_id // users_per_app) % len(apps)], an app of the pool; two users of
    the same block of [users_per_app] ids get the same app; and the pool is
    left as loaded. *)
Theorem apps_assigned_by_block file upa am0 uids am l :
  AppsManager_init file upa = Ok am0 ->
  get_apps am0 uids = Ok (am, l) ->
  apps am = apps am0
  /\ Forall2 (fun uid a => app_of_user am0 uid = Ok a /\ In a (apps am0)) uids l
  /\ (forall uid1 a1 uid2 a2,
        In (uid1, a1) (combine uids l) -> In (uid2, a2) (combine uids l) ->
        uid1 / upa = uid2 / upa -> a1 = a2).
Proof.
  intros Hi Hg. apply AppsManager_init_consistent in Hi as [Hc Hu].
  apply get_apps_consistent in Hg as (Ea & _ & _ & Hall & _ & _); [|exact Hc].
  split; [exact Ea|]. split.
  - eapply Forall2_impl; [|exact Hall]. intros uid a H.
    split; [exact H|]. unfold app_of_user in H. eapply py_index_In; eauto.
  - intros uid1 a1 uid2 a2 H1 H2 Hb.
    apply (Forall2_combine_In _ _ _ _ _ Hall) in H1.
    apply (Forall2_combine_In _ _ _ _ _ Hall) in H2.
    unfold app_of_user in H1, H2. rewrite Hu, Hb in H1. rewrite Hu in H2.
    congruence.
Qed.

(** X3.  [get_app_for_user] is memoised: a call that returned an app
    returns the same app when repeated, without changing the manager again,
    and it leaves the apps of the other users in the map as they were. *)
Theorem get_app_for_user_memoised am uid am1 a :
  get_app_for_user am uid = Ok (am1, a) ->
  get_app_for_user am1 uid = Ok (am1, a)
  /\ (forall uid' b, uid' <> uid ->
        dict_get (user_app_map am) uid' = Some b ->
        dict_get (user_app_map am1) uid' = Some b).
Proof.
  unfold get_app_for_user. intros H.
  destruct (dict_get (user_app_map am) uid) as [b|] eqn:Eg.
  - injection H as <- <-. rewrite Eg. auto.
  - apply assign_app_to_user_inv in H as [_ ->]. simpl.
    rewrite dict_get_set_same. split; [reflexivity|].
    intros uid' b Hne Hb. rewrite dict_get_set_other by exact Hne. exact Hb.
Qed.

(** X4.  [assign_app_to_user] succeeds exactly on a non-empty pool with a
    non-zero [users_per_app], for every user id, negative ones and negative
    block sizes included; in the other cases it raises a division by zero. *)
Theorem assign_app_to_user_succeeds_iff am uid :
  (apps am <> [] /\ users_per_app am <> 0 ->
     exists am1 a, assign_app_to_user am uid = Ok (am1, a))
  /\ (apps am = [] \/ users_per_app am = 0 ->
      assign_app_to_user am uid = Raise ZeroDivisionError).
Proof.
  split.
  - intros [Ha Hu]. destruct (assign_app_to_user_ok am uid Ha Hu) as [a E].
    eauto.
  - intros H. unfold assign_app_to_user, py_floordiv, py_mod.
    destruct (users_per_app am =? 0) eqn:Eu; [reflexivity|].
    destruct H as [Ha | Hu]; [|apply Z.eqb_neq in Eu; contradiction].
    rewrite Ha. reflexivity.
Qed.

(** ** Back-dating a session *)

Lemma py_int_nonneg x : (0 <= x)%Q -> py_int x = Qfloor x.
Proof.
  intros H. unfold py_int. apply Qle_bool_iff in H. now rewrite H.
Qed.

(** The integer part of a rounded quotient is that of the quotient, or one
    more when the quotient rounds up to an integer. *)
Lemma floor_of_rounded (x : Q) :
  (0 <= x)%Q -> (x < inject_Z (2 ^ 53))%Q ->
  Qfloor x <= Qfloor (fl x) <= Qfloor x + 1
  /\ (Qfloor (fl x) = Qfloor x + 1 -> (fl x == inject_Z (Qfloor x + 1))%Q).
Proof.
  intros H0 H53. set (e := Qfloor x).
  pose proof (Qfloor_le x) as Hlo. pose proof (Qlt_floor x) as Hhi.
  fold e in Hlo, Hhi.
  assert (He0 : 0 <= e).
  { unfold e. rewrite <- (Qfloor_Z 0). apply Qfloor_resp_le. exact H0. }
  assert (He : e < 2 ^ 53).
  { rewrite Zlt_Qlt. eapply Qle_lt_trans; eauto. }
  assert (L1 : (inject_Z e <= fl x)%Q).
  { rewrite <- (fl_Z e) by lia. apply fl_mono. exact Hlo. }
  assert (L2 : (fl x <= inject_Z (e + 1))%Q).
  { rewrite <- (fl_Z (e + 1)) by lia. apply fl_mono. apply Qlt_le_weak, Hhi. }
  pose proof (Qfloor_resp_le _ _ L1) as F1. rewrite Qfloor_Z in F1.
  pose proof (Qfloor_resp_le _ _ L2) as F2. rewrite Qfloor_Z in F2.
  split; [lia|]. intros E.
  apply Qle_antisym; [exact L2|].
  rewrite <- E. apply Qfloor_le.
Qed.

(** X5.  [set_internal_state] on a non-negative offset, with a positive gap
    between requests, changes the question counter and the time of the last
    request, and nothing else.  The counter is one more than the integer part
    of the quotient [offset / gap] as the floats give it, at least 1; for
    fewer than [2 ^ 53] gaps it is the number of whole gaps in the offset
    plus one, or plus two when the quotient of the floats rounds up to an
    integer.  An offset of zero gives the counter 1 and the present time. *)
Theorem set_internal_state_within_one_gap s offset t s' :
  set_internal_state s offset t = Ok s' ->
  (0 <= offset)%Q ->
  (0 < gap_between_requests (user_config s))%Q ->
  (offset / gap_between_requests (user_config s) < inject_Z (2 ^ 53))%Q ->
  let gap := gap_between_requests (user_config s) in
  let k := Qfloor (fdiv offset gap) in
  let whole_gaps := Qfloor (offset / gap) in
  s' = set_question_id
         (set_last_request_time s
            (Some (fadd (fsub t offset) (fmul (of_int k) gap))))
         (k + 1)
  /\ 1 <= question_id s'
  /\ whole_gaps + 1 <= question_id s' <= whole_gaps + 2
  /\ (question_id s' = whole_gaps + 2 ->
      (fdiv offset gap == inject_Z (whole_gaps + 1))%Q)
  /\ ((offset == 0)%Q ->
      question_id s' = 1 /\ last_request_time s' = Some (fl t)).
Proof.
  intros H Ho Hg H53 gap k whole_gaps. unfold set_internal_state in H.
  apply bind_Ok_inv in H as (u & _ & H).
  apply bind_Ok_inv in H as (q & Hq & H). injection H as <-.
  unfold py_truediv in Hq. fold gap in Hq.
  destruct (Qeq_bool gap 0); [discriminate|]. injection Hq as <-.
  assert (Hx0 : (0 <= offset / gap)%Q).
  { apply Qle_shift_div_l; [exact Hg|]. lra. }
  assert (Hq0 : (0 <= fdiv offset gap)%Q) by (apply fl_nonneg, Hx0).
  rewrite (py_int_nonneg _ Hq0). fold gap k.
  replace (k + 1 - 1) with k by lia.
  destruct (floor_of_rounded (offset / gap) Hx0 H53) as [Hk Hup].
  fold whole_gaps in Hk, Hup. change (Qfloor (fl (offset / gap))) with k in Hk, Hup.
  assert (Hw : 0 <= whole_gaps).
  { unfold whole_gaps. rewrite <- (Qfloor_Z 0). apply Qfloor_resp_le. exact Hx0. }
  split; [reflexivity|]. cbn [question_id set_question_id last_request_time
                               set_last_request_time].
  split; [lia|]. split; [lia|]. split.
  - intros E. apply Hup. lia.
  - intros E0.
    assert (Ek : k = 0).
    { unfold k, fdiv. rewrite (fl_comp (offset / gap) 0); [reflexivity|].
      rewrite E0. unfold Qdiv. ring. }
    split; [lia|]. rewrite Ek. f_equal. unfold fadd, fsub, fmul.
    rewrite (fl_comp (of_int 0 * gap) 0)
      by (replace (of_int 0) with 0%Q by (vm_compute; reflexivity); ring).
    rewrite fl_0.
    rewrite (fl_comp (fl (t - offset) + 0) (fl (t - offset))) by ring.
    rewrite fl_idem. apply fl_comp. rewrite E0. ring.
Qed.

(** X6.  [set_internal_state] refuses a session that already has a turn in
    its history, with an assertion error that leaves the session alone, and
    raises a division by zero on a session whose gap between requests is
    zero. *)
Theorem set_internal_state_errors s offset t :
  (chat_history s <> [] ->
     set_internal_state s offset t
     = Raise (AssertionError
                "Internal state should be set before the first request"))
  /\ (chat_history s = [] ->
      (gap_between_requests (user_config s) == 0)%Q ->
      set_internal_state s offset t = Raise ZeroDivisionError).
Proof.
  unfold set_internal_state, ChatHistory_len. split.
  - intros H. destruct (chat_history s); [contradiction|]. reflexivity.
  - intros -> Hg. simpl. unfold py_truediv.
    apply Qeq_bool_iff in Hg. rewrite Hg. reflexivity.
Qed.

(** ** The books of a session *)

Lemma _launch_new_request_inv s t rnd s' p :
  _launch_new_request s t rnd = Ok (s', p) ->
  exists prompt h,
    on_user_query (chat_history s) prompt = Ok h
    /\ s' = set_last_request_time
              (set_has_unfinished_request
                 (set_chat_history (set_question_id s (question_id s + 1)) h)
                 true)
              (Some t)
    /\ pr_messages p = h.
Proof.
  unfold _launch_new_request. intros H.
  apply bind_Ok_inv in H as ([s1 prompt] & H1 & H).
  apply bind_Ok_inv in H as (h & Hh & H).
  apply bind_Ok_inv in H as (mt & Hmt & H).
  injection H as <- <-.
  apply next_prompt_fields in H1. subst s1. simpl in Hh. eauto.
Qed.

(** The four things a tick can do to a session. *)
Lemma step_cases s t rnd s' effs :
  step s t rnd = Ok (s', effs) ->
  (s' = set_finished s true /\ effs = [] /\ rounds_done s)
  \/ (s' = s /\ effs = [])
  \/ (s' = set_last_unfinished_log s t
      /\ effs = [Warning (unfinished_warning s)]
      /\ has_unfinished_request s = true)
  \/ (exists p, effs = [Launch p]
      /\ _launch_new_request s t rnd = Ok (s', p)
      /\ ~ rounds_done s
      /\ (last_request_time s = None \/ has_unfinished_request s = false)).
Proof.
  unfold step. intros H.
  destruct ((uc_num_rounds (user_config s) <=? question_id s)
            && negb (has_unfinished_request s)) eqn:Ed.
  - injection H as <- <-. left. apply rounds_done_test in Ed. auto.
  - assert (Hn : ~ rounds_done s).
    { intros Hd. apply rounds_done_test in Hd. congruence. }
    destruct (last_request_time s) as [last|].
    + destruct (Qgtb (t - last) _).
      * destruct (has_unfinished_request s) eqn:Eu.
        -- destruct (Qgtb _ 10); injection H as <- <-; auto 10.
        -- apply bind_Ok_inv in H as ([s1 p] & Hl & H). injection H as <- <-.
           right. right. right. exists p. auto.
      * injection H as <- <-. auto.
    + apply bind_Ok_inv in H as ([s1 p] & Hl & H). injection H as <- <-.
      right. right. right. exists p. auto.
Qed.

Lemma on_future_done_cases s x :
  on_future_done s x = s
  \/ exists r h,
       x = Ok r
       /\ on_system_response (chat_history s) (body r) = Ok h
       /\ on_future_done s x
          = _update_result
              (set_has_unfinished_request (set_chat_history s h) false) r.
Proof.
  unfold on_future_done, run_done_callback, real_callback.
  destruct x as [r|e]; [|left; reflexivity]. cbn [bind].
  unfold _on_request_finished.
  destruct (on_system_response (chat_history s) (body r)) as [h|e] eqn:E;
    [|left; reflexivity].
  right. exists r, h. auto.
Qed.

Lemma on_user_query_length h q h' :
  on_user_query h q = Ok h' -> List.length h' = S (List.length h).
Proof.
  unfold on_user_query. destruct (_ =? _).
  - intros [= <-]. rewrite length_app. simpl. lia.
  - intros H. apply bind_Ok_inv in H as (u & _ & H). injection H as <-.
    rewrite length_app. simpl. lia.
Qed.

Lemma on_system_response_length h q h' :
  on_system_response h q = Ok h' -> List.length h' = S (List.length h).
Proof.
  unfold on_system_response. intros H.
  apply bind_Ok_inv in H as (u & _ & H). apply bind_Ok_inv in H as (u' & _ & H).
  injection H as <-. rewrite length_app. simpl. lia.
Qed.

Lemma step_books s0 s flight t rnd s' effs :
  session_books s0 s flight ->
  step s t rnd = Ok (s', effs) ->
  session_books s0 s' (flight ++ launches effs).
Proof.
  intros Hb Hs.
  destruct Hb as (Hc & Hn & Hf & Hl & Ha & L1 & L2 & L3 & L4 & L5 & Hq & Hm).
  apply step_cases in Hs
    as [(-> & -> & _) | [(-> & ->) | [(-> & -> & _) | (p & -> & Hl' & Hnd & Hfree)]]];
    simpl; rewrite ?app_nil_r; unfold session_books; simpl;
    try (repeat split; assumption).
  assert (Hu : has_unfinished_request s = false).
  { destruct Hfree as [E|E]; auto. }
  assert (Hlt : question_id s < uc_num_rounds (user_config s)).
  { destruct (Z_lt_ge_dec (question_id s) (uc_num_rounds (user_config s)))
      as [?|Hge]; [assumption|].
    exfalso. apply Hnd. split; [lia | exact Hu]. }
  apply _launch_new_request_inv in Hl' as (prompt & h & Hh & -> & _).
  rewrite Hu in *. simpl in *.
  pose proof (on_user_query_length _ _ _ Hh) as Hlen.
  pose proof (on_user_query_alternates _ _ _ Ha Hh) as Ha'.
  assert (Hfl : flight = []) by (destruct flight; [reflexivity | simpl in Hf; lia]).
  subst flight. simpl.
  repeat split; auto; try congruence; try lia.
  rewrite Hc in Hlt. lia.
Qed.

Lemma on_future_done_books s0 s flight i p x :
  session_books s0 s flight ->
  nth_error flight i = Some p ->
  session_books s0 (on_future_done s x) (remove_nth i flight).
Proof.
  intros Hb Hi.
  destruct Hb as (Hc & Hn & Hf & Hl & Ha & L1 & L2 & L3 & L4 & L5 & Hq & Hm).
  pose proof (length_remove_nth _ _ _ Hi) as Hrem.
  assert (Hu : has_unfinished_request s = true).
  { destruct (has_unfinished_request s); [reflexivity|]. simpl in Hf. lia. }
  rewrite Hu in *.
  destruct (on_future_done_cases s x) as [-> | (r & h & -> & Hh & ->)].
  - unfold session_books. rewrite Hu. repeat split; auto. lia.
  - pose proof (on_system_response_length _ _ _ Hh) as Hlen.
    pose proof (on_system_response_alternates _ _ _ Ha Hh) as Ha'.
    unfold session_books. simpl. rewrite !length_app. simpl.
    repeat split; auto; try congruence; try lia.
Qed.

Lemma play_books s0 events : forall s flight s' flight',
  session_books s0 s flight ->
  play s flight events = Some (s', flight') ->
  session_books s0 s' flight'.
Proof.
  induction events as [|[t rnd|i x] rest IH]; intros s flight s' flight' Hb H;
    simpl in H.
  - injection H as <- <-. exact Hb.
  - destruct (step s t rnd) as [[s1 effs]|e] eqn:Es; [|discriminate].
    eapply IH; [|exact H]. eapply step_books; eauto.
  - destruct (nth_error flight i) as [p|] eqn:Ei; [|discriminate].
    eapply IH; [|exact H]. eapply on_future_done_books; eauto.
Qed.

Lemma before_first_round_books s0 :
  before_first_round s0 -> session_books s0 s0 [].
Proof.
  intros (Hh & Hu & E1 & E2 & E3 & E4 & E5 & E6).
  unfold session_books. rewrite Hh, Hu, E1, E2, E3, E4, E5, E6. simpl.
  repeat split; auto; try lia. constructor.
Qed.

Lemma summary_rows_columns uid : forall pl gl tf gt lt ft i,
  List.length gl = List.length pl ->
  List.length tf = List.length pl ->
  List.length gt = List.length pl ->
  List.length lt = List.length pl ->
  List.length ft = List.length pl ->
  let df := summary_rows uid i pl gl tf gt lt ft in
  map r_prompt_tokens df = pl
  /\ map r_generation_tokens df = gl
  /\ map r_ttft df = tf
  /\ map r_generation_time df = gt
  /\ map r_launch_time df = lt
  /\ map r_finish_time df = ft
  /\ map r_user_id df = repeat uid (List.length pl)
  /\ map r_question_id df
     = map (fun k => i + Z.of_nat k) (seq 0 (List.length pl)).
Proof.
  induction pl as [|p pl IH];
    intros [|g gl] [|a tf] [|b gt] [|c lt] [|d ft] i H1 H2 H3 H4 H5;
    try discriminate; simpl.
  - repeat split; reflexivity.
  - injection H1 as H1. injection H2 as H2. injection H3 as H3.
    injection H4 as H4. injection H5 as H5.
    destruct (IH gl tf gt lt ft (i + 1) H1 H2 H3 H4 H5)
      as (E1 & E2 & E3 & E4 & E5 & E6 & E7 & E8).
    rewrite E1, E2, E3, E4, E5, E6, E7, E8, Z.add_0_r, <- seq_shift, map_map.
    repeat split; try reflexivity. f_equal. apply map_ext. intros k. lia.
Qed.

(** X7.  A session never fires more rounds than it has.  Along any run of
    whole ticks and whole done-callbacks, in any order, from a session before
    its first round (as created, or back-dated), the question counter has
    moved by one per round fired, completed or open, and is never beyond the
    greater of its starting value and [num_rounds]. *)
Theorem rounds_fired_never_exceed_num_rounds s0 events s flight :
  before_first_round s0 ->
  play s0 [] events = Some (s, flight) ->
  let fired := (List.length (prompt_lengths s)
                + if has_unfinished_request s then 1 else 0)%nat in
  question_id s = question_id s0 + Z.of_nat fired
  /\ question_id s <= Z.max (question_id s0) (uc_num_rounds (user_config s0))
  /\ user_config s = user_config s0.
Proof.
  intros H0 Hp. apply before_first_round_books in H0.
  destruct (play_books _ _ _ _ _ _ H0 Hp)
    as (Hc & _ & _ & _ & _ & _ & _ & _ & _ & _ & Hq & Hm).
  auto.
Qed.

(** X8.  The history and the result columns of a session stay in step.
    Along any run of whole ticks and whole done-callbacks from a session
    before its first round, the history alternates from a user turn and has
    two turns per completed round, and one more exactly while the flag
    [has_unfinished_request] is set; at most that one request is in flight. *)
Theorem history_has_two_turns_per_row s0 events s flight :
  before_first_round s0 ->
  play s0 [] events = Some (s, flight) ->
  alternates (chat_history s)
  /\ List.length (chat_history s)
     = (2 * List.length (prompt_lengths s)
        + if has_unfinished_request s then 1 else 0)%nat
  /\ (List.length flight <= if has_unfinished_request s then 1 else 0)%nat.
Proof.
  intros H0 Hp. apply before_first_round_books in H0.
  destruct (play_books _ _ _ _ _ _ H0 Hp)
    as (_ & _ & Hf & Hl & Ha & _).
  auto.
Qed.

(** X9.  [summary] loses nothing.  Along any such run the six columns of a
    session have one length, so that its summary has one row per completed
    round, gives back each column as recorded, carries the user id on every
    row and numbers the rows 1, 2, ... in the order of completion. *)
Theorem summary_gives_back_the_columns s0 events s flight :
  before_first_round s0 ->
  play s0 [] events = Some (s, flight) ->
  let df := UserSession_summary s in
  let n := List.length (prompt_lengths s) in
  List.length df = n
  /\ map r_prompt_tokens df = prompt_lengths s
  /\ map r_generation_tokens df = generation_lengths s
  /\ map r_ttft df = ttfts s
  /\ map r_generation_time df = generation_times s
  /\ map r_launch_time df = launch_times s
  /\ map r_finish_time df = finish_times s
  /\ map r_user_id df = repeat (user_id (user_config s0)) n
  /\ map r_question_id df = map (fun k => 1 + Z.of_nat k) (seq 0 n).
Proof.
  intros H0 Hp. apply before_first_round_books in H0.
  destruct (play_books _ _ _ _ _ _ H0 Hp)
    as (Hc & _ & _ & _ & _ & L1 & L2 & L3 & L4 & L5 & _).
  destruct (summary_rows_columns (user_id (user_config s)) _ _ _ _ _ _ 1
              L1 L2 L3 L4 L5) as (E1 & E2 & E3 & E4 & E5 & E6 & E7 & E8).
  unfold UserSession_summary. rewrite <- Hc.
  split; [|auto 10].
  rewrite <- (length_map r_prompt_tokens), E1. reflexivity.
Qed.

(** ** The history under the two threads *)

Lemma last_role_is_nonempty h r : last_role_is h r = true -> h <> [].
Proof. intros H ->. discriminate H. Qed.

Lemma last_role_is_exclusive h :
  last_role_is h "user" = true -> last_role_is h "assistant" = true -> False.
Proof.
  unfold last_role_is. destruct (py_index h (-1)) as [m|e]; [|discriminate].
  intros H1 H2. apply String.eqb_eq in H1. rewrite H1 in H2. discriminate H2.
Qed.

Lemma append_user_alternates h q :
  alternates h -> h = [] \/ last_role_is h "assistant" = true ->
  alternates (h ++ [mkMessage "user" q]).
Proof.
  intros Ha Hr. apply (on_user_query_alternates h q); [exact Ha|].
  apply on_user_query_ready. exact Hr.
Qed.

Lemma append_assistant_alternates h r :
  alternates h -> last_role_is h "user" = true ->
  alternates (h ++ [mkMessage "assistant" r]).
Proof.
  intros Ha Hr. apply (on_system_response_alternates h r); [exact Ha|].
  unfold on_system_response. rewrite Hr.
  destruct (0 <? Z.of_nat (List.length h)) eqn:E; [reflexivity|].
  apply Z.ltb_ge in E. destruct h; [discriminate Hr | simpl in E; lia].
Qed.

Lemma exec_appends_guarded w a w' :
  appends_guarded w -> exec w a = Some w' -> appends_guarded w'.
Proof.
  intros (Ha & Hc & Hl) H. destruct w as [s c l fl].
  unfold appends_guarded in *. simpl in *.
  destruct a as [t rnd| |i x|]; simpl in H.
  - unfold tick in H. simpl in H. destruct c; try discriminate.
    destruct (_ && _); [injection H as <-; simpl; auto|].
    destruct (last_request_time s); [destruct (Qgtb _ _)|];
      injection H as <-; simpl; auto.
  - unfold controller_step in H. simpl in H. destruct c; try discriminate.
    + destruct (has_unfinished_request s); [destruct (Qgtb _ _)|];
        injection H as <-; simpl; auto.
    + destruct (next_prompt s rnd) as [[s1 prompt]|e] eqn:En;
        injection H as <-; simpl; auto.
      apply next_prompt_fields in En. subst s1. simpl. auto.
    + destruct (Z.of_nat (List.length (chat_history s)) =? 0) eqn:E;
        injection H as <-; simpl; auto.
      repeat split; auto. left.
      apply Z.eqb_eq in E. destruct (chat_history s); [reflexivity | simpl in E; lia].
    + destruct (last_role_is (chat_history s) "assistant") eqn:E;
        injection H as <-; simpl; auto.
    + injection H as <-. simpl. split; [apply append_user_alternates; auto|].
      split; [exact I|]. destruct l; auto. apply last_role_is_snoc.
    + destruct (round_max_tokens s); injection H as <-; simpl; auto.
    + injection H as <-. simpl. auto.
  - unfold completes in H. simpl in H. destruct l; try discriminate.
    destruct (nth_error fl i); [|discriminate]. injection H as <-. simpl.
    destruct x; auto.
  - unfold event_loop_step in H. simpl in H. destruct l; try discriminate.
    + destruct (0 <? _); injection H as <-; simpl; auto.
    + destruct (last_role_is (chat_history s) "user") eqn:E;
        injection H as <-; simpl; auto.
    + injection H as <-. simpl. split; [apply append_assistant_alternates; auto|].
      split; [|exact I]. destruct c; auto. right. apply last_role_is_snoc.
    + injection H as <-. simpl. auto.
    + injection H as <-. simpl. auto.
Qed.

Lemma exec_all_appends_guarded actions : forall w w',
  appends_guarded w -> exec_all w actions = Some w' -> appends_guarded w'.
Proof.
  induction actions as [|a rest IH]; intros w w' Hg H; simpl in H.
  - injection H as <-. exact Hg.
  - destruct (exec w a) as [w1|] eqn:E; [|discriminate].
    eapply IH; [|exact H]. eapply exec_appends_guarded; eauto.
Qed.

(** X10.  The history keeps its alternation under the two threads.  From a
    session whose history alternates, whatever the interleaving of the pieces
    of [step] on the controller thread and of the done-callbacks on the event
    loop, the history never holds two consecutive turns of one role and never
    starts with an assistant turn: between the test of the last turn and the
    append that follows it on one thread, an append of the other thread
    cannot come. *)
Theorem history_alternates_under_interleaving s0 actions w :
  alternates (chat_history s0) ->
  exec_all (initial_world s0) actions = Some w ->
  no_two_consecutive_same_role (chat_history (session w))
  /\ never_starts_with_assistant (chat_history (session w)).
Proof.
  intros H0 Hrun.
  assert (Hg : appends_guarded (initial_world s0)).
  { unfold appends_guarded. simpl. auto. }
  destruct (exec_all_appends_guarded _ _ _ Hg Hrun) as (Ha & _).
  split; [apply alternates_no_two_consecutive | apply alternates_head]; exact Ha.
Qed.

(** ** The population of the manager *)

Lemma _launch_new_request_keeps s t rnd s' p :
  _launch_new_request s t rnd = Ok (s', p) ->
  user_config s' = user_config s
  /\ finished s' = finished s
  /\ UserSession_summary s' = UserSession_summary s.
Proof.
  intros H. apply _launch_new_request_inv in H as (prompt & h & _ & -> & _).
  repeat split.
Qed.

(** What a tick leaves of a session: its configuration and its rows; and
    the session is finished after the tick only if the tick finished it or
    it was so before. *)
Lemma step_keeps s t rnd s' effs :
  step s t rnd = Ok (s', effs) ->
  user_config s' = user_config s
  /\ UserSession_summary s' = UserSession_summary s
  /\ (finished s' = true -> finished s = true \/ rounds_done s).
Proof.
  intros H. apply step_cases in H
    as [(-> & _ & Hd) | [(-> & _) | [(-> & _ & _) | (p & _ & Hl & _ & _)]]];
    try (repeat split; auto; fail).
  apply _launch_new_request_keeps in Hl as (E1 & E2 & E3).
  repeat split; auto. rewrite E2. auto.
Qed.

Lemma step_sessions_keeps t rng : forall l l' effs,
  step_sessions l t rng = Ok (l', effs) ->
  map user_config l' = map user_config l
  /\ map UserSession_summary l' = map UserSession_summary l.
Proof.
  induction l as [|s l IH]; intros l' effs H; simpl in H.
  - injection H as <- <-. auto.
  - apply bind_Ok_inv in H as ([s1 e1] & Hs & H).
    apply bind_Ok_inv in H as ([l1 e2] & Hl & H). injection H as <- <-.
    apply step_keeps in Hs as (E1 & E2 & _).
    destruct (IH _ _ Hl) as [E3 E4]. simpl. split; congruence.
Qed.

Lemma on_future_done_keeps s x :
  user_config (on_future_done s x) = user_config s
  /\ finished (on_future_done s x) = finished s.
Proof.
  destruct (on_future_done_cases s x) as [-> | (r & h & _ & _ & ->)]; auto.
Qed.

Lemma map_user_id_of_config l l' :
  map user_config l' = map user_config l ->
  map session_user_id l' = map session_user_id l.
Proof.
  intros H. unfold session_user_id.
  rewrite <- (map_map user_config user_id l), <- (map_map user_config user_id l').
  now rewrite H.
Qed.

Lemma StronglySorted_filter_map {A} (f : A -> Z) (p : A -> bool) l :
  StronglySorted Z.lt (map f l) -> StronglySorted Z.lt (map f (filter p l)).
Proof.
  induction l as [|a l IH]; simpl; intros H; [constructor|].
  apply StronglySorted_inv in H as [Hs Hall].
  destruct (p a); [|auto]. simpl. constructor; [auto|].
  rewrite Forall_forall in *. intros x Hx. apply Hall.
  apply in_map_iff in Hx as (y & <- & Hy). apply filter_In in Hy as [Hy _].
  apply in_map. exact Hy.
Qed.

Lemma StronglySorted_snoc (l : list Z) (x : Z) :
  StronglySorted Z.lt l -> Forall (fun y => y < x) l ->
  StronglySorted Z.lt (l ++ [x]).
Proof.
  induction l as [|a l IH]; simpl; intros Hs Hall.
  - constructor; constructor.
  - apply StronglySorted_inv in Hs as [Hs Ha].
    inversion Hall as [|? ? Hax Hrest]; subst.
    constructor; [auto|]. apply Forall_app. split; [exact Ha|].
    constructor; [exact Hax | constructor].
Qed.

Lemma all_rows_snoc m l s :
  UserSession_summary s = [] ->
  List.concat (session_summaries m ++ map UserSession_summary (l ++ [s]))
  = List.concat (session_summaries m ++ map UserSession_summary l).
Proof.
  intros H. rewrite map_app, app_assoc, concat_app. simpl.
  now rewrite H, !app_nil_r.
Qed.

Lemma _create_user_session_core m m1 s :
  population_core m ->
  _create_user_session m = Ok (m1, s) ->
  population_core m1
  /\ List.length (sessions m1) = S (List.length (sessions m))
  /\ all_rows m1 = all_rows m.
Proof.
  intros (Hs & Hb & Hf) Hc.
  apply _create_user_session_created in Hc
    as (_ & _ & _ & _ & _ & _ & _ & Hsum & Hid & Hse & Has & Huid & _).
  assert (Hfin : finished s = false) by (rewrite <- Has; reflexivity).
  assert (Hrows : UserSession_summary s = []) by (rewrite <- Has; reflexivity).
  unfold population_core, all_rows. rewrite Hse, Hid, Hsum.
  split; [|split].
  - split; [|split].
    + rewrite map_app. simpl. apply StronglySorted_snoc; [exact Hs|].
      rewrite Forall_map. eapply Forall_impl; [|exact Hb].
      intros x Hx. simpl in Hx. unfold session_user_id in *. rewrite Huid. lia.
    + apply Forall_app. split.
      * eapply Forall_impl; [|exact Hb]. intros x Hx. simpl in Hx. lia.
      * constructor; [unfold session_user_id; rewrite Huid; lia | constructor].
    + apply Forall_app. split; [exact Hf | constructor; [exact Hfin | constructor]].
  - rewrite length_app. simpl. lia.
  - apply all_rows_snoc. exact Hrows.
Qed.

Lemma set_internal_state_keeps s offset t s' :
  set_internal_state s offset t = Ok s' ->
  user_config s' = user_config s
  /\ finished s' = finished s
  /\ UserSession_summary s' = UserSession_summary s.
Proof.
  unfold set_internal_state. intros H.
  apply bind_Ok_inv in H as (u & _ & H). apply bind_Ok_inv in H as (q & _ & H).
  injection H as <-. repeat split.
Qed.

Lemma population_core_replace_last m l s s' :
  sessions m = l ++ [s] ->
  user_config s' = user_config s ->
  finished s' = finished s ->
  UserSession_summary s' = UserSession_summary s ->
  population_core m ->
  population_core (set_sessions m (replace_last (sessions m) s'))
  /\ List.length (sessions (set_sessions m (replace_last (sessions m) s')))
     = List.length (sessions m)
  /\ all_rows (set_sessions m (replace_last (sessions m) s')) = all_rows m.
Proof.
  intros Hse Hc Hf Hr (Hs & Hb & Hu). unfold population_core, all_rows. simpl.
  rewrite Hse, replace_last_snoc in *.
  rewrite map_app in *. simpl in *.
  apply Forall_app in Hb as [Hb1 Hb2]. apply Forall_app in Hu as [Hu1 Hu2].
  inversion Hb2; subst. inversion Hu2; subst.
  assert (Eu : session_user_id s' = session_user_id s)
    by (unfold session_user_id; now rewrite Hc).
  rewrite Eu. split; [split; [exact Hs | split]|split].
  - apply Forall_app. split; [exact Hb1|]. constructor; [|constructor].
    rewrite Eu. assumption.
  - apply Forall_app. split; [exact Hu1|]. constructor; [|constructor]. congruence.
  - rewrite !length_app. reflexivity.
  - rewrite !map_app. simpl. now rewrite Hr.
Qed.

Lemma ramp_up_loop_core t R : forall indices m m',
  population_core m ->
  ramp_up_loop m t R indices = Ok m' ->
  population_core m'
  /\ (List.length (sessions m')
      <= List.length (sessions m) + List.length indices)%nat
  /\ all_rows m' = all_rows m.
Proof.
  induction indices as [|i rest IH]; intros m m' Hp H; simpl in H.
  - injection H as <-. repeat split; try apply Hp. lia.
  - apply bind_Ok_inv in H as ([m1 s] & Hc & H).
    pose proof (_create_user_session_created _ _ _ Hc)
      as (_ & _ & _ & _ & _ & _ & _ & _ & _ & Hse & _).
    apply (_create_user_session_core _ _ _ Hp) in Hc as (Hp1 & Hlen1 & Hrows1).
    assert (Hp1' : population_core (set_last_user_join m1 t)) by exact Hp1.
    cbn [gap_between_users set_last_user_join] in H.
    destruct (Qgtb 0 _) in H.
    + injection H as <-. split; [exact Hp1'|]. simpl. split; [lia | exact Hrows1].
    + apply bind_Ok_inv in H as (s' & Hs & H).
      apply set_internal_state_keeps in Hs as (Ec & Ef & Er).
      destruct (population_core_replace_last (set_last_user_join m1 t)
                  (sessions m) s s' Hse Ec Ef Er Hp1') as (Hp2 & Hlen2 & Hrows2).
      apply IH in H as (Hp3 & Hlen3 & Hrows3); [|exact Hp2].
      split; [exact Hp3|]. simpl in *. split; [lia|].
      rewrite Hrows3, Hrows2. exact Hrows1.
Qed.

Lemma concat_filter_Permutation {A B} (f : A -> list B) (p : A -> bool) l :
  Permutation (List.concat (map f l))
    (List.concat (map f (filter p l))
     ++ List.concat (map f (filter (fun x => negb (p x)) l))).
Proof.
  induction l as [|a l IH]; simpl; [constructor|].
  destruct (p a); simpl.
  - rewrite <- app_assoc. apply Permutation_app_head. exact IH.
  - rewrite IH. rewrite !app_assoc. apply Permutation_app_tail.
    apply Permutation_app_comm.
Qed.

Lemma _remove_finished_sessions_rows m :
  Permutation (all_rows m) (all_rows (_remove_finished_sessions m)).
Proof.
  unfold all_rows, _remove_finished_sessions. simpl.
  rewrite !concat_app, <- app_assoc. apply Permutation_app_head.
  apply concat_filter_Permutation.
Qed.

Lemma _remove_finished_sessions_core m :
  StronglySorted Z.lt (map session_user_id (sessions m)) ->
  Forall (fun s => session_user_id s <= mgr_user_id m) (sessions m) ->
  population_core (_remove_finished_sessions m)
  /\ (List.length (sessions (_remove_finished_sessions m))
      <= List.length (sessions m))%nat.
Proof.
  intros Hs Hb. unfold population_core, _remove_finished_sessions. simpl.
  split; [split; [|split]|].
  - apply StronglySorted_filter_map. exact Hs.
  - rewrite Forall_forall in *. intros x Hx. apply filter_In in Hx as [Hx _].
    auto.
  - rewrite Forall_forall. intros x Hx. apply filter_In in Hx as [_ Hx].
    now apply negb_true_iff in Hx.
  - apply filter_length_le.
Qed.

Lemma ramp_up_loop_archive t R : forall indices m m',
  ramp_up_loop m t R indices = Ok m' ->
  session_summaries m' = session_summaries m.
Proof.
  induction indices as [|i rest IH]; intros m m' H; simpl in H.
  - now injection H as <-.
  - apply bind_Ok_inv in H as ([m1 s] & Hc & H).
    apply _create_user_session_created in Hc
      as (_ & _ & _ & _ & _ & _ & _ & Hsum & _).
    cbn [gap_between_users set_last_user_join] in H.
    destruct (Qgtb 0 _) in H.
    + injection H as <-. exact Hsum.
    + apply bind_Ok_inv in H as (s' & _ & H). apply IH in H.
      simpl in H. congruence.
Qed.

Lemma step_population m t rng m' effs :
  population_ok m ->
  UserSessionManager_step m t rng = Ok (m', effs) ->
  population_ok m'
  /\ workload_config m' = workload_config m
  /\ Permutation (all_rows m) (all_rows m')
  /\ exists archived, session_summaries m' = session_summaries m ++ archived.
Proof.
  intros (Hs & Hb & Hf & Hempty & Hlen) H.
  unfold UserSessionManager_step in H.
  apply bind_Ok_inv in H as (mr & Hr & H).
  (* ramp-up *)
  assert (R : population_core mr
              /\ (List.length (sessions mr)
                  <= Z.to_nat (num_users (workload_config m)))%nat
              /\ all_rows mr = all_rows m
              /\ workload_config mr = workload_config m
              /\ session_summaries mr = session_summaries m).
  { destruct (need_ramp_up m) eqn:En.
    - unfold _ramp_up in Hr. apply bind_Ok_inv in Hr as (ml & Hl & Hr).
      injection Hr as <-.
      pose proof (ramp_up_loop_settings _ _ _ _ _ Hl) as ((Hw & _) & _ & _).
      assert (Hsum : all_rows ml = all_rows m /\ population_core ml
                     /\ (List.length (sessions ml)
                         <= List.length (sessions m)
                            + List.length
                                (seq 0 (Z.to_nat (num_users (workload_config m)))))%nat).
      { apply ramp_up_loop_core in Hl as (? & ? & ?); auto.
        unfold population_core. auto. }
      destruct Hsum as (Hrows & Hcore & Hl').
      rewrite (Hempty eq_refl), length_seq in Hl'. simpl in Hl'.
      pose proof (ramp_up_loop_archive _ _ _ _ _ Hl) as Hss.
      unfold population_core, all_rows in *. simpl. auto.
    - injection Hr as <-. unfold population_core. auto. }
  destruct R as (Hcore & Hlr & Hrows & Hwr & Hsr).
  (* the start time *)
  set (m0 := match start_time mr with
             | None => set_start_time mr (Some t)
             | Some _ => mr
             end) in H.
  assert (E0 : sessions m0 = sessions mr /\ mgr_user_id m0 = mgr_user_id mr
               /\ workload_config m0 = workload_config mr
               /\ session_summaries m0 = session_summaries mr).
  { unfold m0. destruct (start_time mr); simpl; auto. }
  destruct E0 as (Es0 & Eu0 & Ew0 & Ess0).
  assert (Hcore0 : population_core m0).
  { unfold population_core. rewrite Es0, Eu0. exact Hcore. }
  assert (Hrows0 : all_rows m0 = all_rows m).
  { unfold all_rows in *. rewrite Es0, Ess0. exact Hrows. }
  (* admission *)
  apply bind_Ok_inv in H as (ma & Ha & H).
  assert (A : population_core ma
              /\ (List.length (sessions ma)
                  <= Z.to_nat (num_users (workload_config m)))%nat
              /\ all_rows ma = all_rows m
              /\ workload_config ma = workload_config m
              /\ session_summaries ma = session_summaries m).
  { destruct ((Z.of_nat (List.length (sessions m0)) <? num_users (workload_config m0))
              && Qgtb (t - last_user_join m0) (gap_between_users m0)) eqn:Ec.
    - apply bind_Ok_inv in Ha as ([m2 s] & Hc & Ha). injection Ha as <-.
      apply andb_true_iff in Ec as [Ec _]. apply Z.ltb_lt in Ec.
      pose proof (_create_user_session_created _ _ _ Hc)
        as (Hw2 & _ & _ & _ & _ & _ & _ & Hsum2 & _).
      apply (_create_user_session_core _ _ _ Hcore0) in Hc as (Hc2 & Hl2 & Hr2).
      unfold population_core, all_rows in *. simpl.
      rewrite Ew0, Hwr in Ec.
      repeat split; try apply Hc2; try congruence. lia.
    - injection Ha as <-. rewrite Es0. repeat split; try apply Hcore0; congruence. }
  destruct A as (Hca & Hla & Hra & Hwa & Hsa).
  (* the sessions step, and the finished ones are removed *)
  apply bind_Ok_inv in H as ([l effs'] & Hst & H). injection H as <- _.
  apply step_sessions_keeps in Hst as [Ecfg Esum].
  pose proof (map_user_id_of_config _ _ Ecfg) as Euid.
  destruct Hca as (Hsa' & Hba & _).
  assert (Hsl : StronglySorted Z.lt (map session_user_id l)) by (rewrite Euid; exact Hsa').
  assert (Hbl : Forall (fun s => session_user_id s <= mgr_user_id ma) l).
  { rewrite <- (Forall_map session_user_id (fun u => u <= mgr_user_id ma)), Euid,
      Forall_map. exact Hba. }
  destruct (_remove_finished_sessions_core (set_sessions ma l) Hsl Hbl)
    as ((H1 & H2 & H3) & H4).
  assert (Hlen_l : List.length l = List.length (sessions ma)).
  { rewrite <- (length_map user_config l), Ecfg, length_map. reflexivity. }
  split; [|split; [|split]].
  - unfold population_ok. repeat split; auto.
    + intros E. unfold _remove_finished_sessions in E. simpl in E.
      exfalso. revert E.
      destruct (need_ramp_up m) eqn:En.
      * unfold _ramp_up in Hr. apply bind_Ok_inv in Hr as (ml & _ & Hr).
        injection Hr as <-.
        assert (need_ramp_up ma = false); [|congruence].
        clear - Ha. fold m0 in Ha.
        assert (need_ramp_up m0 = false)
          by (unfold m0; destruct (start_time _); reflexivity).
        destruct (_ && _) in Ha.
        -- apply bind_Ok_inv in Ha as ([m2 s] & Hc & Ha). injection Ha as <-.
           apply _create_user_session_created in Hc
             as (_ & _ & _ & _ & Hn & _). simpl. congruence.
        -- injection Ha as <-. assumption.
      * injection Hr as <-.
        assert (need_ramp_up ma = false); [|congruence].
        clear - Ha En. fold m0 in Ha.
        assert (need_ramp_up m0 = false)
          by (unfold m0; destruct (start_time _); simpl; exact En).
        destruct (_ && _) in Ha.
        -- apply bind_Ok_inv in Ha as ([m2 s] & Hc & Ha). injection Ha as <-.
           apply _create_user_session_created in Hc
             as (_ & _ & _ & _ & Hn & _). simpl. congruence.
        -- injection Ha as <-. assumption.
    + simpl. simpl in H4. rewrite Hwa. lia.
  - simpl. exact Hwa.
  - rewrite <- Hra.
    rewrite <- (_remove_finished_sessions_rows (set_sessions ma l)).
    unfold all_rows. simpl. rewrite Esum. reflexivity.
  - simpl. rewrite Hsa. eauto.
Qed.

Lemma deliver_population m uid x :
  population_ok m -> population_ok (deliver m uid x).
Proof.
  intros (Hs & Hb & Hf & Hempty & Hlen). unfold population_ok, deliver. simpl.
  set (f := fun s => if user_id (user_config s) =? uid
                     then on_future_done s x else s).
  assert (Ecfg : forall s, user_config (f s) = user_config s
                           /\ finished (f s) = finished s).
  { intros s. unfold f. destruct (_ =? _); [apply on_future_done_keeps | auto]. }
  assert (Euid : map session_user_id (map f (sessions m))
                 = map session_user_id (sessions m)).
  { rewrite map_map. apply map_ext. intros s. unfold session_user_id.
    now rewrite (proj1 (Ecfg s)). }
  rewrite Euid, length_map. repeat split; auto.
  - rewrite Forall_map. eapply Forall_impl; [|exact Hb]. intros s Hsb.
    unfold session_user_id in *. now rewrite (proj1 (Ecfg s)).
  - rewrite Forall_map. eapply Forall_impl; [|exact Hf]. intros s Hsf.
    now rewrite (proj2 (Ecfg s)).
  - intros E. rewrite (Hempty E). reflexivity.
Qed.

Lemma run_population events : forall m m',
  population_ok m -> run m events = Ok m' ->
  population_ok m' /\ workload_config m' = workload_config m.
Proof.
  induction events as [|[t rng|uid x] rest IH]; intros m m' Hp H; simpl in H.
  - injection H as <-. auto.
  - apply bind_Ok_inv in H as ([m1 effs] & Hs & H).
    apply (step_population _ _ _ _ _ Hp) in Hs as (Hp1 & Hw & _).
    destruct (IH _ _ Hp1 H) as [Hp' Hw']. split; [exact Hp' | congruence].
  - destruct (IH _ _ (deliver_population m uid x Hp) H) as [Hp' Hw'].
    split; [exact Hp' | exact Hw'].
Qed.

Lemma UserSessionManager_init_population file sf wc uid0 replay m :
  UserSessionManager_init file sf wc uid0 replay = Ok m ->
  population_ok m /\ workload_config m = wc.
Proof.
  unfold UserSessionManager_init. intros H.
  apply bind_Ok_inv in H as (am & _ & H).
  apply bind_Ok_inv in H as (gap & _ & H).
  apply bind_Ok_inv in H as (gu & _ & H).
  apply bind_Ok_inv in H as (data & _ & H). injection H as <-.
  unfold population_ok. simpl. repeat split; auto; try constructor. lia.
Qed.

(** X11.  The active population stays in order.  Along any run of ticks and
    done-callbacks of a manager from its construction, the active sessions
    have distinct user ids, in increasing order, none beyond the counter of
    the manager; none of them is finished, a finished session being removed
    by the tick that finishes it; and there are never more than [num_users]
    of them. *)
Theorem active_population_stays_in_order file sf wc uid0 replay m0 events m :
  UserSessionManager_init file sf wc uid0 replay = Ok m0 ->
  run m0 events = Ok m ->
  StronglySorted Z.lt (map session_user_id (sessions m))
  /\ Forall (fun s => session_user_id s <= mgr_user_id m) (sessions m)
  /\ Forall (fun s => finished s = false) (sessions m)
  /\ (List.length (sessions m) <= Z.to_nat (num_users wc))%nat.
Proof.
  intros Hi Hr. apply UserSessionManager_init_population in Hi as [Hp Hw].
  destruct (run_population _ _ _ Hp Hr) as [(H1 & H2 & H3 & _ & H5) Hw'].
  rewrite Hw', Hw in H5. auto.
Qed.

(** X12.  A tick neither loses nor invents a result row.  At any point of
    such a run, the rows the manager can report after a tick, archive and
    active sessions together, are those it could report before, up to their
    order: the rows of the sessions that the tick removes go to the archive,
    which only grows at its end. *)
Theorem tick_conserves_rows file sf wc uid0 replay m0 events m t rng m' effs :
  UserSessionManager_init file sf wc uid0 replay = Ok m0 ->
  run m0 events = Ok m ->
  UserSessionManager_step m t rng = Ok (m', effs) ->
  Permutation (all_rows m) (all_rows m')
  /\ exists archived, session_summaries m' = session_summaries m ++ archived.
Proof.
  intros Hi Hr Hs. apply UserSessionManager_init_population in Hi as [Hp _].
  destruct (run_population _ _ _ Hp Hr) as [Hp' _].
  apply (step_population _ _ _ _ _ Hp') in Hs as (_ & _ & Hperm & Harch). auto.
Qed.

(** ** Windowed aggregation *)

Lemma filter_filter_length {A} (f g : A -> bool) (l : list A) :
  (List.length (filter f (filter g l)) <= List.length (filter f l))%nat.
Proof.
  induction l as [|x l IH]; simpl; [lia|].
  destruct (g x), (f x) eqn:E; simpl; try rewrite E; simpl; lia.
Qed.

(** X13.  With both bounds truthy, and not two equal Python numbers,
    [ProcessSummary] returns the rows that finished within the window, and
    only those, and counts as launched the rows launched within it, never
    more than there are rows.  Aggregating the returned frame again over the
    same window returns it unchanged, with the same time range and the same
    processing and token figures, and counts no more launches. *)
Theorem ProcessSummary_window_is_idempotent df lo hi pending :
  ~ (number_value lo == 0)%Q -> ~ (number_value hi == 0)%Q ->
  (forall a b, lo = PyNum a -> hi = PyNum b -> ~ (a == b)%Q) ->
  exists r r2,
    ProcessSummary df (Some lo) (Some hi) pending = Ok r
    /\ ProcessSummary (sm_df r) (Some lo) (Some hi) pending = Ok r2
    /\ (forall x, In x (sm_df r)
                  <-> In x df /\ (number_value lo <= r_finish_time x)%Q
                              /\ (r_finish_time x <= number_value hi)%Q)
    /\ (0 <= launched_queries r <= Z.of_nat (List.length df))
    /\ (List.length (sm_df r) <= List.length df)%nat
    /\ sm_df r2 = sm_df r
    /\ launched_queries r2 <= launched_queries r
    /\ sm_start_time r2 = sm_start_time r
    /\ sm_end_time r2 = sm_end_time r
    /\ total_time r2 = total_time r
    /\ finished_qps r2 = finished_qps r
    /\ average_prefill_speed r2 = average_prefill_speed r
    /\ average_generation_speed r2 = average_generation_speed r.
Proof.
  intros Hlo Hhi Hne.
  assert (Hne' : forall a b, Some lo = Some (PyNum a) -> Some hi = Some (PyNum b) ->
                             ~ (a == b)%Q).
  { intros a b [= ->] [= ->]. apply Hne; reflexivity. }
  assert (W : bound_truthy (Some lo) && bound_truthy (Some hi) = true).
  { cbn [bound_truthy].
    destruct (Qeq_bool (number_value lo) 0) eqn:E1;
      [apply Qeq_bool_iff in E1; contradiction|].
    destruct (Qeq_bool (number_value hi) 0) eqn:E2;
      [apply Qeq_bool_iff in E2; contradiction|]. reflexivity. }
  do 2 eexists.
  split; [apply (ProcessSummary_returns _ _ _ _ Hne')|].
  cbn [sm_df launched_queries sm_start_time sm_end_time total_time finished_qps
       average_prefill_speed average_generation_speed].
  rewrite W.
  split; [apply (ProcessSummary_returns _ _ _ _ Hne')|].
  cbn [sm_df launched_queries sm_start_time sm_end_time total_time finished_qps
       average_prefill_speed average_generation_speed].
  rewrite W, query_between_idempotent.
  split.
  { intros x. unfold query_between. rewrite filter_In, andb_true_iff.
    rewrite <- !Qle_bool_iff. reflexivity. }
  split; [split; [lia|]; apply inj_le; apply filter_length_le|].
  split; [apply filter_length_le|].
  split; [reflexivity|].
  split; [apply inj_le; apply filter_filter_length|].
  repeat split; reflexivity.
Qed.

(** X14.  Without a window, as when an existing summary file is processed,
    [ProcessSummary] returns, keeps every row and takes the time range from
    the data.  On a frame with at least one row, each row finishing no
    earlier than it was launched, the range starts at the earliest launch and
    ends at the latest finish, covers every row, and has a non-negative
    length.  On an empty frame there is no range, and no rate is a number. *)
Theorem ProcessSummary_range_from_data df pending :
  exists r,
    ProcessSummary df None None pending = Ok r
    /\ sm_df r = df
    /\ launched_queries r = Z.of_nat (List.length df)
    /\ (df = [] ->
        total_time r = None /\ sm_qps r = NaN /\ finished_qps r = NaN
        /\ average_prefill_speed r = NaN /\ average_generation_speed r = NaN)
    /\ (df <> [] ->
        Forall (fun x => r_launch_time x <= r_finish_time x)%Q df ->
        exists st et,
          sm_start_time r = Some st /\ sm_end_time r = Some et
          /\ total_time r = Some (et - st)%Q
          /\ (0 <= et - st)%Q
          /\ In st (map r_launch_time df) /\ In et (map r_finish_time df)
          /\ Forall (fun x => st <= r_launch_time x /\ r_finish_time x <= et)%Q df).
Proof.
  eexists. split.
  { apply (ProcessSummary_returns df None None pending). discriminate. }
  cbn [sm_df launched_queries sm_start_time sm_end_time total_time sm_qps
       finished_qps average_prefill_speed average_generation_speed].
  split; [reflexivity|]. split; [reflexivity|]. split.
  - intros ->. simpl. auto.
  - intros Hne Hall.
    destruct (Qminimum (map r_launch_time df)) as [st|] eqn:Es;
      [|destruct df; [contradiction | discriminate]].
    destruct (Qmaximum (map r_finish_time df)) as [et|] eqn:Ee;
      [|destruct df; [contradiction | discriminate]].
    apply Qminimum_spec in Es as [Hin_s Hmin].
    apply Qmaximum_spec in Ee as [Hin_e Hmax].
    rewrite Forall_map in Hmin, Hmax.
    exists st, et. repeat split; auto.
    + apply in_map_iff in Hin_s as (x & <- & Hx).
      rewrite Forall_forall in Hall, Hmax.
      specialize (Hall x Hx). specialize (Hmax x Hx). simpl in Hmax. lra.
    + rewrite Forall_forall in *. intros x Hx. split; [apply Hmin | apply Hmax]; auto.
Qed.

(** ** What the executor reads from a stream *)

Lemma append_assoc (a b c : string) : ((a ++ b) ++ c)%string = (a ++ b ++ c)%string.
Proof. induction a as [|x a IH]; simpl; [reflexivity | now rewrite IH]. Qed.

Lemma process_chunk_text now w f c :
  fst (process_chunk now (w, f) c) = (w ++ chunk_text c)%string.
Proof.
  unfold process_chunk, chunk_text. destruct (choices c) as [|ch ?]; simpl.
  - now rewrite append_empty_r.
  - destruct (text ch); simpl; [reflexivity | now rewrite append_empty_r].
Qed.

Lemma process_chunk_first now w f c :
  snd (process_chunk now (w, f) c)
  = match f with
    | Some ft => Some ft
    | None => if has_text c then Some now else None
    end.
Proof.
  unfold process_chunk, has_text, chunk_text.
  destruct (choices c) as [|ch ?]; simpl; [destruct f; reflexivity|].
  destruct (text ch) as [t|]; simpl; [|destruct f; reflexivity].
  destruct f; [reflexivity|]. destruct (String.eqb t ""); reflexivity.
Qed.

Lemma fold_process_chunk now chunks : forall w f,
  fold_left (process_chunk now) chunks (w, f)
  = ((w ++ join_texts chunks)%string,
     match f with
     | Some ft => Some ft
     | None => if existsb has_text chunks then Some now else None
     end).
Proof.
  induction chunks as [|c chunks IH]; intros w f; simpl.
  - rewrite append_empty_r. destruct f; reflexivity.
  - rewrite (surjective_pairing (process_chunk now (w, f) c)).
    rewrite process_chunk_text, process_chunk_first, IH.
    unfold join_texts. simpl. rewrite append_assoc. f_equal.
    destruct f; [reflexivity|]. destruct (has_text c); reflexivity.
Qed.

(** X15.  The body of a response is the text of the stream.  On a stream of
    at least one chunk the coroutine returns a response whose body is the
    concatenation, in order, of the texts of the first choices of the chunks.
    If some chunk has a non-empty text, and the clock does not read zero at
    the first of them, the time to first token runs from the launch to that
    reading and the generation time from that reading on, the two adding up
    to the time from the launch to the end of the stream; if no chunk has a
    text, both are zero. *)
Theorem response_body_is_the_streamed_text self api clk messages max_tokens
    tools extra_headers chunks c :
  ep_stream api
    (streaming_request self (flatten_messages "" messages) max_tokens
       extra_headers) = Ok (chunks ++ [c]) ->
  exists r,
    snd (_async_launch_request self api clk messages max_tokens tools
           extra_headers) = Ok r
    /\ body r = join_texts (chunks ++ [c])
    /\ launch_time r = at_start clk /\ finish_time r = at_finish clk
    /\ (existsb has_text (chunks ++ [c]) = false ->
        ttft r = 0%Q /\ generation_time r = 0%Q)
    /\ (existsb has_text (chunks ++ [c]) = true ->
        ~ (at_first_token clk == 0)%Q ->
        ttft r = (at_first_token clk - at_start clk)%Q
        /\ generation_time r = (at_generation_end clk - at_first_token clk)%Q
        /\ (ttft r + generation_time r == at_generation_end clk - at_start clk)%Q).
Proof.
  intros Hs.
  destruct (_async_launch_request_nonempty self api clk messages max_tokens
              tools extra_headers chunks c Hs) as (tp & to & E).
  rewrite E, fold_process_chunk. simpl.
  eexists. split; [reflexivity|]. simpl.
  split; [reflexivity|]. split; [reflexivity|]. split; [reflexivity|]. split.
  - intros ->. split; reflexivity.
  - intros -> Hnz. unfold elapsed_if_set, truthy.
    destruct (Qeq_bool (at_first_token clk) 0) eqn:Ez;
      [apply Qeq_bool_iff in Ez; contradiction|].
    simpl. split; [reflexivity|]. split; [reflexivity|]. ring.
Qed.

(** X16.  Where the token counts of a response come from.  On a stream of
    at least one chunk: when the last chunk carries two non-zero counts, they
    are the counts of the response and the streaming call is the only call;
    otherwise the second call is sent, its counts are taken when it returns a
    usage block, and when it raises or returns none the response is returned
    all the same, with the counts of the stream.  Never more than two calls are
    sent, the streaming call first. *)
Theorem response_token_counts self api clk messages max_tokens tools
    extra_headers chunks c :
  let prompt := flatten_messages "" messages in
  let sreq := streaming_request self prompt max_tokens extra_headers in
  let freq := final_request self prompt max_tokens in
  ep_stream api sreq = Ok (chunks ++ [c]) ->
  exists r calls,
    _async_launch_request self api clk messages max_tokens tools extra_headers
    = (sreq :: calls, Ok r)
    /\ (List.length calls <= 1)%nat
    /\ (needs_fallback c = false ->
        calls = [] /\ (prompt_tokens r, generation_tokens r) = streamed_counts c)
    /\ (needs_fallback c = true ->
        calls = [freq]
        /\ (prompt_tokens r, generation_tokens r)
           = match ep_final api freq with
             | Ok final_response =>
                 match final_usage final_response with
                 | Some u => (usage_prompt_tokens u, completion_tokens u)
                 | None => streamed_counts c
                 end
             | Raise _ => streamed_counts c
             end).
Proof.
  intros prompt sreq freq Hs. unfold _async_launch_request.
  fold prompt. fold sreq. fold freq. rewrite Hs, last_map_Some.
  destruct (fold_left _ (chunks ++ [c]) ("", None)) as [words ftt].
  unfold needs_fallback, streamed_counts.
  destruct (usage c) as [u|]; simpl.
  - destruct ((completion_tokens u =? 0) || (usage_prompt_tokens u =? 0)).
    + destruct (ep_final api freq) as [fr|e]; [destruct (final_usage fr)|];
        do 2 eexists; (split; [reflexivity|]); simpl;
        (split; [lia|]); split; intros; try discriminate; auto.
    + do 2 eexists. split; [reflexivity|]. simpl.
      split; [lia|]. split; intros; try discriminate; auto.
  - destruct (ep_final api freq) as [fr|e]; [destruct (final_usage fr)|];
      do 2 eexists; (split; [reflexivity|]); simpl;
      (split; [lia|]); split; intros; try discriminate; auto.
Qed.

(** ** Prompts *)

Lemma flatten_messages_prefix l : forall p,
  flatten_messages p l = (p ++ flatten_messages "" l)%string.
Proof.
  induction l as [|m l IH]; intros p; cbn [flatten_messages].
  - now rewrite append_empty_r.
  - set (line := (role m ++ ": " ++ content m ++ nl)%string).
    change (String.append "" line) with line.
    rewrite (IH (p ++ line)%string), (IH line). apply append_assoc.
Qed.

Lemma flatten_messages_app l1 l2 :
  flatten_messages "" (l1 ++ l2)
  = (flatten_messages "" l1 ++ flatten_messages "" l2)%string.
Proof.
  induction l1 as [|m l1 IH]; [reflexivity|].
  change ((m :: l1) ++ l2) with (m :: (l1 ++ l2)). cbn [flatten_messages].
  set (line := (role m ++ ": " ++ content m ++ nl)%string).
  change (String.append "" line) with line.
  rewrite (flatten_messages_prefix (l1 ++ l2) line), IH.
  rewrite (flatten_messages_prefix l1 line). symmetry. apply append_assoc.
Qed.

Lemma on_user_query_snoc h q h' :
  on_user_query h q = Ok h' -> h' = h ++ [mkMessage "user" q].
Proof.
  unfold on_user_query. destruct (_ =? _); [now intros [= <-]|].
  intros H. apply bind_Ok_inv in H as (u & _ & H). now injection H as <-.
Qed.

Lemma on_system_response_snoc h q h' :
  on_system_response h q = Ok h' -> h' = h ++ [mkMessage "assistant" q].
Proof.
  unfold on_system_response. intros H.
  apply bind_Ok_inv in H as (u & _ & H). apply bind_Ok_inv in H as (u' & _ & H).
  now injection H as <-.
Qed.

Lemma step_history_grows s t rnd s' effs :
  step s t rnd = Ok (s', effs) ->
  exists more, chat_history s' = chat_history s ++ more.
Proof.
  intros H. apply step_cases in H
    as [(-> & _ & _) | [(-> & _) | [(-> & _ & _) | (p & _ & Hl & _ & _)]]];
    try (exists []; simpl; now rewrite app_nil_r).
  apply _launch_new_request_inv in Hl as (prompt & h & Hh & -> & _).
  apply on_user_query_snoc in Hh. subst h. simpl. eauto.
Qed.

Lemma on_future_done_history_grows s x :
  exists more, chat_history (on_future_done s x) = chat_history s ++ more.
Proof.
  destruct (on_future_done_cases s x) as [-> | (r & h & _ & Hh & ->)].
  - exists []. now rewrite app_nil_r.
  - apply on_system_response_snoc in Hh. subst h. simpl. eauto.
Qed.

Lemma play_history_grows events : forall s fl s' fl',
  play s fl events = Some (s', fl') ->
  exists more, chat_history s' = chat_history s ++ more.
Proof.
  induction events as [|[t rnd|i x] rest IH]; intros s fl s' fl' H; simpl in H.
  - injection H as <- _. exists []. now rewrite app_nil_r.
  - destruct (step s t rnd) as [[s1 effs]|e] eqn:Es; [|discriminate].
    apply step_history_grows in Es as [m1 E1].
    apply IH in H as [m2 E2]. exists (m1 ++ m2). now rewrite E2, E1, app_assoc.
  - destruct (nth_error fl i); [|discriminate].
    destruct (on_future_done_history_grows s x) as [m1 E1].
    apply IH in H as [m2 E2]. exists (m1 ++ m2). now rewrite E2, E1, app_assoc.
Qed.

(** X17.  Each request of a session extends the one before.  When a session
    launches a request, and after any run of whole ticks and done-callbacks
    launches another, the messages of the second are those of the first
    followed by at least one more turn, and the prompt of the second, as the
    executor flattens it, begins with the whole prompt of the first. *)
Theorem later_prompt_extends_earlier_prompt s t rnd s1 p1 flight events s2
    flight2 t' rnd' s3 p2 :
  step s t rnd = Ok (s1, [Launch p1]) ->
  play s1 flight events = Some (s2, flight2) ->
  step s2 t' rnd' = Ok (s3, [Launch p2]) ->
  exists more,
    more <> []
    /\ pr_messages p2 = pr_messages p1 ++ more
    /\ flatten_messages "" (pr_messages p2)
       = (flatten_messages "" (pr_messages p1) ++ flatten_messages "" more)%string.
Proof.
  intros H1 Hp H2.
  assert (L : forall a b c d p, step a b c = Ok (d, [Launch p]) ->
                exists q, pr_messages p = chat_history d
                          /\ chat_history d = chat_history a ++ [mkMessage "user" q]).
  { intros a b c d p H. apply step_cases in H
      as [(_ & E & _) | [(_ & E) | [(_ & E & _) | (p' & E & Hl & _ & _)]]];
      try discriminate.
    injection E as <-.
    apply _launch_new_request_inv in Hl as (prompt & h & Hh & -> & Hm).
    apply on_user_query_snoc in Hh. subst h. simpl. eauto. }
  apply L in H1 as (q1 & Em1 & _). apply L in H2 as (q2 & Em2 & Eh2).
  apply play_history_grows in Hp as [mid Emid].
  exists (mid ++ [mkMessage "user" q2]).
  assert (E : pr_messages p2 = pr_messages p1 ++ mid ++ [mkMessage "user" q2]).
  { rewrite Em2, Eh2, Emid, Em1, app_assoc. reflexivity. }
  split; [destruct mid; discriminate|]. split; [exact E|].
  rewrite E. apply flatten_messages_app.
Qed.

(** ** Replay of recorded conversations *)

Lemma _launch_new_request_max_tokens s t rnd s' p d :
  _launch_new_request s t rnd = Ok (s', p) ->
  sharegpt s = Some d ->
  pr_max_tokens p <= uc_answer_len (user_config s).
Proof.
  unfold _launch_new_request. intros H Hd.
  apply bind_Ok_inv in H as ([s1 prompt] & H1 & H).
  apply bind_Ok_inv in H as (h & Hh & H).
  apply bind_Ok_inv in H as (mt & Hmt & H).
  injection H as _ <-.
  apply next_prompt_fields in H1. subst s1.
  unfold round_max_tokens in Hmt. simpl in Hmt. rewrite Hd in Hmt.
  apply bind_Ok_inv in Hmt as (turn & _ & Hmt). injection Hmt as <-.
  simpl. apply Z.le_min_r.
Qed.

(** X18.  The conversations that [_load_sharegpt_data] keeps are long
    enough.  It keeps exactly the conversations with more than
    [2 * num_rounds] turns; a session replaying one of them, whose [num_round]
    is the number of its turns, launches each of its rounds without an index
    error, whichever speaker the conversation starts with, and asks for no
    more tokens than [answer_len]. *)
Theorem kept_conversations_cover_all_rounds wc file data :
  _load_sharegpt_data wc (Ok file) = Ok data ->
  (forall d, In d data <-> In d file /\ 2 * num_rounds wc < num_round d)
  /\ (forall d s t rnd,
        In d data ->
        Z.of_nat (List.length (conversations d)) = num_round d ->
        sharegpt s = Some d ->
        0 <= question_id s < num_rounds wc ->
        chat_history s = [] \/ last_role_is (chat_history s) "assistant" = true ->
        exists s' p,
          _launch_new_request s t rnd = Ok (s', p)
          /\ pr_max_tokens p <= uc_answer_len (user_config s)).
Proof.
  unfold _load_sharegpt_data. simpl. intros [= <-].
  assert (F : forall d, In d (filter (fun d => 2 * num_rounds wc <? num_round d) file)
                        <-> In d file /\ 2 * num_rounds wc < num_round d).
  { intros d. rewrite filter_In, Z.ltb_lt. tauto. }
  split; [exact F|].
  intros d s t rnd Hin Hlen Hd Hq Hh. apply F in Hin as [_ Hlong].
  assert (Hr : fire_ready s).
  { split; [exact Hh|]. rewrite Hd. lia. }
  destruct (_launch_new_request_ready s t rnd Hr) as (s' & p & E).
  exists s', p. split; [exact E|].
  eapply _launch_new_request_max_tokens; eauto.
Qed.

(** X19.  In replay mode a new user takes the conversation whose index is
    its user id, and the manager runs out of users with the conversations: on
    a manager with a non-empty pool, a non-zero [users_per_app] and a non-zero
    rate, the creation of the session of user [n], the counter plus one, gives
    it the conversation of index [n] when there is one, and raises an index
    error when [n] is the number of conversations or more. *)
Theorem replay_users_run_out_with_conversations m :
  apps (apps_manager m) <> [] ->
  users_per_app (apps_manager m) <> 0 ->
  ~ (qps (workload_config m) == 0)%Q ->
  use_sharegpt m = true ->
  0 <= mgr_user_id m + 1 ->
  let n := mgr_user_id m + 1 in
  (forall d, nth_error (sharegpt_data m) (Z.to_nat n) = Some d ->
     exists m1 s, _create_user_session m = Ok (m1, s)
                  /\ sharegpt s = Some d
                  /\ user_id (user_config s) = n
                  /\ mgr_user_id m1 = n)
  /\ (Z.of_nat (List.length (sharegpt_data m)) <= n ->
      _create_user_session m = Raise IndexError).
Proof.
  intros Ha Hu Hq Hg Hn n. unfold _create_user_session, new_user_config.
  rewrite (py_truediv_ok _ _ Hq). cbn [bind].
  destruct (get_app_for_user_ok (apps_manager m) (mgr_user_id m + 1) Ha Hu)
    as (am & a & E & _ & _).
  rewrite E, Hg. cbn [bind]. fold n. unfold py_index.
  destruct (n <? 0) eqn:E0; [apply Z.ltb_lt in E0; lia|]. rewrite E0. simpl.
  split.
  - intros d Hd.
    assert (Hlt : (Z.to_nat n < List.length (sharegpt_data m))%nat)
      by (apply nth_error_Some; congruence).
    destruct (Z.of_nat (List.length (sharegpt_data m)) <=? n) eqn:E1;
      [apply Z.leb_le in E1; lia|].
    rewrite Hd. cbn [bind]. do 2 eexists. split; [reflexivity|]. simpl. auto.
  - intros Hle. apply Z.leb_le in Hle. rewrite Hle. reflexivity.
Qed.

(** ** The base URL of the executor *)

Lemma list_ascii_of_string_app a b :
  list_ascii_of_string (a ++ b)%string
  = list_ascii_of_string a ++ list_ascii_of_string b.
Proof. induction a as [|x a IH]; simpl; [reflexivity | now rewrite IH]. Qed.

Lemma string_of_list_ascii_app a b :
  string_of_list_ascii (a ++ b)
  = (string_of_list_ascii a ++ string_of_list_ascii b)%string.
Proof. induction a as [|x a IH]; simpl; [reflexivity | now rewrite IH]. Qed.

Lemma starts_with_app pre l : starts_with pre (pre ++ l) = true.
Proof.
  induction pre as [|a pre IH]; simpl; [reflexivity|].
  now rewrite Ascii.eqb_refl, IH.
Qed.

Lemma endswith_append s suffix : endswith (s ++ suffix) suffix = true.
Proof.
  unfold endswith. rewrite list_ascii_of_string_app, rev_app_distr.
  apply starts_with_app.
Qed.

Lemma drop_leading_spec c l :
  exists k, l = repeat c k ++ drop_leading c l
            /\ starts_with [c] (drop_leading c l) = false.
Proof.
  induction l as [|a l IH]; simpl.
  - exists 0%nat. auto.
  - destruct (Ascii.eqb a c) eqn:E.
    + apply Ascii.eqb_eq in E. subst a. destruct IH as (k & E1 & E2).
      exists (S k). simpl. split; [f_equal; exact E1 | exact E2].
    + exists 0%nat. simpl. split; [reflexivity|].
      rewrite Ascii.eqb_sym, E. reflexivity.
Qed.

Lemma rev_repeat {A} (a : A) k : rev (repeat a k) = repeat a k.
Proof.
  induction k as [|k IH]; simpl; [reflexivity|].
  rewrite IH. clear IH. induction k as [|k IH]; simpl; [reflexivity|].
  now rewrite IH.
Qed.

Lemma rstrip_spec s c :
  exists k, s = (rstrip s c ++ string_of_list_ascii (repeat c k))%string
            /\ endswith (rstrip s c) (String c "") = false.
Proof.
  unfold rstrip, endswith.
  destruct (drop_leading_spec c (rev (list_ascii_of_string s))) as (k & E1 & E2).
  exists k. split.
  - rewrite <- string_of_list_ascii_app, <- (rev_repeat c k), <- rev_app_distr,
      <- E1, rev_involutive. symmetry. apply string_of_list_ascii_of_string.
  - rewrite list_ascii_of_string_of_list_ascii, rev_involutive. exact E2.
Qed.

(** X20.  The base URL handed to the client always ends in [/v1], and
    normalising twice is normalising once.  A URL that ends in [/v1] is kept;
    any other loses all its trailing slashes, and only those, before [/v1] is
    added, so that the result has exactly one slash before [v1]. *)
Theorem base_url_ends_in_v1 base_url :
  endswith (normalize_base_url base_url) "/v1" = true
  /\ normalize_base_url (normalize_base_url base_url)
     = normalize_base_url base_url
  /\ (endswith base_url "/v1" = true -> normalize_base_url base_url = base_url)
  /\ (endswith base_url "/v1" = false ->
      exists stem k,
        base_url = (stem ++ slashes k)%string
        /\ endswith stem "/" = false
        /\ normalize_base_url base_url = (stem ++ "/v1")%string).
Proof.
  assert (H1 : endswith (normalize_base_url base_url) "/v1" = true).
  { unfold normalize_base_url.
    destruct (endswith base_url "/v1") eqn:E; simpl; [exact E|].
    apply endswith_append. }
  split; [exact H1|]. split; [|split].
  - unfold normalize_base_url at 1. now rewrite H1.
  - intros E. unfold normalize_base_url. now rewrite E.
  - intros E. unfold normalize_base_url. rewrite E. simpl.
    destruct (rstrip_spec base_url slash) as (k & E1 & E2).
    exists (rstrip base_url slash), k. auto.
Qed.

(** ** The generator of app files *)

Lemma choices_of_spec g : forall k pos,
  List.length (choices_of g pos k) = k
  /\ Forall (fun c => In c alphabet) (choices_of g pos k).
Proof.
  induction k as [|k IH]; intros pos; cbn [choices_of].
  - split; [reflexivity | constructor].
  - destruct (IH (S pos)) as [Hl Hf]. split; [cbn [List.length]; now rewrite Hl|].
    constructor; [|exact Hf]. apply nth_In.
    apply Nat.mod_upper_bound. discriminate.
Qed.

Lemma length_string_of_list_ascii l :
  String.length (string_of_list_ascii l) = List.length l.
Proof. induction l as [|a l IH]; simpl; [reflexivity | now rewrite IH]. Qed.

Lemma random_string_spec g pos n s pos' :
  random_string g pos n = (s, pos') ->
  String.length s = Z.to_nat n /\ alphanumeric s
  /\ pos' = (pos + Z.to_nat n)%nat.
Proof.
  unfold random_string, alphanumeric. intros [= <- <-].
  destruct (choices_of_spec g (Z.to_nat n) pos) as [Hl Hf].
  rewrite length_string_of_list_ascii, list_ascii_of_string_of_list_ascii. auto.
Qed.

Lemma random_strings_spec g n : forall count pos l pos',
  random_strings g pos n count = (l, pos') ->
  List.length l = count
  /\ Forall (fun d => String.length d = Z.to_nat n) l
  /\ Forall alphanumeric l
  /\ pos' = (pos + count * Z.to_nat n)%nat.
Proof.
  induction count as [|count IH]; intros pos l pos' H; cbn [random_strings] in H.
  - injection H as <- <-. repeat split; auto.
  - destruct (random_string g pos n) as [s p1] eqn:E1.
    destruct (random_strings g p1 n count) as [l1 p2] eqn:E2.
    injection H as <- <-.
    apply random_string_spec in E1 as (Hl & Ha & ->).
    apply IH in E2 as (Hc & Hf & Hfa & ->).
    simpl. repeat split; auto. lia.
Qed.

Lemma generate_random_app_spec g pos sl tl dl dc a pos' :
  generate_random_app g pos sl tl dl dc = (a, pos') ->
  app_of_sizes sl tl dl dc a
  /\ pos' = (pos + (Z.to_nat sl + Z.to_nat tl + Z.to_nat dc * Z.to_nat dl))%nat.
Proof.
  unfold generate_random_app. intros H.
  destruct (random_string g pos sl) as [sp p1] eqn:E1.
  destruct (random_string g p1 tl) as [tls p2] eqn:E2.
  destruct (random_strings g p2 dl (Z.to_nat dc)) as [docs p3] eqn:E3.
  injection H as <- <-.
  apply random_string_spec in E1 as (H1 & A1 & ->).
  apply random_string_spec in E2 as (H2 & A2 & ->).
  apply random_strings_spec in E3 as (H3 & H4 & A3 & ->).
  unfold app_of_sizes. simpl. repeat split; auto. lia.
Qed.

Lemma random_apps_spec g sl tl dl dc : forall n pos l pos',
  random_apps g pos sl tl dl dc n = (l, pos') ->
  List.length l = n
  /\ Forall (app_of_sizes sl tl dl dc) l
  /\ pos' = (pos + n * (Z.to_nat sl + Z.to_nat tl + Z.to_nat dc * Z.to_nat dl))%nat.
Proof.
  induction n as [|n IH]; intros pos l pos' H; cbn [random_apps] in H.
  - injection H as <- <-. repeat split; auto.
  - destruct (generate_random_app g pos sl tl dl dc) as [a p1] eqn:E1.
    destruct (random_apps g p1 sl tl dl dc n) as [l1 p2] eqn:E2.
    injection H as <- <-.
    apply generate_random_app_spec in E1 as (Ha & ->).
    apply IH in E2 as (Hc & Hf & ->).
    simpl. repeat split; auto. lia.
Qed.

(** X21.  [random_string] gives a string of the length asked for, empty for
    a negative length, made of ASCII letters and digits only, and takes that
    many draws from the generator. *)
Theorem random_string_is_alphanumeric g pos n :
  let '(s, pos') := random_string g pos n in
  String.length s = Z.to_nat n
  /\ alphanumeric s
  /\ (n <= 0 -> s = "")
  /\ pos' = (pos + Z.to_nat n)%nat.
Proof.
  destruct (random_string g pos n) as [s pos'] eqn:E.
  pose proof (random_string_spec _ _ _ _ _ E) as (H1 & H2 & H3).
  repeat split; auto.
  intros Hn. destruct s; [reflexivity|]. simpl in H1. lia.
Qed.

(** X22.  What [generate_apps_json] writes, [_load_apps] reads.  The file
    holds [num_apps] apps, each with a system prompt, tools and documents of
    the sizes asked for, in letters and digits; an [AppsManager] built on the
    file loads exactly these apps, in order, without raising; and when there
    is at least one app and [users_per_app] is not zero, every user can be
    given an app. *)
Theorem generated_apps_file_loads g pos num_apps sl tl dl dc upa :
  let '(file, pos') := generate_apps_json g pos num_apps sl tl dl dc in
  exists l,
    file = Parsed (map entry_of l)
    /\ List.length l = Z.to_nat num_apps
    /\ Forall (app_of_sizes sl tl dl dc) l
    /\ AppsManager_init file upa = Ok (mkAppsManager l [] upa)
    /\ pos' = (pos + Z.to_nat num_apps
                     * (Z.to_nat sl + Z.to_nat tl + Z.to_nat dc * Z.to_nat dl))%nat
    /\ (0 < num_apps -> upa <> 0 ->
        forall uid, exists am a,
          get_app_for_user (mkAppsManager l [] upa) uid = Ok (am, a) /\ In a l).
Proof.
  unfold generate_apps_json.
  destruct (random_apps g pos sl tl dl dc (Z.to_nat num_apps)) as [l pos'] eqn:E.
  apply random_apps_spec in E as (Hl & Hf & ->).
  exists l. split; [reflexivity|]. split; [exact Hl|]. split; [exact Hf|].
  split; [|split; [reflexivity|]].
  - unfold AppsManager_init, _load_apps. simpl.
    rewrite load_entries_round_trip. reflexivity.
  - intros Hn Hu uid.
    assert (Hne : l <> []) by (destruct l; [simpl in Hl; lia | discriminate]).
    unfold get_app_for_user. simpl.
    destruct (assign_app_to_user_ok (mkAppsManager l [] upa) uid Hne Hu)
      as [a Ea].
    rewrite Ea. do 2 eexists. split; [reflexivity|].
    apply assign_app_to_user_inv in Ea as [Ha _].
    unfold app_of_user in Ha. simpl in Ha. eapply py_index_In; eauto.
Qed.

(** ** The construction of the manager *)

(** X23.  What the constructor of the manager computes.  A file that cannot
    be read raises before anything else; on a readable file a zero rate, and
    then a zero number of users, raise a division by zero.  Otherwise, outside
    replay mode, the manager starts with no session, no start time and
    ramp-up pending; the gap between the requests of a user is the one that
    [new_user_config] gives each user, the gap between users is the lifetime
    of a session divided by the number of users, and the ramp-up time is the
    number of users times that gap, each operation rounded; with one user
    both are the lifetime of a session.  With a positive rate, a positive
    number of users and at least one round no gap is negative, and with a
    non-empty pool, a non-zero [users_per_app] and a non-zero gap between
    requests, ramp-up runs to its end on the manager. *)
Theorem manager_construction sf wc uid0 :
  (forall replay,
     UserSessionManager_init Unreadable sf wc uid0 replay = Raise FileError)
  /\ (forall l replay,
        (qps wc == 0)%Q ->
        UserSessionManager_init (Parsed (map entry_of l)) sf wc uid0 replay
        = Raise ZeroDivisionError)
  /\ (forall l replay,
        ~ (qps wc == 0)%Q -> num_users wc = 0 ->
        UserSessionManager_init (Parsed (map entry_of l)) sf wc uid0 replay
        = Raise ZeroDivisionError)
  /\ (forall l,
        ~ (qps wc == 0)%Q -> num_users wc <> 0 ->
        let gap_between_requests_per_user := fdiv (of_int (num_users wc)) (qps wc) in
        let session_alive_time :=
          fmul gap_between_requests_per_user (of_int (num_rounds wc - 1)) in
        exists m,
          UserSessionManager_init (Parsed (map entry_of l)) sf wc uid0 false
          = Ok m
          /\ sessions m = [] /\ need_ramp_up m = true
          /\ mgr_user_id m = uid0 /\ session_summaries m = []
          /\ start_time m = None
          /\ apps (apps_manager m) = l
          /\ (exists uc, new_user_config (uid0 + 1) wc = Ok uc
                         /\ gap_between_requests uc = gap_between_requests_per_user)
          /\ gap_between_users m = fdiv session_alive_time (of_int (num_users wc))
          /\ ramp_up_time m = fmul (of_int (num_users wc)) (gap_between_users m)
          /\ (num_users wc = 1 ->
              gap_between_users m = session_alive_time
              /\ ramp_up_time m = session_alive_time)
          /\ ((0 < qps wc)%Q -> 0 < num_users wc -> 1 <= num_rounds wc ->
              (0 <= gap_between_requests_per_user)%Q
              /\ (0 <= gap_between_users m)%Q /\ (0 <= ramp_up_time m)%Q
              /\ (l <> [] -> wc_users_per_app wc <> 0 ->
                  ~ (gap_between_requests_per_user == 0)%Q -> ramp_ready m))).
Proof.
  assert (Hload : forall l,
             AppsManager_init (Parsed (map entry_of l)) (wc_users_per_app wc)
             = Ok (mkAppsManager l [] (wc_users_per_app wc))).
  { intros l. unfold AppsManager_init, _load_apps. simpl.
    now rewrite load_entries_round_trip. }
  split; [reflexivity|]. split; [|split].
  - intros l replay Hq. unfold UserSessionManager_init. rewrite Hload.
    cbn [bind]. unfold py_truediv. apply Qeq_bool_iff in Hq. now rewrite Hq.
  - intros l replay Hq Hn. unfold UserSessionManager_init. rewrite Hload.
    cbn [bind]. rewrite (py_truediv_ok _ _ Hq). cbn [bind].
    unfold py_truediv. rewrite Hn. reflexivity.
  - intros l Hq Hn greq alive.
    assert (HN : ~ (of_int (num_users wc) == 0)%Q)
      by (rewrite of_int_0_iff; exact Hn).
    assert (HN' : ~ (of_int (num_users wc + 0) == 0)%Q)
      by (rewrite Z.add_0_r; exact HN).
    unfold UserSessionManager_init. rewrite Hload. cbn [bind].
    rewrite (py_truediv_ok _ _ Hq). cbn [bind].
    rewrite (py_truediv_ok _ _ HN'). cbn [bind].
    rewrite Z.add_0_r. fold greq. fold alive.
    eexists. split; [reflexivity|].
    cbn [sessions need_ramp_up mgr_user_id session_summaries start_time
         apps apps_manager gap_between_users ramp_up_time].
    do 6 (split; [reflexivity|]). split.
    { unfold new_user_config. rewrite (py_truediv_ok _ _ Hq). cbn [bind].
      eexists. split; reflexivity. }
    split; [reflexivity|]. split; [reflexivity|]. split.
    + intros E1. rewrite E1.
      assert (Ea : fdiv alive (of_int 1) = alive).
      { unfold fdiv. rewrite (fl_comp (alive / of_int 1) alive).
        - unfold alive, fmul. apply fl_idem.
        - replace (of_int 1) with 1%Q by (vm_compute; reflexivity). field. }
      rewrite Ea. split; [reflexivity|].
      unfold fmul at 1. rewrite (fl_comp (of_int 1 * alive) alive).
      * unfold alive, fmul. apply fl_idem.
      * replace (of_int 1) with 1%Q by (vm_compute; reflexivity). ring.
    + intros Hqp Hnp Hr.
      assert (Hn0 : (0 <= of_int (num_users wc))%Q) by (apply of_int_nonneg; lia).
      assert (Hnpos : (0 < of_int (num_users wc))%Q).
      { destruct (Qlt_le_dec 0 (of_int (num_users wc))) as [L|L]; [exact L|].
        exfalso. apply HN. apply Qle_antisym; assumption. }
      assert (G1 : (0 <= greq)%Q).
      { unfold greq, fdiv. apply fl_nonneg.
        apply Qle_shift_div_l; [exact Hqp|]. rewrite Qmult_0_l. exact Hn0. }
      assert (G2 : (0 <= alive)%Q).
      { unfold alive, fmul. apply fl_nonneg. apply Qmult_le_0_compat; [exact G1|].
        apply of_int_nonneg. lia. }
      assert (G3 : (0 <= fdiv alive (of_int (num_users wc)))%Q).
      { unfold fdiv. apply fl_nonneg.
        apply Qle_shift_div_l; [exact Hnpos|]. rewrite Qmult_0_l. exact G2. }
      split; [exact G1|]. split; [exact G3|]. split.
      * unfold fmul. apply fl_nonneg. apply Qmult_le_0_compat; assumption.
      * intros Hl Hu Hg. unfold ramp_ready, create_ready.
        cbn [apps apps_manager users_per_app workload_config use_sharegpt
             gap_between_users ramp_up_time].
        repeat split; auto.
Qed.

(** ** A tick interrupted by a completion *)

Lemma length_snoc_pos {A} (l : list A) a :
  (0 <? Z.of_nat (List.length (l ++ [a]))) = true
  /\ (Z.of_nat (List.length (l ++ [a])) =? 0) = false.
Proof.
  rewrite length_app. simpl. split; [apply Z.ltb_lt | apply Z.eqb_neq]; lia.
Qed.

Lemma exec_all_cons w a w1 rest w2 :
  exec w a = Some w1 -> exec_all w1 rest = Some w2 ->
  exec_all w (a :: rest) = Some w2.
Proof. intros H1 H2. simpl. now rewrite H1. Qed.

(** The pieces of a tick and of a callback, one by one. *)

Lemma tick_past_gap s l fl t rnd last :
  has_unfinished_request s = true ->
  last_request_time s = Some last ->
  (gap_between_requests (user_config s) < t - last)%Q ->
  exec (mkWorld s Idle l fl) (ATick t rnd) = Some (mkWorld s (AtCheck t rnd) l fl).
Proof.
  intros Hf Hl Hg. apply Qgtb_true in Hg.
  cbn [exec]. unfold tick. cbn [session ctrl loop in_flight].
  rewrite Hf, Hl, Hg, andb_false_r. reflexivity.
Qed.

Lemma callback_on_user_turn s c r h q :
  chat_history s = h ++ [mkMessage "user" q] ->
  exec_all (mkWorld s c (LLen r) []) (repeat AEventLoop 4)
  = Some (mkWorld
            (set_has_unfinished_request
               (set_chat_history s
                  (chat_history s ++ [mkMessage "assistant" (body r)]))
               false)
            c (LRecord r) []).
Proof.
  intros Hh. cbn [repeat].
  eapply exec_all_cons.
  { cbn [exec]. unfold event_loop_step. cbn [session ctrl loop in_flight].
    rewrite Hh, (proj1 (length_snoc_pos _ _)). reflexivity. }
  eapply exec_all_cons.
  { cbn [exec]. unfold event_loop_step. cbn [session ctrl loop in_flight].
    rewrite Hh, last_role_is_snoc. reflexivity. }
  reflexivity.
Qed.

Lemma controller_launches_after_assistant s l fl t rnd h a :
  has_unfinished_request s = false ->
  sharegpt s = None ->
  chat_history s = h ++ [mkMessage "assistant" a] ->
  exists s' p,
    exec_all (mkWorld s (AtCheck t rnd) l fl) (repeat AController 7)
    = Some (mkWorld s' Idle l (fl ++ [p]))
    /\ question_id s' = question_id s + 1
    /\ user_config s' = user_config s
    /\ has_unfinished_request s' = true
    /\ prompt_lengths s' = prompt_lengths s.
Proof.
  intros Hf Hs Hh.
  destruct (next_prompt s rnd) as [[s1 prompt]|e] eqn:En;
    [|unfold next_prompt in En; rewrite Hs in En; discriminate].
  pose proof (next_prompt_fields _ _ _ _ En) as E1.
  do 2 eexists. split.
  - cbn [repeat].
    eapply exec_all_cons.
    { cbn [exec]. unfold controller_step. cbn [session ctrl loop in_flight].
      rewrite Hf. reflexivity. }
    eapply exec_all_cons.
    { cbn [exec]. unfold controller_step. cbn [session ctrl loop in_flight].
      rewrite En. reflexivity. }
    eapply exec_all_cons.
    { cbn [exec]. unfold controller_step. cbn [session ctrl loop in_flight].
      rewrite E1. cbn [chat_history set_question_id].
      rewrite Hh, (proj2 (length_snoc_pos _ _)). reflexivity. }
    eapply exec_all_cons.
    { cbn [exec]. unfold controller_step. cbn [session ctrl loop in_flight].
      cbn [chat_history set_question_id].
      rewrite Hh, last_role_is_snoc. reflexivity. }
    eapply exec_all_cons.
    { reflexivity. }
    eapply exec_all_cons.
    { cbn [exec]. unfold controller_step, round_max_tokens.
      cbn [session ctrl loop in_flight].
      cbn [sharegpt set_chat_history set_question_id]. rewrite Hs.
      reflexivity. }
    reflexivity.
  - repeat split.
Qed.

Lemma exec_all_then w l1 l2 w1 w2 :
  exec_all w l1 = Some w1 -> exec_all w1 l2 = Some w2 ->
  exec_all w (l1 ++ l2) = Some w2.
Proof.
  revert w. induction l1 as [|a l1 IH]; intros w H1 H2; simpl in *.
  - now injection H1 as ->.
  - destruct (exec w a); [eauto | discriminate].
Qed.

(** X24.  The bound on the rounds needs each tick to run as a whole.  When
    the last round of a session is in flight and a tick comes after the pacing
    gap, the tick reads the flag twice: if the request completes and its
    callback clears the flag between the two readings, the first reading keeps
    the session from finishing and the second lets it launch, so that the
    session fires one round more than [num_rounds] (outside replay mode, where
    the question is generated). *)
Theorem late_completion_fires_an_extra_round s0 t0 rnd0 s p (t : Q) (rnd : string)
    (r : Response) :
  _launch_new_request s0 t0 rnd0 = Ok (s, p) ->
  sharegpt s0 = None ->
  uc_num_rounds (user_config s0) <= question_id s0 + 1 ->
  (gap_between_requests (user_config s0) < t - t0)%Q ->
  exists actions w,
    exec_all (mkWorld s Idle LIdle [p]) actions = Some w
    /\ ctrl w = Idle /\ loop w = LIdle
    /\ question_id (session w) = question_id s0 + 2
    /\ uc_num_rounds (user_config (session w)) < question_id (session w)
    /\ List.length (in_flight w) = 1%nat.
Proof.
  intros Hl Hs HR Hg.
  apply _launch_new_request_inv in Hl as (prompt & h & Hh & -> & _).
  apply on_user_query_snoc in Hh. subst h.
  set (s1 := set_last_request_time _ _).
  set (s2 := set_has_unfinished_request
               (set_chat_history s1
                  (chat_history s1 ++ [mkMessage "assistant" (body r)]))
               false).
  destruct (controller_launches_after_assistant s2 (LRecord r) [] t rnd
              (chat_history s1) (body r) eq_refl Hs eq_refl)
    as (s3 & p3 & E3 & Hq & Hc & Hf & Hp).
  exists ([ATick t rnd; ACompletes 0 (Ok r)]
          ++ repeat AEventLoop 4 ++ repeat AController 7 ++ [AEventLoop]).
  eexists. split.
  - eapply exec_all_then; [|eapply exec_all_then; [|eapply exec_all_then]].
    + eapply exec_all_cons;
        [apply (tick_past_gap s1 LIdle [p] t rnd t0 eq_refl eq_refl Hg)|].
      reflexivity.
    + apply (callback_on_user_turn s1 (AtCheck t rnd) r (chat_history s0) prompt).
      reflexivity.
    + exact E3.
    + reflexivity.
  - cbn [session ctrl loop in_flight]. unfold _update_result.
    cbn [question_id user_config].
    rewrite Hq, Hc. subst s2 s1.
    cbn [question_id user_config set_has_unfinished_request set_chat_history
         set_last_request_time set_question_id].
    repeat split; try reflexivity; lia.
Qed.

(** ** The summary of the manager *)



(** ** The text of a round *)

(** X26.  What a generated round sends.  Outside replay mode a session with
    an app, whose history is ready for a user turn, launches without raising;
    the new user turn holds all the retrieval documents of the app, joined by
    newlines, then the question with the new value of the question counter,
    and the system prompt of the app before them on the first turn only; the
    request carries the whole history, [answer_len] as token limit, the tools
    of the app and the user id in the header [x-user-id]. *)
Theorem generated_round_request s a t rnd :
  sharegpt s = None ->
  app s = Some a ->
  chat_history s = [] \/ last_role_is (chat_history s) "assistant" = true ->
  exists s' p,
    _launch_new_request s t rnd = Ok (s', p)
    /\ question_id s' = question_id s + 1
    /\ chat_history s'
       = chat_history s
         ++ [mkMessage "user"
               ((match chat_history s with
                 | [] => systemPrompt a
                 | _ :: _ => ""
                 end)
                ++ py_join nl (ragDocs a)
                ++ question_text (question_id s + 1) rnd)%string]
    /\ pr_messages p = chat_history s'
    /\ pr_max_tokens p = uc_answer_len (user_config s)
    /\ pr_tools p = Some (tools a)
    /\ pr_extra_headers p
       = Some [("x-user-id", py_str (user_id (user_config s)))].
Proof.
  intros Hs Ha Hh. unfold _launch_new_request, next_prompt. rewrite Hs.
  cbn [_build_new_question bind set_question_id chat_history question_id].
  rewrite on_user_query_ready by exact Hh. cbn [bind].
  unfold round_max_tokens. cbn [set_chat_history set_question_id sharegpt].
  rewrite Hs. cbn [bind]. do 2 eexists. split; [reflexivity|].
  unfold round_request, launch_request, get_messages_for_openai.
  cbn [question_id chat_history pr_messages pr_max_tokens pr_tools
       pr_extra_headers set_last_request_time set_has_unfinished_request
       set_chat_history set_question_id user_config app].
  rewrite Ha. cbn [option_map].
  repeat split.
  unfold with_system_prompt, ChatHistory_len, _build_system_prompt,
    _get_all_rag_docs.
  cbn [chat_history set_question_id app]. rewrite Ha.
  unfold question_text.
  destruct (ragDocs a); destruct (chat_history s); reflexivity.
Qed.

(** * The further properties at sample inputs *)

Lemma _load_apps_reads_entries_in_order_witness :
  first_missing_key (mkAppData (Some "s") None (Some [])) = Some "tools"
  /\ _load_apps sample_pool
       (Parsed (map entry_of [sample_app]
                ++ mkAppData (Some "s") None (Some []) :: []))
     = Raise (KeyError "tools")
  /\ _load_apps sample_pool (Parsed (map entry_of [sample_app_b]))
     = Ok (mkAppsManager (apps sample_pool ++ [sample_app_b])
             (user_app_map sample_pool) (users_per_app sample_pool)).
Proof.
  destruct (_load_apps_reads_entries_in_order sample_pool) as (H1 & H2 & _).
  split; [reflexivity|]. split.
  - apply (H2 [sample_app] _ [] "tools"). reflexivity.
  - apply (H1 [sample_app_b]).
Defined.

Lemma apps_assigned_by_block_witness :
  AppsManager_init sample_apps_file 2 = Ok sample_pool
  /\ exists am l,
       get_apps sample_pool [0; 1; 2; 3; 0] = Ok (am, l)
       /\ apps am = apps sample_pool
       /\ Forall2 (fun uid a => app_of_user sample_pool uid = Ok a
                                /\ In a (apps sample_pool))
            [0; 1; 2; 3; 0] l
       /\ (forall uid1 a1 uid2 a2,
             In (uid1, a1) (combine [0; 1; 2; 3; 0] l) ->
             In (uid2, a2) (combine [0; 1; 2; 3; 0] l) ->
             uid1 / 2 = uid2 / 2 -> a1 = a2).
Proof.
  split; [reflexivity|].
  destruct (get_apps sample_pool [0; 1; 2; 3; 0]) as [[am l]|e] eqn:E;
    [|vm_compute in E; discriminate].
  exists am, l. split; [reflexivity|].
  exact (apps_assigned_by_block sample_apps_file 2 sample_pool [0; 1; 2; 3; 0]
           am l eq_refl E).
Defined.

Lemma get_app_for_user_memoised_witness :
  exists am1 a,
    get_app_for_user sample_pool 5 = Ok (am1, a)
    /\ get_app_for_user am1 5 = Ok (am1, a).
Proof.
  destruct (get_app_for_user sample_pool 5) as [[am1 a]|e] eqn:E;
    [|vm_compute in E; discriminate].
  exists am1, a. split; [reflexivity|].
  exact (proj1 (get_app_for_user_memoised sample_pool 5 am1 a E)).
Defined.

Lemma assign_app_to_user_succeeds_iff_witness :
  (exists am1 a, assign_app_to_user sample_pool (-3) = Ok (am1, a))
  /\ assign_app_to_user (mkAppsManager [] [] 2) 7 = Raise ZeroDivisionError
  /\ assign_app_to_user (mkAppsManager [sample_app] [] 0) 7
     = Raise ZeroDivisionError.
Proof.
  split; [|split].
  - apply (proj1 (assign_app_to_user_succeeds_iff sample_pool (-3))).
    split; discriminate.
  - apply (proj2 (assign_app_to_user_succeeds_iff (mkAppsManager [] [] 2) 7)).
    left. reflexivity.
  - apply (proj2 (assign_app_to_user_succeeds_iff
                    (mkAppsManager [sample_app] [] 0) 7)).
    right. reflexivity.
Defined.

Lemma set_internal_state_within_one_gap_witness :
  exists s',
    set_internal_state thirds_session (fmul 5 (fdiv 1 3)) 100 = Ok s'
    /\ (fmul 5 (fdiv 1 3) / fdiv 1 3 < 5)%Q
    /\ Qfloor (fmul 5 (fdiv 1 3) / fdiv 1 3) = 4
    /\ (fdiv (fmul 5 (fdiv 1 3)) (fdiv 1 3) == 5)%Q
    /\ question_id s' = 6.
Proof.
  destruct (set_internal_state thirds_session (fmul 5 (fdiv 1 3)) 100)
    as [s'|e] eqn:E; [|vm_compute in E; discriminate].
  assert (H1 : (0 <= fmul 5 (fdiv 1 3))%Q) by (vm_compute; discriminate).
  assert (H2 : (0 < gap_between_requests (user_config thirds_session))%Q)
    by (vm_compute; reflexivity).
  assert (H3 : (fmul 5 (fdiv 1 3)
                / gap_between_requests (user_config thirds_session)
                < inject_Z (2 ^ 53))%Q) by (vm_compute; reflexivity).
  destruct (set_internal_state_within_one_gap thirds_session
              (fmul 5 (fdiv 1 3)) 100 s' E H1 H2 H3) as (Hs & _ & _ & Hup & _).
  assert (Hq : question_id s' = 6) by (rewrite Hs; vm_compute; reflexivity).
  exists s'. split; [reflexivity|]. split; [vm_compute; reflexivity|].
  split; [vm_compute; reflexivity|]. split; [|exact Hq].
  apply Hup. rewrite Hq. vm_compute. reflexivity.
Defined.

Lemma set_internal_state_errors_witness :
  set_internal_state (set_chat_history sample_session [mkMessage "user" "x"])
    0 100
  = Raise (AssertionError "Internal state should be set before the first request")
  /\ set_internal_state
       (UserSession_init (mkUserConfig 1 3 4 16 0 3 false) None None) 5 100
     = Raise ZeroDivisionError.
Proof.
  split.
  - apply (proj1 (set_internal_state_errors
                    (set_chat_history sample_session [mkMessage "user" "x"])
                    0 100)).
    discriminate.
  - apply (proj2 (set_internal_state_errors
                    (UserSession_init (mkUserConfig 1 3 4 16 0 3 false) None None)
                    5 100)); reflexivity.
Defined.

Lemma rounds_fired_never_exceed_num_rounds_witness :
  before_first_round sample_session
  /\ exists s flight,
       play sample_session [] sample_events = Some (s, flight)
       /\ question_id s
          = question_id sample_session
            + Z.of_nat (List.length (prompt_lengths s)
                        + if has_unfinished_request s then 1 else 0)
       /\ question_id s
          <= Z.max (question_id sample_session)
               (uc_num_rounds (user_config sample_session))
       /\ user_config s = user_config sample_session.
Proof.
  assert (H0 : before_first_round sample_session)
    by (unfold before_first_round; simpl; auto 10).
  split; [exact H0|].
  destruct (play sample_session [] sample_events) as [[s flight]|] eqn:E;
    [|vm_compute in E; discriminate].
  exists s, flight. split; [reflexivity|].
  exact (rounds_fired_never_exceed_num_rounds sample_session sample_events s
           flight H0 E).
Defined.

Lemma history_has_two_turns_per_row_witness :
  before_first_round sample_session
  /\ exists s flight,
       play sample_session [] sample_events = Some (s, flight)
       /\ alternates (chat_history s)
       /\ List.length (chat_history s)
          = (2 * List.length (prompt_lengths s)
             + if has_unfinished_request s then 1 else 0)%nat
       /\ (List.length flight <= if has_unfinished_request s then 1 else 0)%nat.
Proof.
  assert (H0 : before_first_round sample_session)
    by (unfold before_first_round; simpl; auto 10).
  split; [exact H0|].
  destruct (play sample_session [] sample_events) as [[s flight]|] eqn:E;
    [|vm_compute in E; discriminate].
  exists s, flight. split; [reflexivity|].
  exact (history_has_two_turns_per_row sample_session sample_events s flight
           H0 E).
Defined.

Lemma summary_gives_back_the_columns_witness :
  before_first_round sample_session
  /\ exists s flight,
       play sample_session [] sample_events = Some (s, flight)
       /\ List.length (UserSession_summary s) = List.length (prompt_lengths s)
       /\ map r_prompt_tokens (UserSession_summary s) = prompt_lengths s
       /\ map r_finish_time (UserSession_summary s) = finish_times s.
Proof.
  assert (H0 : before_first_round sample_session)
    by (unfold before_first_round; simpl; auto 10).
  split; [exact H0|].
  destruct (play sample_session [] sample_events) as [[s flight]|] eqn:E;
    [|vm_compute in E; discriminate].
  exists s, flight. split; [reflexivity|].
  destruct (summary_gives_back_the_columns sample_session sample_events s
              flight H0 E) as (H1 & H2 & _ & _ & _ & _ & H7 & _).
  auto.
Defined.

Lemma history_alternates_under_interleaving_witness :
  alternates (chat_history sample_session)
  /\ exists w,
       exec_all (initial_world sample_session)
         [ATick 100 "r"; AController; AController; AController; AController;
          AController; ACompletes 0 (Ok sample_response); AEventLoop; AEventLoop;
          AEventLoop] = Some w
       /\ no_two_consecutive_same_role (chat_history (session w))
       /\ never_starts_with_assistant (chat_history (session w)).
Proof.
  assert (H0 : alternates (chat_history sample_session)) by constructor.
  split; [exact H0|].
  match goal with
  | |- exists w, exec_all ?i ?acts = _ /\ _ =>
      destruct (exec_all i acts) as [w|] eqn:E;
        [|vm_compute in E; discriminate];
      exists w; split; [reflexivity|];
      exact (history_alternates_under_interleaving sample_session acts w H0 E)
  end.
Defined.

Lemma active_population_stays_in_order_witness :
  exists m0 m,
    sample_manager = Ok m0
    /\ run m0 [Tick 100 sample_rng; Done 2 (Ok sample_response);
               Tick 102 sample_rng] = Ok m
    /\ StronglySorted Z.lt (map session_user_id (sessions m))
    /\ Forall (fun s => session_user_id s <= mgr_user_id m) (sessions m)
    /\ Forall (fun s => finished s = false) (sessions m)
    /\ (List.length (sessions m) <= Z.to_nat (num_users sample_workload))%nat.
Proof.
  destruct sample_manager as [m0|e] eqn:E0; [|vm_compute in E0; discriminate].
  pose proof E0 as E0'. vm_compute in E0'. injection E0' as <-.
  match goal with
  | |- exists m0 m, Ok ?c = Ok m0 /\ run m0 ?ev = Ok m /\ _ =>
      destruct (run c ev) as [m|e] eqn:E1; [|vm_compute in E1; discriminate];
      exists c, m; split; [reflexivity|]; split; [exact E1|];
      exact (active_population_stays_in_order sample_apps_file (Ok [])
               sample_workload 0 false c ev m E0 E1)
  end.
Defined.

Lemma tick_conserves_rows_witness :
  exists m0 m m' effs,
    sample_manager = Ok m0
    /\ run m0 [Tick 100 sample_rng; Done 2 (Ok sample_response)] = Ok m
    /\ UserSessionManager_step m 102 sample_rng = Ok (m', effs)
    /\ Permutation (all_rows m) (all_rows m')
    /\ exists archived, session_summaries m' = session_summaries m ++ archived.
Proof.
  destruct sample_manager as [m0|e] eqn:E0; [|vm_compute in E0; discriminate].
  pose proof E0 as E0'. vm_compute in E0'. injection E0' as <-.
  match goal with
  | |- exists m0 m m' effs, Ok ?c = Ok m0 /\ run m0 ?ev = Ok m /\ _ =>
      destruct (run c ev) as [m|e] eqn:E1; [|vm_compute in E1; discriminate];
      pose proof E1 as E1'; vm_compute in E1'; injection E1' as <-
  end.
  match goal with
  | E1 : run ?c ?ev = Ok ?m |- _ =>
      destruct (UserSessionManager_step m 102 sample_rng) as [[m' effs]|e] eqn:E2;
        [|vm_compute in E2; discriminate];
      exists c, m, m', effs; split; [reflexivity|]; split; [exact E1|];
      split; [exact E2|];
      exact (tick_conserves_rows sample_apps_file (Ok []) sample_workload 0
               false c ev m 102 sample_rng m' effs E0 E1 E2)
  end.
Defined.

Lemma ProcessSummary_window_is_idempotent_witness :
  exists r r2,
    ProcessSummary sample_frame (Some (PyNum 2)) (Some (NpNum 8)) 0 = Ok r
    /\ ProcessSummary (sm_df r) (Some (PyNum 2)) (Some (NpNum 8)) 0 = Ok r2
    /\ sm_df r = [sample_row 1 3; sample_row 6 7]
    /\ sm_df r2 = sm_df r
    /\ launched_queries r = 2 /\ launched_queries r2 = 1.
Proof.
  destruct (ProcessSummary_window_is_idempotent sample_frame (PyNum 2) (NpNum 8) 0)
    as (r & r2 & E & E2 & _ & _ & _ & H & _).
  - intros C. vm_compute in C. discriminate C.
  - intros C. vm_compute in C. discriminate C.
  - discriminate.
  - exists r, r2. split; [exact E|]. split; [exact E2|].
    vm_compute in E. injection E as <-.
    vm_compute in E2. injection E2 as <-.
    repeat split.
Defined.

Lemma ProcessSummary_range_from_data_witness :
  sample_frame <> []
  /\ Forall (fun x => r_launch_time x <= r_finish_time x)%Q sample_frame
  /\ (exists r,
        ProcessSummary sample_frame None None 0 = Ok r
        /\ sm_start_time r = Some 1%Q /\ sm_end_time r = Some 9%Q
        /\ total_time r = Some (9 - 1)%Q)
  /\ (exists r, ProcessSummary [] None None 0 = Ok r
                /\ total_time r = None /\ sm_qps r = NaN).
Proof.
  assert (H0 : sample_frame <> []) by discriminate.
  assert (H1 : Forall (fun x => r_launch_time x <= r_finish_time x)%Q
                 sample_frame).
  { repeat (apply Forall_cons; [discriminate|]). apply Forall_nil. }
  split; [exact H0|]. split; [exact H1|]. split.
  - destruct (ProcessSummary_range_from_data sample_frame 0)
      as (r & E & _ & _ & _ & H).
    destruct (H H0 H1) as (st & et & E1 & E2 & E3 & _).
    exists r. split; [exact E|].
    vm_compute in E. injection E as <-. repeat split.
  - destruct (ProcessSummary_range_from_data [] 0) as (r & E & _ & _ & H & _).
    destruct (H eq_refl) as (H2 & H3 & _).
    exists r. auto.
Defined.

Lemma response_body_is_the_streamed_text_witness :
  exists r,
    snd (_async_launch_request sample_executor no_usage_endpoint sample_clock
           [] 10 None None) = Ok r
    /\ body r = join_texts ([] ++ [mkChunk [mkChoice (Some "ok")] None])
    /\ ttft r = (at_first_token sample_clock - at_start sample_clock)%Q
    /\ generation_time r
       = (at_generation_end sample_clock - at_first_token sample_clock)%Q.
Proof.
  destruct (response_body_is_the_streamed_text sample_executor
              no_usage_endpoint sample_clock [] 10 None None []
              (mkChunk [mkChoice (Some "ok")] None) eq_refl)
    as (r & E & Hb & _ & _ & _ & Ht).
  exists r. split; [exact E|]. split; [exact Hb|].
  assert (Hnz : ~ (at_first_token sample_clock == 0)%Q) by discriminate.
  destruct (Ht eq_refl Hnz) as (H1 & H2 & _). auto.
Defined.

Lemma response_token_counts_witness :
  exists r calls,
    _async_launch_request sample_executor blank_stream_endpoint sample_clock
      [] 10 None None
    = (streaming_request sample_executor "" 10 None :: calls, Ok r)
    /\ calls = [final_request sample_executor "" 10]
    /\ (prompt_tokens r, generation_tokens r) = (11, 0).
Proof.
  destruct (response_token_counts sample_executor blank_stream_endpoint
              sample_clock [] 10 None None
              [mkChunk [mkChoice (Some "")] None]
              (mkChunk [] (Some (mkUsage 0 11))) eq_refl)
    as (r & calls & E & _ & _ & H).
  exists r, calls. split; [exact E|]. exact (H eq_refl).
Defined.

Lemma later_prompt_extends_earlier_prompt_witness :
  exists s1 p1 s2 flight2 s3 p2 more,
    step sample_session 100 "r" = Ok (s1, [Launch p1])
    /\ play s1 [p1] [SDone 0 (Ok sample_response)] = Some (s2, flight2)
    /\ step s2 102 "r" = Ok (s3, [Launch p2])
    /\ more <> []
    /\ pr_messages p2 = pr_messages p1 ++ more.
Proof.
  destruct (step sample_session 100 "r")
    as [[s1 [|[p1|msg] [|? ?]]]|e] eqn:E1;
    try (vm_compute in E1; discriminate).
  pose proof E1 as E1'. vm_compute in E1'. injection E1' as <- <-.
  match type of E1 with
  | _ = Ok (?c1, [Launch ?q1]) =>
      destruct (play c1 [q1] [SDone 0 (Ok sample_response)])
        as [[s2 flight2]|] eqn:E2; [|vm_compute in E2; discriminate];
      pose proof E2 as E2'; vm_compute in E2'; injection E2' as <- <-
  end.
  match type of E2 with
  | _ = Some (?c2, ?f2) =>
      destruct (step c2 102 "r") as [[s3 [|[p2|msg] [|? ?]]]|e] eqn:E3;
        try (vm_compute in E3; discriminate)
  end.
  destruct (later_prompt_extends_earlier_prompt _ _ _ _ _ _ _ _ _ _ _ _ _
              E1 E2 E3) as (more & H1 & H2 & _).
  do 7 eexists. split; [exact E1|]. split; [exact E2|]. split; [exact E3|].
  split; [exact H1 | exact H2].
Defined.

Lemma kept_conversations_cover_all_rounds_witness :
  _load_sharegpt_data sample_workload
    (Ok [sample_conversation; mkShareGPT 2 [mkTurn "q" 1; mkTurn "a" 1]])
  = Ok [sample_conversation]
  /\ exists s' p,
       _launch_new_request sample_replay_session 100 "r" = Ok (s', p)
       /\ pr_max_tokens p <= uc_answer_len (user_config sample_replay_session).
Proof.
  split; [reflexivity|].
  destruct (kept_conversations_cover_all_rounds sample_workload
              [sample_conversation; mkShareGPT 2 [mkTurn "q" 1; mkTurn "a" 1]]
              [sample_conversation] eq_refl) as [_ H].
  apply (H sample_conversation sample_replay_session 100%Q "r").
  - left. reflexivity.
  - reflexivity.
  - reflexivity.
  - simpl. lia.
  - left. reflexivity.
Defined.

Lemma replay_users_run_out_with_conversations_witness :
  (exists m1 s,
     _create_user_session
       (sample_replay_manager [sample_conversation; sample_conversation])
     = Ok (m1, s)
     /\ sharegpt s = Some sample_conversation
     /\ user_id (user_config s) = 1)
  /\ _create_user_session (sample_replay_manager [sample_conversation])
     = Raise IndexError.
Proof.
  assert (Hq : forall data,
             ~ (qps (workload_config (sample_replay_manager data)) == 0)%Q).
  { intros data H. vm_compute in H. discriminate H. }
  split.
  - destruct (replay_users_run_out_with_conversations
                (sample_replay_manager [sample_conversation; sample_conversation]))
      as [H1 _].
    + discriminate.
    + discriminate.
    + apply Hq.
    + reflexivity.
    + cbn. lia.
    + destruct (H1 sample_conversation eq_refl) as (m1 & s & E & Hs & Hu & _).
      exists m1, s. auto.
  - destruct (replay_users_run_out_with_conversations
                (sample_replay_manager [sample_conversation]))
      as [_ H2].
    + discriminate.
    + discriminate.
    + apply Hq.
    + reflexivity.
    + cbn. lia.
    + apply H2. cbn. lia.
Defined.

Lemma base_url_ends_in_v1_witness :
  endswith "http://host:8000//" "/v1" = false
  /\ endswith (normalize_base_url "http://host:8000//") "/v1" = true
  /\ (exists stem k,
        "http://host:8000//" = (stem ++ slashes k)%string
        /\ endswith stem "/" = false
        /\ normalize_base_url "http://host:8000//" = (stem ++ "/v1")%string)
  /\ normalize_base_url "http://host:8000/v1" = "http://host:8000/v1".
Proof.
  destruct (base_url_ends_in_v1 "http://host:8000//") as (H1 & _ & _ & H4).
  destruct (base_url_ends_in_v1 "http://host:8000/v1") as (_ & _ & H3 & _).
  split; [reflexivity|]. split; [exact H1|]. split; [exact (H4 eq_refl)|].
  exact (H3 eq_refl).
Defined.

Lemma random_string_is_alphanumeric_witness :
  String.length (fst (random_string (fun n => n) 60 5)) = 5%nat
  /\ alphanumeric (fst (random_string (fun n => n) 60 5))
  /\ fst (random_string (fun n => n) 60 (-2)) = ""
  /\ snd (random_string (fun n => n) 60 5) = 65%nat.
Proof.
  pose proof (random_string_is_alphanumeric (fun n => n) 60 5) as H.
  pose proof (random_string_is_alphanumeric (fun n => n) 60 (-2)) as H'.
  destruct (random_string (fun n => n) 60 5) as [s p].
  destruct (random_string (fun n => n) 60 (-2)) as [s' p'].
  destruct H as (H1 & H2 & _ & H4). destruct H' as (_ & _ & H3 & _).
  cbn [fst snd]. repeat split; auto. apply H3. lia.
Defined.

Lemma generated_apps_file_loads_witness :
  exists l,
    fst (generate_apps_json (fun n => n) 0 2 3 2 4 1) = Parsed (map entry_of l)
    /\ List.length l = 2%nat
    /\ AppsManager_init (fst (generate_apps_json (fun n => n) 0 2 3 2 4 1)) 1
       = Ok (mkAppsManager l [] 1)
    /\ snd (generate_apps_json (fun n => n) 0 2 3 2 4 1) = 18%nat
    /\ exists am a, get_app_for_user (mkAppsManager l [] 1) 7 = Ok (am, a) /\ In a l.
Proof.
  pose proof (generated_apps_file_loads (fun n => n) 0 2 3 2 4 1 1) as H.
  destruct (generate_apps_json (fun n => n) 0 2 3 2 4 1) as [file p].
  destruct H as (l & H1 & H2 & _ & H4 & H5 & H6).
  exists l. cbn [fst snd]. repeat split; auto.
  apply H6; [lia | discriminate].
Defined.

Lemma manager_construction_witness :
  UserSessionManager_init Unreadable (Ok []) thirds_workload 0 false
  = Raise FileError
  /\ exists m,
       UserSessionManager_init (Parsed (map entry_of [sample_app])) (Ok [])
         thirds_workload 0 false = Ok m
       /\ sessions m = [] /\ need_ramp_up m = true
       /\ gap_between_users m = fmul (fdiv 1 3) 7
       /\ ramp_up_time m = fmul (fdiv 1 3) 7
       /\ ~ (gap_between_users m == 7 # 3)%Q
       /\ ramp_ready m.
Proof.
  destruct (manager_construction (Ok []) thirds_workload 0) as (H1 & _ & _ & H4).
  split; [apply H1|].
  assert (Hq : ~ (qps thirds_workload == 0)%Q)
    by (intros E; vm_compute in E; discriminate E).
  assert (Hn : num_users thirds_workload <> 0) by (vm_compute; discriminate).
  destruct (H4 [sample_app] Hq Hn)
    as (m & E & Hs & Hr & _ & _ & _ & _ & _ & _ & _ & Hone & Hpos).
  destruct (Hone eq_refl) as [Hg Ht].
  assert (P1 : (0 < qps thirds_workload)%Q) by (vm_compute; reflexivity).
  assert (P2 : 0 < num_users thirds_workload) by (vm_compute; reflexivity).
  assert (P3 : 1 <= num_rounds thirds_workload) by (vm_compute; discriminate).
  destruct (Hpos P1 P2 P3) as (_ & _ & _ & Hready).
  assert (Ha : fmul (fdiv (of_int (num_users thirds_workload)) (qps thirds_workload))
                 (of_int (num_rounds thirds_workload - 1))
               = fmul (fdiv 1 3) 7) by (vm_compute; reflexivity).
  rewrite Ha in Hg, Ht.
  exists m. split; [exact E|]. split; [exact Hs|]. split; [exact Hr|].
  split; [exact Hg|]. split; [exact Ht|]. split.
  - rewrite Hg. intros C. vm_compute in C. discriminate C.
  - apply Hready.
    + discriminate.
    + vm_compute. discriminate.
    + intros C. vm_compute in C. discriminate C.
Defined.

Lemma late_completion_fires_an_extra_round_witness :
  exists s p actions w,
    _launch_new_request (set_question_id sample_session 2) 100 "r" = Ok (s, p)
    /\ uc_num_rounds (user_config s) = 3
    /\ exec_all (mkWorld s Idle LIdle [p]) actions = Some w
    /\ ctrl w = Idle /\ loop w = LIdle
    /\ question_id (session w) = 4
    /\ List.length (in_flight w) = 1%nat.
Proof.
  destruct (_launch_new_request (set_question_id sample_session 2) 100 "r")
    as [[s p]|e] eqn:E; [|vm_compute in E; discriminate].
  assert (Hn : uc_num_rounds (user_config s) = 3).
  { pose proof E as E'. vm_compute in E'. injection E' as <- _. reflexivity. }
  destruct (late_completion_fires_an_extra_round
              (set_question_id sample_session 2) 100 "r" s p 102 "r"
              sample_response E eq_refl)
    as (actions & w & H1 & H2 & H3 & H4 & _ & H6).
  - simpl. lia.
  - reflexivity.
  - exists s, p, actions, w. repeat split; auto.
Defined.


Lemma generated_round_request_witness :
  exists s' p,
    _launch_new_request sample_session 100 "r" = Ok (s', p)
    /\ question_id s' = 1
    /\ chat_history s'
       = [mkMessage "user"
            ("sys-a" ++ py_join nl ["doc-1"; "doc-2"] ++ question_text 1 "r")%string]
    /\ pr_max_tokens p = 16
    /\ pr_tools p = Some "tools-a"
    /\ pr_extra_headers p = Some [("x-user-id", "1")].
Proof.
  destruct (generated_round_request sample_session sample_app 100 "r"
              eq_refl eq_refl (or_introl eq_refl))
    as (s' & p & E & H1 & H2 & _ & H4 & H5 & H6).
  exists s', p. repeat split; auto.
Defined.
